(** * hylable_discussion_backup: the polling loops of [hylable_processing.py]
    and the board backup of [miro-backup-python.py], embedded and verified.

  The two scripts talk to external services.  Each service is a [World]
  record of answers indexed by the position of the call in the run; the
  scripts are functions that thread a trace of the calls they made.
  [while True] loops take a fuel argument; every theorem about a returned
  value comes with the amount of fuel that produces it. *)

From Stdlib Require Import ZArith Ascii String DecimalFacts DecimalPos DecimalZ.
From stdpp Require Import gmap strings list sorting.

Local Open Scope Z_scope.

(* ===================================================================== *)
(** ** Python values shared by both scripts *)
(* ===================================================================== *)

Module Py.

(** The exception classes the scripts meet; all of them derive from
    [Exception].  Signals that derive from [BaseException] only
    (KeyboardInterrupt, SystemExit) are not failures of a call and are
    not modelled. *)
Inductive exn : Type :=
| IndexError | KeyError | TypeError | AttributeError | ValueError
| UnicodeEncodeError      (* a ValueError *)
| OSError
| RequestException        (* requests.exceptions.RequestException *)
| HTTPError               (* raised by raise_for_status *)
| JSONDecodeError         (* raised by response.json() *)
| OtherException (name : string).

(** The classes named in [except] clauses. *)
Inductive cls : Type :=
| CIndexError | CValueError | CRequestException | CException.

(** [isinstance e c]: the class of [e] is [c] or derives from it. *)
Definition isinstance (e : exn) (c : cls) : bool :=
  match c, e with
  | CException, _ => true
  | CIndexError, IndexError => true
  | CValueError, ValueError => true
  | CValueError, JSONDecodeError => true
  | CValueError, UnicodeEncodeError => true
  | CRequestException, RequestException => true
  | CRequestException, HTTPError => true
  | CRequestException, JSONDecodeError => true
  | _, _ => false
  end.

(** Outcome of a call that may raise. *)
Inductive result (A : Type) : Type :=
| Ok (a : A)
| Raise (e : exn).
Arguments Ok {A} a.
Arguments Raise {A} e.

Definition bind {A B} (r : result A) (k : A -> result B) : result B :=
  match r with
  | Ok a => k a
  | Raise e => Raise e
  end.

(** A value of a field the SDK hands over, as far as the scripts look at
    it: an [int] (or a value that computes and formats as one: a [bool]
    is 0 or 1), a [float], a [str], [None], or an object of another
    class. *)
Inductive value : Type :=
| VNone
| VInt (n : Z)
| VFloat
| VStr (s : string)
| VObject.

End Py.

Notation "x <-! r ;; k" := (Py.bind r (fun x => k))
(at level 100, r at next level, right associativity, only parsing).

(* ===================================================================== *)
(** ** hylable_processing.py *)
(* ===================================================================== *)

Module Hylable.
Import Py.

(** A discussion as the SDK lists it.  [recordedAt] is the instant of
    the recording in microseconds since the epoch: the source accepts an
    ISO string, a naive datetime (taken as UTC) or an aware datetime, and
    turns each into that instant before converting it.  [duration_sec]
    is whatever the SDK holds there: the scripts pass it on and only the
    file name computes with it. *)
Record Discussion : Type := {
  id : string;
  status : string;
  topic : option string;
  comment : option string;
  recordedAt : Z;
  duration_sec : value;
  group_name : option string
}.

(** What the run does to the outside, in order. *)
Inductive event : Type :=
| EvList (course : string)     (* hy_client.get_discussions(course_id) *)
| EvClock                      (* time.time() *)
| EvSleep (seconds : Z).       (* time.sleep(seconds) *)

Definition trace : Type := list event.

Definition is_list (e : event) : bool :=
  match e with EvList _ => true | _ => false end.

(** Number of listing passes in a trace. *)
Definition passes (tr : trace) : nat := length (List.filter is_list tr).

(** The service, the clock and the time zones.  [listing c n] is the
    answer to the [n]-th listing call (counted from 0) for course [c];
    [wall i] is the wall-clock time at which the [i]-th event of the run
    happens, in clock ticks; [time.time()] reads it.  [tokyo t] is what
    [pytz.timezone('Asia/Tokyo')] says of the instant [t] (microseconds
    since the epoch): the offset from UTC in seconds and the name of the
    zone in force, [JST] for nearly every instant, [JDT] in the summers
    with daylight saving, [LMT] before standard time.  [reads_zone z]
    tells whether the [%Z] directive of [strptime] reads the name [z] in
    this process: it reads [UTC], [GMT] and the names of the local
    timezone of the machine, nothing else. *)
Record World : Type := {
  listing : string -> nat -> list Discussion;
  wall : nat -> Z;
  (* hy_client.get_discussion(discussion_id) *)
  discussion_of : string -> result Discussion;
  (* hy_client.get_asr(discussion): the segments, each a dict *)
  asr_of : Discussion -> result (list (gmap string value));
  tokyo : Z -> Z * string;
  reads_zone : string -> bool
}.

Definition get_discussions (w : World) (course : string) (tr : trace)
  : list Discussion * trace :=
  (listing w course (passes tr), tr ++ [EvList course]).

Definition time_time (w : World) (tr : trace) : Z * trace :=
  (wall w (length tr), tr ++ [EvClock]).

Definition time_sleep (s : Z) (tr : trace) : trace := tr ++ [EvSleep s].

(** Outcome of the [for] loop of a pass: it ran to its end, or it hit
    the [return] inside. *)
Inductive pass (A : Type) : Type :=
| Exhausted (acc : A)
| Returned (acc : A).
Arguments Exhausted {A} acc.
Arguments Returned {A} acc.

Definition len (l : list string) : Z := Z.of_nat (length l).

(** The [for] loop of [get_recording_discussion_ids] (lines 49-57). *)
Fixpoint scan_recording (max_discussions : Z) (ds : list Discussion)
    (discussion_ids : list string) : pass (list string) :=
  match ds with
  | [] => Exhausted discussion_ids
  | d :: rest =>
      if String.eqb (status d) "recording" then
        let ids' :=
          if bool_decide (id d ∈ discussion_ids) then discussion_ids
          else discussion_ids ++ [id d] in
        if len ids' >=? max_discussions then Returned ids'
        else scan_recording max_discussions rest ids'
      else scan_recording max_discussions rest discussion_ids
  end.

(** The [while] loop of [get_recording_discussion_ids] (lines 48-61):
    no sleep between passes. *)
Fixpoint recording_loop (w : World) (course : string) (max_discussions timeout : Z)
    (start_time : Z) (fuel : nat) (discussion_ids : list string) (tr : trace)
  : option (list string * trace) :=
  if len discussion_ids <? max_discussions then
    match fuel with
    | O => None
    | S fuel' =>
        let '(ds, tr1) := get_discussions w course tr in
        match scan_recording max_discussions ds discussion_ids with
        | Returned ids => Some (ids, tr1)
        | Exhausted ids =>
            let '(now, tr2) := time_time w tr1 in
            if now - start_time >? timeout then Some (ids, tr2)
            else recording_loop w course max_discussions timeout start_time fuel' ids tr2
        end
    end
  else Some (discussion_ids, tr).

Definition get_recording_discussion_ids (w : World) (fuel : nat) (course : string)
    (max_discussions timeout : Z) : option (list string * trace) :=
  let '(start_time, tr) := time_time w [] in
  recording_loop w course max_discussions timeout start_time fuel [] tr.

(** The [for] loop of [get_discussion_ids] (lines 91-98). *)
Fixpoint scan_ids (max_discussions : Z) (ds : list Discussion)
    (discussion_ids : list string) : pass (list string) :=
  match ds with
  | [] => Exhausted discussion_ids
  | d :: rest =>
      if bool_decide (id d ∈ discussion_ids) then
        scan_ids max_discussions rest discussion_ids
      else
        let ids' := discussion_ids ++ [id d] in
        if len ids' >=? max_discussions then Returned ids'
        else scan_ids max_discussions rest ids'
  end.

(** The [while] loop of [get_discussion_ids] (lines 90-104). *)
Fixpoint ids_loop (w : World) (course : string) (max_discussions timeout : Z)
    (start_time : Z) (fuel : nat) (discussion_ids : list string) (tr : trace)
  : option (list string * trace) :=
  if len discussion_ids <? max_discussions then
    match fuel with
    | O => None
    | S fuel' =>
        let '(ds, tr1) := get_discussions w course tr in
        match scan_ids max_discussions ds discussion_ids with
        | Returned ids => Some (ids, tr1)
        | Exhausted ids =>
            let '(now, tr2) := time_time w tr1 in
            if now - start_time >? timeout then Some (ids, tr2)
            else ids_loop w course max_discussions timeout start_time fuel' ids
                   (time_sleep 3 tr2)
        end
    end
  else Some (discussion_ids, tr).

Definition get_discussion_ids (w : World) (fuel : nat) (course : string)
    (max_discussions timeout : Z) : option (list string * trace) :=
  let '(start_time, tr) := time_time w [] in
  ids_loop w course max_discussions timeout start_time fuel [] tr.

(** One record of the list [get_all_discussion_ids] returns (lines
    156-164).  ['recordedAt'] is the text [strftime] writes,
    [YYYY-MM-DD HH:MM:SS ZZZ]: a date and a time of day, then the name of
    the zone.  It is held in these two parts: [i_recordedAt] is the date
    and time as a count of seconds (seconds since the epoch on the wall
    clock of the display timezone), [i_zone] the name. *)
Record DiscussionInfo : Type := {
  i_id : string;
  i_status : string;
  i_topic : option string;
  i_comment : option string;
  i_recordedAt : Z;
  i_zone : string;
  i_duration_sec : value;
  i_group_name : option string
}.

(** [astimezone(jst)] followed by the date and time of
    [strftime('%Y-%m-%d %H:%M:%S %Z')]: the wall clock of Asia/Tokyo at
    the instant, without the microseconds. *)
Definition jst_seconds (w : World) (utc_micros : Z) : Z :=
  utc_micros / 1000000 + (tokyo w utc_micros).1.

(** The [%Z] of the same text. *)
Definition jst_zone (w : World) (utc_micros : Z) : string := (tokyo w utc_micros).2.

Definition discussion_info (w : World) (d : Discussion) : DiscussionInfo :=
  {| i_id := id d;
     i_status := status d;
     i_topic := topic d;
     i_comment := comment d;
     i_recordedAt := jst_seconds w (recordedAt d);
     i_zone := jst_zone w (recordedAt d);
     i_duration_sec := duration_sec d;
     i_group_name := group_name d |}.

(** The [for] loop of [get_all_discussion_ids] (lines 143-166). *)
Fixpoint collect (w : World) (ds : list Discussion) (found_ids : gset string)
    (discussions : list DiscussionInfo) : gset string * list DiscussionInfo :=
  match ds with
  | [] => (found_ids, discussions)
  | d :: rest =>
      if bool_decide (id d ∈ found_ids) then collect w rest found_ids discussions
      else collect w rest ({[ id d ]} ∪ found_ids) (discussions ++ [discussion_info w d])
  end.

(** The [while True] loop of [get_all_discussion_ids] (lines 142-174). *)
Fixpoint all_loop (w : World) (course : string) (timeout start_time : Z)
    (fuel : nat) (found_ids : gset string) (discussions : list DiscussionInfo)
    (tr : trace) : option (list DiscussionInfo * trace) :=
  match fuel with
  | O => None
  | S fuel' =>
      let '(ds, tr1) := get_discussions w course tr in
      let '(found_ids', discussions') := collect w ds found_ids discussions in
      let '(now, tr2) := time_time w tr1 in
      if now - start_time >? timeout then Some (discussions', tr2)
      else if Nat.eqb (size found_ids') (length discussions') then Some (discussions', tr2)
      else all_loop w course timeout start_time fuel' found_ids' discussions' tr2
  end.

(** The key of the sort of line 176:
    [datetime.strptime(x['recordedAt'], '%Y-%m-%d %H:%M:%S %Z')].  It
    raises [ValueError] when [%Z] does not read the zone name of the
    text; otherwise it is the naive datetime of the date and time, and
    naive datetimes are ordered as their counts of seconds. *)
Definition strptime_recordedAt (w : World) (x : DiscussionInfo) : result Z :=
  if reads_zone w (i_zone x) then Ok (i_recordedAt x) else Raise ValueError.

(** The key of a record whose text is read. *)
Definition sort_key (x : DiscussionInfo) : Z := i_recordedAt x.

(** [list.sort] computes the key of every record, in order, before it
    moves any: the first key that raises ends the sort. *)
Fixpoint sort_keys (w : World) (l : list DiscussionInfo) : result (list Z) :=
  match l with
  | [] => Ok []
  | x :: l' =>
      k <-! strptime_recordedAt w x ;;
      ks <-! sort_keys w l' ;;
      Ok (k :: ks)
  end.

(** With the keys at hand: Python's sort is stable, also with
    [reverse=True]: records with equal keys keep their order.  A stable
    sort has one possible result, the one of this insertion sort: a
    record is placed in front of the first record whose key is not
    greater than its own. *)

Fixpoint insert_desc (x : DiscussionInfo) (l : list DiscussionInfo)
  : list DiscussionInfo :=
  match l with
  | [] => [x]
  | y :: l' =>
      if sort_key x <? sort_key y then y :: insert_desc x l'
      else x :: y :: l'
  end.

Definition sort_desc (l : list DiscussionInfo) : list DiscussionInfo :=
  foldr insert_desc [] l.

(** [discussions.sort(key=..., reverse=True)] (line 176). *)
Definition sort_reverse (w : World) (discussions : list DiscussionInfo)
  : result (list DiscussionInfo) :=
  _ <-! sort_keys w discussions ;;
  Ok (sort_desc discussions).

(** [get_all_discussion_ids] (lines 137-177): the loop, then the sort,
    whose [ValueError] nothing catches. *)
Definition get_all_discussion_ids (w : World) (fuel : nat) (course : string)
    (timeout : Z) : option (result (list DiscussionInfo) * trace) :=
  let '(start_time, tr) := time_time w [] in
  match all_loop w course timeout start_time fuel ∅ [] tr with
  | Some (discussions, tr') => Some (sort_reverse w discussions, tr')
  | None => None
  end.

(** [[item['text'] for item in metadatas]] (line 219): a missing key
    raises [KeyError] at the first segment that lacks it. *)
Fixpoint texts_of (metadatas : list (gmap string value)) : result (list value) :=
  match metadatas with
  | [] => Ok []
  | item :: rest =>
      match item !! "text" with
      | None => Raise KeyError
      | Some t => ts <-! texts_of rest ;; Ok (t :: ts)
      end
  end.

(** The dictionary [{"discussion_id": ..., "texts": ...}]. *)
Record DiscussionText : Type := {
  discussion_id : string;
  texts : list value
}.

(** [get_single_discussion_text] (lines 216-226): the [try] body, then
    the two handlers in the order they are written.  [None] is
    Python's [None]. *)
Definition single_text_body (w : World) (discussion_id : string)
  : result DiscussionText :=
  discussion <-! discussion_of w discussion_id ;;
  metadatas <-! asr_of w discussion ;;
  texts <-! texts_of metadatas ;;
  Ok {| discussion_id := discussion_id; texts := texts |}.

Definition get_single_discussion_text (w : World) (discussion_id : string)
  : result (option DiscussionText) :=
  match single_text_body w discussion_id with
  | Ok r => Ok (Some r)
  | Raise e =>
      if isinstance e CIndexError then Ok None
      else if isinstance e CException then Ok None
      else Raise e
  end.

(** *** Vocabulary of the properties *)

(** The clock never runs backwards. *)
Definition clock_monotone (w : World) : Prop :=
  forall i j : nat, (i <= j)%nat -> wall w i <= wall w j.

(** At event [e] of the run, more than [timeout] has elapsed since the
    first reading of the clock. *)
Definition exceeded (w : World) (timeout : Z) (e : nat) : Prop :=
  wall w e - wall w 0 > timeout.

(** What the bounded loops keep true of the identifiers collected so far. *)
Definition ids_ok (max_discussions : Z) (ids : list string) : Prop :=
  NoDup ids /\ len ids <= Z.max 0 max_discussions.

(** Only the last event of the trace can lie past the timeout. *)
Definition fresh (w : World) (timeout start_time : Z) (tr : trace) : Prop :=
  forall e : nat, wall w e - start_time > timeout -> (length tr <= S e)%nat.

(** The records of the first listing pass, in listing order, one per
    identifier. *)
Definition first_pass (w : World) (course : string) : list DiscussionInfo :=
  (collect w (listing w course 0) ∅ []).2.



(** *** Sample worlds *)

Definition mk_discussion (i st : string) (micros : Z) : Discussion :=
  {| id := i; status := st; topic := None; comment := None;
     recordedAt := micros; duration_sec := VInt 60; group_name := None |}.

(** Asia/Tokyo for the instants of the samples: UTC+9, [JST]. *)
Definition tokyo_standard (utc_micros : Z) : Z * string := (9 * 3600, "JST").

(** A machine whose local timezone is Japan's. *)
Definition in_japan (zone : string) : bool :=
  String.eqb zone "JST" || String.eqb zone "UTC" || String.eqb zone "GMT".


Definition d1 : Discussion := mk_discussion "dsc_1" "recording" 1700000000000000.
Definition d2 : Discussion := mk_discussion "dsc_2" "finished" 1700000000500000.
Definition d3 : Discussion := mk_discussion "dsc_3" "recording" 1700000100000000.

(** A course whose first listing shows one discussion and whose later
    listings show three; every event takes one tick of the clock; the
    transcript of [dsc_1] has two segments, [dsc_2] has a segment
    without text, and any other identifier is unknown. *)
Definition growing_world : World :=
  {| listing := fun _ n => match n with O => [d1] | _ => [d1; d2; d3] end;
     wall := Z.of_nat;
     discussion_of := fun i =>
       if String.eqb i "dsc_1" then Ok d1
       else if String.eqb i "dsc_2" then Ok d2
       else Raise IndexError;
     asr_of := fun d =>
       if String.eqb (id d) "dsc_1"
       then Ok [ {[ "text" := VStr "hello" ]}; {[ "text" := VStr "world" ]} ]
       else Ok [ {[ "speaker" := VStr "a" ]} ];
     tokyo := tokyo_standard;
     reads_zone := in_japan |}.



End Hylable.

(* ===================================================================== *)
(** ** JSON documents, [json.dump] and [json.load] *)
(* ===================================================================== *)

Module Json.
Import Py.

(** The text [float.__repr__] gives for a finite float, in its parts:
    the sign, the digits before the point (a number without leading
    zeros), the digits after the point when there is a point, and the
    exponent when there is one, with its sign ([true] for minus) and its
    digits.  [1.5] is [(false, 1, Some 5, None)], [-2.5e-07] is
    [(true, 2, Some 5, Some (true, 07))], [1e+16] is
    [(false, 1, None, Some (false, 16))]. *)
Record float_repr : Type := {
  negative : bool;
  whole : N;
  fraction : option Decimal.uint;
  exponent : option (bool * Decimal.uint)
}.

(** A float.  Python writes a finite float by [float.__repr__], the
    shortest decimal text that [float] reads back as the same float, so
    two finite floats are the same exactly when they have the same text:
    a finite float is held as that text.  The other floats are the two
    infinities and not-a-number. *)
Inductive pyfloat : Type :=
| Nan
| Infinity (negative : bool)
| Finite (repr : float_repr).

(** A value as [response.json()] builds it and [json.dump] writes it.
    A [dict] is kept as the list of its entries in insertion order, each
    key once.  Strings are the bytes of their UTF-8 encoding, which is
    also what the backup file holds. *)
#[local] Unset Elimination Schemes.
Inductive json : Type :=
| JNull
| JBool (b : bool)
| JInt (n : Z)
| JFloat (x : pyfloat)
| JStr (s : string)
| JArr (items : list json)
| JObj (members : list (string * json)).
#[local] Set Elimination Schemes.

(** Text of a file, byte by byte. *)
Definition text : Type := list ascii.

Definition chars (s : string) : text := list_ascii_of_string s.

(** *** Python operations on values *)

(** The digits are all zeros. *)
Fixpoint all_zeros (d : Decimal.uint) : bool :=
  match d with
  | Decimal.Nil => true
  | Decimal.D0 d' => all_zeros d'
  | _ => false
  end.

(** [x == 0.0] for a float: both zeros, whatever the exponent. *)
Definition is_zero (x : pyfloat) : bool :=
  match x with
  | Finite r => (whole r =? 0)%N && all_zeros (default Decimal.Nil (fraction r))
  | _ => false
  end.

(** [bool(v)], the test behind [if v] and [not v]. *)
Definition truthy (v : json) : bool :=
  match v with
  | JNull => false
  | JBool b => b
  | JInt n => negb (n =? 0)
  | JFloat x => negb (is_zero x)
  | JStr s => negb (String.eqb s "")
  | JArr items => negb (Nat.eqb (length items) 0)
  | JObj members => negb (Nat.eqb (length members) 0)
  end.

Fixpoint lookup_key (k : string) (members : list (string * json)) : option json :=
  match members with
  | [] => None
  | (k', v) :: rest => if String.eqb k k' then Some v else lookup_key k rest
  end.

(** [d.get(k, default)]: only a dict has the method. *)
Definition dict_get (d : json) (k : string) (default : json) : result json :=
  match d with
  | JObj members =>
      match lookup_key k members with
      | Some v => Ok v
      | None => Ok default
      end
  | _ => Raise AttributeError
  end.

(** [d[k] = v] on the entries of a dict: an existing key keeps its place. *)
Fixpoint dict_set (members : list (string * json)) (k : string) (v : json)
  : list (string * json) :=
  match members with
  | [] => [(k, v)]
  | (k', v') :: rest =>
      if String.eqb k k' then (k', v) :: rest else (k', v') :: dict_set rest k v
  end.

(** A byte that continues a multi-byte UTF-8 character. *)
Definition is_continuation (c : ascii) : bool :=
  (128 <=? N_of_ascii c)%N && (N_of_ascii c <? 192)%N.

(** The characters of a string, each with all its bytes. *)
Fixpoint split_chars (s : text) : list text :=
  match s with
  | [] => []
  | c :: s' =>
      match split_chars s' with
      | (c' :: g) :: gs =>
          if is_continuation c' then (c :: c' :: g) :: gs else [c] :: (c' :: g) :: gs
      | gs => [c] :: gs
      end
  end.

(** What iterating over a value yields, as [list.extend] does: the items
    of a list, the characters of a string, the keys of a dict; anything
    else is not iterable. *)
Definition iterate (v : json) : result (list json) :=
  match v with
  | JArr items => Ok items
  | JStr s => Ok (map (fun c => JStr (string_of_list_ascii c)) (split_chars (chars s)))
  | JObj members => Ok (map (fun kv => JStr kv.1) members)
  | _ => Raise TypeError
  end.

(** A string can hold a lone surrogate (JSON text can escape one); it
    is held as the three bytes the code point would take, 237 followed by
    a byte from 160 to 191, which no other character starts with.  The
    UTF-8 codec of a file refuses such a text with [UnicodeEncodeError]. *)
Fixpoint has_surrogate (t : text) : bool :=
  match t with
  | c :: t' =>
      match t' with
      | c' :: _ =>
          ((N_of_ascii c =? 237)%N && (160 <=? N_of_ascii c')%N && (N_of_ascii c' <=? 191)%N)
          || has_surrogate t'
      | [] => false
      end
  | [] => false
  end.

(** The place of the first lone surrogate of a text. *)
Fixpoint surrogate_index (t : text) : option nat :=
  match t with
  | c :: t' =>
      match t' with
      | c' :: _ =>
          if (N_of_ascii c =? 237)%N && (160 <=? N_of_ascii c')%N && (N_of_ascii c' <=? 191)%N
          then Some 0%nat
          else option_map S (surrogate_index t')
      | [] => None
      end
  | [] => None
  end.

(** *** Writing: [json.dump(v, f, indent=2, ensure_ascii=False)] *)

Definition quote_char : ascii := "034"%char.
Definition backslash : ascii := "092"%char.
Definition newline : ascii := "010"%char.

Fixpoint uint_text (d : Decimal.uint) : text :=
  match d with
  | Decimal.Nil => []
  | Decimal.D0 d => "0"%char :: uint_text d
  | Decimal.D1 d => "1"%char :: uint_text d
  | Decimal.D2 d => "2"%char :: uint_text d
  | Decimal.D3 d => "3"%char :: uint_text d
  | Decimal.D4 d => "4"%char :: uint_text d
  | Decimal.D5 d => "5"%char :: uint_text d
  | Decimal.D6 d => "6"%char :: uint_text d
  | Decimal.D7 d => "7"%char :: uint_text d
  | Decimal.D8 d => "8"%char :: uint_text d
  | Decimal.D9 d => "9"%char :: uint_text d
  end.

(** [int.__repr__]. *)
Definition int_text (n : Z) : text :=
  match Z.to_int n with
  | Decimal.Pos d => uint_text d
  | Decimal.Neg d => "-"%char :: uint_text d
  end.

Definition fraction_text (fraction : option Decimal.uint) : text :=
  match fraction with
  | Some d => "."%char :: uint_text d
  | None => []
  end.

Definition exponent_text (exponent : option (bool * Decimal.uint)) : text :=
  match exponent with
  | Some (minus, d) => "e"%char :: (if minus then "-"%char else "+"%char) :: uint_text d
  | None => []
  end.

(** The text of a finite float, from its parts. *)
Definition float_text (r : float_repr) : text :=
  (if negative r then ["-"%char] else [])
    ++ int_text (Z.of_N (whole r)) ++ fraction_text (fraction r)
    ++ exponent_text (exponent r).

(** [floatstr] of the encoder ([allow_nan] is left at its default). *)
Definition floatstr (x : pyfloat) : text :=
  match x with
  | Nan => chars "NaN"
  | Infinity false => chars "Infinity"
  | Infinity true => chars "-Infinity"
  | Finite r => float_text r
  end.

Definition hex_digit (n : N) : ascii :=
  if (n <? 10)%N then ascii_of_N (48 + n) else ascii_of_N (87 + n).

(** The replacement [encode_basestring] makes for one character: the
    quote, the backslash and the control characters are escaped, every
    other byte is written as it is. *)
Definition escape_char (c : ascii) : text :=
  if Ascii.eqb c quote_char then [backslash; quote_char]
  else if Ascii.eqb c backslash then [backslash; backslash]
  else if Ascii.eqb c "010"%char then [backslash; "n"%char]
  else if Ascii.eqb c "013"%char then [backslash; "r"%char]
  else if Ascii.eqb c "009"%char then [backslash; "t"%char]
  else if Ascii.eqb c "008"%char then [backslash; "b"%char]
  else if Ascii.eqb c "012"%char then [backslash; "f"%char]
  else if (N_of_ascii c <? 32)%N then
    [backslash; "u"%char; "0"%char; "0"%char;
     hex_digit (N_of_ascii c / 16); hex_digit (N_of_ascii c mod 16)]
  else [c].

Definition quote (s : string) : text :=
  quote_char :: flat_map escape_char (chars s) ++ [quote_char].

(** A line break followed by the indentation of the nesting level. *)
Definition newline_indent (level : nat) : text :=
  newline :: repeat " "%char (2 * level).

Fixpoint join (sep : text) (parts : list text) : text :=
  match parts with
  | [] => []
  | [p] => p
  | p :: rest => p ++ sep ++ join sep rest
  end.

Fixpoint dumps (level : nat) (v : json) : text :=
  match v with
  | JNull => chars "null"
  | JBool true => chars "true"
  | JBool false => chars "false"
  | JInt n => int_text n
  | JFloat x => floatstr x
  | JStr s => quote s
  | JArr [] => chars "[]"
  | JArr items =>
      "["%char :: newline_indent (S level)
        ++ join (","%char :: newline_indent (S level)) (map (dumps (S level)) items)
        ++ newline_indent level ++ ["]"%char]
  | JObj [] => chars "{}"
  | JObj members =>
      "{"%char :: newline_indent (S level)
        ++ join (","%char :: newline_indent (S level))
             (map (fun kv => quote kv.1 ++ chars ": " ++ dumps (S level) kv.2) members)
        ++ newline_indent level ++ ["}"%char]
  end.

(** *** Reading: [json.load(f)] *)

Definition is_ws (c : ascii) : bool :=
  Ascii.eqb c " "%char || Ascii.eqb c "009"%char
  || Ascii.eqb c "010"%char || Ascii.eqb c "013"%char.

(** The whitespace pattern of the decoder. *)
Fixpoint skip_ws (s : text) : text :=
  match s with
  | c :: s' => if is_ws c then skip_ws s' else s
  | [] => []
  end.

Definition digit_of (c : ascii) : option (Decimal.uint -> Decimal.uint) :=
  if Ascii.eqb c "0"%char then Some Decimal.D0
  else if Ascii.eqb c "1"%char then Some Decimal.D1
  else if Ascii.eqb c "2"%char then Some Decimal.D2
  else if Ascii.eqb c "3"%char then Some Decimal.D3
  else if Ascii.eqb c "4"%char then Some Decimal.D4
  else if Ascii.eqb c "5"%char then Some Decimal.D5
  else if Ascii.eqb c "6"%char then Some Decimal.D6
  else if Ascii.eqb c "7"%char then Some Decimal.D7
  else if Ascii.eqb c "8"%char then Some Decimal.D8
  else if Ascii.eqb c "9"%char then Some Decimal.D9
  else None.

Definition is_digit (c : ascii) : bool :=
  match digit_of c with Some _ => true | None => false end.

(** The longest run of digits at the head of the text. *)
Fixpoint read_digits (s : text) : Decimal.uint * text :=
  match s with
  | c :: s' =>
      match digit_of c with
      | Some D => let '(d, r) := read_digits s' in (D d, r)
      | None => (Decimal.Nil, s)
      end
  | [] => (Decimal.Nil, [])
  end.

(** The integer part of the number pattern: an optional minus sign, then
    either a single zero or a non-zero digit followed by digits. *)
Definition parse_int (s : text) : option (Z * text) :=
  let '(negative, s1) :=
    match s with
    | c :: s' => if Ascii.eqb c "-"%char then (true, s') else (false, s)
    | [] => (false, s)
    end in
  match s1 with
  | c :: s2 =>
      if Ascii.eqb c "0"%char then Some (0, s2)
      else if is_digit c then
        let '(d, r) := read_digits s1 in
        Some (Z.of_int (if negative then Decimal.Neg d else Decimal.Pos d), r)
      else None
  | [] => None
  end.

(** The fraction of the number pattern, a point followed by digits: the
    text after it, or the text itself when there is none. *)
Definition skip_fraction (s : text) : text :=
  match s with
  | c :: s1 =>
      if Ascii.eqb c "."%char then
        match s1 with
        | c1 :: _ => if is_digit c1 then (read_digits s1).2 else s
        | [] => s
        end
      else s
  | [] => s
  end.

(** The exponent of the number pattern, [e] or [E], an optional sign,
    digits: the text after it, or the text itself when there is none. *)
Definition skip_exponent (s : text) : text :=
  match s with
  | c :: s1 =>
      if Ascii.eqb c "e"%char || Ascii.eqb c "E"%char then
        let s2 :=
          match s1 with
          | c1 :: s1' =>
              if Ascii.eqb c1 "-"%char || Ascii.eqb c1 "+"%char then s1' else s1
          | [] => s1
          end in
        match s2 with
        | c2 :: _ => if is_digit c2 then (read_digits s2).2 else s
        | [] => s
        end
      else s
  | [] => s
  end.

(** A number: the text the pattern matches is an [int] when it has
    neither fraction nor exponent, and is handed to [float] otherwise.
    [to_float] is Python's [float] on such a text. *)
Definition parse_number (to_float : text -> pyfloat) (s : text) : option (json * text) :=
  match parse_int s with
  | Some (n, r1) =>
      let r3 := skip_exponent (skip_fraction r1) in
      if Nat.eqb (length r3) (length r1) then Some (JInt n, r1)
      else Some (JFloat (to_float (take (length s - length r3) s)), r3)
  | None => None
  end.

Definition hex_value (c : ascii) : option N :=
  let n := N_of_ascii c in
  if (48 <=? n)%N && (n <=? 57)%N then Some (n - 48)%N
  else if (97 <=? n)%N && (n <=? 102)%N then Some (n - 87)%N
  else if (65 <=? n)%N && (n <=? 70)%N then Some (n - 55)%N
  else None.

(** Four hexadecimal digits. *)
Definition hex4 (h1 h2 h3 h4 : ascii) : option N :=
  match hex_value h1, hex_value h2, hex_value h3, hex_value h4 with
  | Some a, Some b, Some c, Some d => Some (((a * 16 + b) * 16 + c) * 16 + d)%N
  | _, _, _, _ => None
  end.

(** The bytes of a code point: its UTF-8 encoding, and for a lone
    surrogate the three bytes of the same scheme. *)
Definition utf8 (cp : N) : text :=
  if (cp <? 128)%N then [ascii_of_N cp]
  else if (cp <? 2048)%N then
    [ascii_of_N (192 + cp / 64); ascii_of_N (128 + cp mod 64)]
  else if (cp <? 65536)%N then
    [ascii_of_N (224 + cp / 4096); ascii_of_N (128 + (cp / 64) mod 64);
     ascii_of_N (128 + cp mod 64)]
  else
    [ascii_of_N (240 + cp / 262144); ascii_of_N (128 + (cp / 4096) mod 64);
     ascii_of_N (128 + (cp / 64) mod 64); ascii_of_N (128 + cp mod 64)].

Definition is_high_surrogate (cp : N) : bool := (55296 <=? cp)%N && (cp <=? 56319)%N.
Definition is_low_surrogate (cp : N) : bool := (56320 <=? cp)%N && (cp <=? 57343)%N.

(** The code point of a surrogate pair. *)
Definition join_surrogates (high low : N) : N :=
  (65536 + (high - 55296) * 1024 + (low - 56320))%N.

(** The character an escape letter stands for. *)
Definition unescape (c : ascii) : option ascii :=
  if Ascii.eqb c quote_char then Some quote_char
  else if Ascii.eqb c backslash then Some backslash
  else if Ascii.eqb c "/"%char then Some "/"%char
  else if Ascii.eqb c "b"%char then Some "008"%char
  else if Ascii.eqb c "f"%char then Some "012"%char
  else if Ascii.eqb c "n"%char then Some "010"%char
  else if Ascii.eqb c "r"%char then Some "013"%char
  else if Ascii.eqb c "t"%char then Some "009"%char
  else None.

(** [scanstring], strict: the text after an opening quote, up to the
    closing one.  A [\u] escape of a high surrogate that is followed by
    another [\u] escape reads that one too, and joins the two when the
    second is a low surrogate. *)
Fixpoint scan_string (s : text) : option (text * text) :=
  match s with
  | [] => None
  | c :: s1 =>
      if Ascii.eqb c quote_char then Some ([], s1)
      else if Ascii.eqb c backslash then
        match s1 with
        | [] => None
        | e :: s2 =>
            if Ascii.eqb e "u"%char then
              match s2 with
              | h1 :: h2 :: h3 :: h4 :: s3 =>
                  match hex4 h1 h2 h3 h4 with
                  | Some uni =>
                      let alone :=
                        match scan_string s3 with
                        | Some (cs, r) => Some (utf8 uni ++ cs, r)
                        | None => None
                        end in
                      if is_high_surrogate uni then
                        match s3 with
                        | b :: s4 =>
                            if Ascii.eqb b backslash then
                              match s4 with
                              | u :: s5 =>
                                  if Ascii.eqb u "u"%char then
                                    match s5 with
                                    | l1 :: l2 :: l3 :: l4 :: s6 =>
                                        match hex4 l1 l2 l3 l4 with
                                        | Some uni2 =>
                                            if is_low_surrogate uni2 then
                                              match scan_string s6 with
                                              | Some (cs, r) =>
                                                  Some (utf8 (join_surrogates uni uni2) ++ cs, r)
                                              | None => None
                                              end
                                            else alone
                                        | None => None
                                        end
                                    | _ => None
                                    end
                                  else alone
                              | [] => alone
                              end
                            else alone
                        | [] => alone
                        end
                      else alone
                  | None => None
                  end
              | _ => None
              end
            else
              match unescape e, scan_string s2 with
              | Some ch, Some (cs, r) => Some (ch :: cs, r)
              | _, _ => None
              end
        end
      else if (N_of_ascii c <? 32)%N then None
      else
        match scan_string s1 with
        | Some (cs, r) => Some (c :: cs, r)
        | None => None
        end
  end.

(** [strip p s]: the text after the prefix [p] of [s]. *)
Fixpoint strip (p s : text) : option text :=
  match p, s with
  | [], _ => Some s
  | a :: p', b :: s' => if Ascii.eqb a b then strip p' s' else None
  | _ :: _, [] => None
  end.

(** [scan_once] with the object and array decoders.  [fuel] bounds the
    nesting and the number of entries read; [to_float] is Python's
    [float] on the text of a number. *)
Fixpoint parse_value (to_float : text -> pyfloat) (fuel : nat) (s : text)
  : option (json * text) :=
  match fuel with
  | O => None
  | S fuel' =>
      match s with
      | [] => None
      | c :: s' =>
          if Ascii.eqb c quote_char then
            match scan_string s' with
            | Some (cs, r) => Some (JStr (string_of_list_ascii cs), r)
            | None => None
            end
          else if Ascii.eqb c "{"%char then
            match skip_ws s' with
            | c1 :: r => if Ascii.eqb c1 "}"%char then Some (JObj [], r)
                         else parse_members to_float fuel' [] (c1 :: r)
            | [] => None
            end
          else if Ascii.eqb c "["%char then
            match skip_ws s' with
            | c1 :: r => if Ascii.eqb c1 "]"%char then Some (JArr [], r)
                         else parse_elements to_float fuel' [] (c1 :: r)
            | [] => None
            end
          else if Ascii.eqb c "n"%char then
            match strip (chars "ull") s' with Some r => Some (JNull, r) | None => None end
          else if Ascii.eqb c "t"%char then
            match strip (chars "rue") s' with Some r => Some (JBool true, r) | None => None end
          else if Ascii.eqb c "f"%char then
            match strip (chars "alse") s' with Some r => Some (JBool false, r) | None => None end
          else
            match parse_number to_float s with
            | Some (v, r) => Some (v, r)
            | None =>
                if Ascii.eqb c "N"%char then
                  match strip (chars "aN") s' with
                  | Some r => Some (JFloat Nan, r)
                  | None => None
                  end
                else if Ascii.eqb c "I"%char then
                  match strip (chars "nfinity") s' with
                  | Some r => Some (JFloat (Infinity false), r)
                  | None => None
                  end
                else if Ascii.eqb c "-"%char then
                  match strip (chars "Infinity") s' with
                  | Some r => Some (JFloat (Infinity true), r)
                  | None => None
                  end
                else None
            end
      end
  end
with parse_elements (to_float : text -> pyfloat) (fuel : nat) (acc : list json) (s : text)
  : option (json * text) :=
  match fuel with
  | O => None
  | S fuel' =>
      match parse_value to_float fuel' s with
      | Some (v, r) =>
          match skip_ws r with
          | c :: r' =>
              if Ascii.eqb c ","%char
              then parse_elements to_float fuel' (acc ++ [v]) (skip_ws r')
              else if Ascii.eqb c "]"%char then Some (JArr (acc ++ [v]), r')
              else None
          | [] => None
          end
      | None => None
      end
  end
with parse_members (to_float : text -> pyfloat) (fuel : nat) (acc : list (string * json))
    (s : text) : option (json * text) :=
  match fuel with
  | O => None
  | S fuel' =>
      match s with
      | c :: s' =>
          if Ascii.eqb c quote_char then
            match scan_string s' with
            | Some (k, r) =>
                match skip_ws r with
                | c1 :: r1 =>
                    if Ascii.eqb c1 ":"%char then
                      match parse_value to_float fuel' (skip_ws r1) with
                      | Some (v, r2) =>
                          let acc' := dict_set acc (string_of_list_ascii k) v in
                          match skip_ws r2 with
                          | c2 :: r3 =>
                              if Ascii.eqb c2 ","%char
                              then parse_members to_float fuel' acc' (skip_ws r3)
                              else if Ascii.eqb c2 "}"%char then Some (JObj acc', r3)
                              else None
                          | [] => None
                          end
                      | None => None
                      end
                    else None
                | [] => None
                end
            | None => None
            end
          else None
      | [] => None
      end
  end.

(** [json.loads]: one value between optional whitespace, nothing after. *)
Definition loads (to_float : text -> pyfloat) (s : text) : option json :=
  match parse_value to_float (S (length s)) (skip_ws s) with
  | Some (v, r) =>
      match skip_ws r with
      | [] => Some v
      | _ :: _ => None
      end
  | None => None
  end.

(** *** Vocabulary of the properties *)

(** The text after a number does not go on with a digit. *)
Definition no_digit_head (rest : text) : Prop :=
  match rest with
  | c :: _ => digit_of c = None
  | [] => True
  end.

(** The text after a number does not go on with a digit, a point or an
    exponent. *)
Definition ends_number (rest : text) : bool :=
  match rest with
  | c :: _ =>
      negb (is_digit c || Ascii.eqb c "."%char || Ascii.eqb c "e"%char || Ascii.eqb c "E"%char)
  | [] => true
  end.

(** A number starts with a minus sign or a digit, which no other kind of
    value starts with. *)
Definition number_head (c : ascii) : bool :=
  Ascii.eqb c "-"%char || is_digit c.

Definition has_digits (d : Decimal.uint) : bool :=
  match d with Decimal.Nil => false | _ => true end.

(** The parts are those of a text of [float.__repr__]: digits after the
    point if there is a point, digits in the exponent if there is one,
    and one of the two at least (a text with neither is an [int]). *)
Definition repr_ok (r : float_repr) : bool :=
  match fraction r with Some d => has_digits d | None => true end
  && match exponent r with Some (_, d) => has_digits d | None => true end
  && match fraction r, exponent r with None, None => false | _, _ => true end.

Definition float_repr_eqb (a b : float_repr) : bool :=
  Bool.eqb (negative a) (negative b) && (whole a =? whole b)%N
  && match fraction a, fraction b with
     | Some x, Some y => Decimal.uint_beq x y
     | None, None => true
     | _, _ => false
     end
  && match exponent a, exponent b with
     | Some (s1, x), Some (s2, y) => Bool.eqb s1 s2 && Decimal.uint_beq x y
     | None, None => true
     | _, _ => false
     end.

Definition pyfloat_eqb (a b : pyfloat) : bool :=
  match a, b with
  | Nan, Nan => true
  | Infinity s1, Infinity s2 => Bool.eqb s1 s2
  | Finite x, Finite y => float_repr_eqb x y
  | _, _ => false
  end.

(** A float of the value is one Python can hold: its text is a text of
    [float.__repr__], which [float] reads back as the same float. *)
Definition float_ok (to_float : text -> pyfloat) (x : pyfloat) : bool :=
  match x with
  | Finite r => repr_ok r && pyfloat_eqb (to_float (float_text r)) x
  | _ => true
  end.

(** The value is one Python can hold: every dict has each key once, and
    every float is as above. *)
Fixpoint wf (to_float : text -> pyfloat) (v : json) : bool :=
  match v with
  | JFloat x => float_ok to_float x
  | JArr items => forallb (wf to_float) items
  | JObj members =>
      bool_decide (NoDup (map fst members))
      && forallb (fun kv => wf to_float kv.2) members
  | _ => true
  end.

(** Fuel that is enough to read a value back. *)
Fixpoint weight (v : json) : nat :=
  match v with
  | JArr items => S (foldr (fun x n => S (weight x + n)) 0%nat items)
  | JObj members => S (foldr (fun kv n => S (weight kv.2 + n)) 0%nat members)
  | _ => 1%nat
  end.

(** The reader gives a written value back, at any nesting level and
    before any text that does not go on with the number. *)
Definition reads_back (to_float : text -> pyfloat) (v : json) : Prop :=
  forall (level fuel : nat) (rest : text),
    (weight v <= fuel)%nat -> ends_number rest = true ->
    parse_value to_float fuel (dumps level v ++ rest) = Some (v, rest).

(** The separator between the entries of a list or dict. *)
Definition separator (level : nat) : text := ","%char :: newline_indent level.

(** The text of one dict entry. *)
Definition member_text (level : nat) (kv : string * json) : text :=
  quote kv.1 ++ chars ": " ++ dumps level kv.2.

End Json.

(* ===================================================================== *)
(** ** miro-backup-python.py *)
(* ===================================================================== *)

Module Miro.
Import Py Json.

(** One [requests.get] call: the address, the [Authorization] header and
    the query parameters. *)
Record Request : Type := {
  url : string;
  authorization : string;
  params : list (string * json)
}.

(** What the network gives back to a call: nothing (the call itself
    raises: no connection, timeout), or a status code with a body, which
    is [None] when the body is not JSON. *)
Inductive reply : Type :=
| NoReply
| Reply (status : Z) (body : option json).

(** The lines the script logs, by the place that writes them. *)
Inductive log_entry : Type :=
| BackupStarted | BoardFetched | ItemsFetched (count : nat) | BackupDone
| BoardFailed | ItemsFailed | BackupFailed
| EnvironmentError | ProcessFailed.

(** The outside of a run.  [replies n] answers the [n]-th HTTP call of
    the run, whatever it asks; [environ] is the process environment and
    [dotenv] the content of the [.env] file (empty when there is none);
    [can_open p] tells whether [open(p, 'w')] succeeds.  [write_stops p
    t] is [None] when the operating system takes the whole text [t]
    written to the file opened at [p], and [Some n] when a write fails
    after [n] characters of it have reached the file.  [json.dump] hands
    the text to the file in pieces; [piece_start t i] is the place in
    the text [t] where the piece that holds the character at [i] starts,
    as the encoder of the Python at hand cuts it. *)
Record World : Type := {
  replies : nat -> reply;
  now_isoformat : string;
  environ : gmap string string;
  dotenv : gmap string string;
  can_open : string -> bool;
  write_stops : string -> text -> option nat;
  piece_start : text -> nat -> nat
}.

(** What a run has done so far: the calls made, the files on disk, the
    log. *)
Record State : Type := {
  requests : list Request;
  files : gmap string text;
  log : list log_entry
}.

Definition initial (fs : gmap string text) : State :=
  {| requests := []; files := fs; log := [] |}.

Definition logged (entry : log_entry) (st : State) : State :=
  {| requests := requests st; files := files st; log := log st ++ [entry] |}.

(** What [requests.get] hands to the script for a reply. *)
Definition answer (r : reply) : result (Z * option json) :=
  match r with
  | NoReply => Raise RequestException
  | Reply status body => Ok (status, body)
  end.

Definition requests_get (w : World) (req : Request) (st : State)
  : result (Z * option json) * State :=
  (answer (replies w (length (requests st))),
   {| requests := requests st ++ [req]; files := files st; log := log st |}).

(** [response.raise_for_status()]: the client and server error codes. *)
Definition raise_for_status (response : Z * option json) : result unit :=
  if (400 <=? response.1) && (response.1 <? 600) then Raise HTTPError else Ok tt.

(** [response.json()]. *)
Definition response_json (response : Z * option json) : result json :=
  match response.2 with
  | Some v => Ok v
  | None => Raise JSONDecodeError
  end.

(** The object [MiroBoardBackup(access_token)] (lines 28-33). *)
Record MiroBoardBackup : Type := {
  access_token : string;
  base_url : string;
  header_authorization : string
}.

Definition init (access_token : string) : MiroBoardBackup :=
  {| access_token := access_token;
     base_url := "https://api.miro.com/v2";
     header_authorization := "Bearer " +:+ access_token |}.

(** [get_board] (lines 52-61): the handler logs and raises again. *)
Definition get_board (self : MiroBoardBackup) (w : World) (board_id : string) (st : State)
  : result json * State :=
  let '(r, st1) :=
    requests_get w {| url := base_url self +:+ "/boards/" +:+ board_id;
                      authorization := header_authorization self;
                      params := [] |} st in
  match (response <-! r ;; _ <-! raise_for_status response ;; response_json response) with
  | Ok v => (Ok v, st1)
  | Raise e =>
      if isinstance e CRequestException then (Raise e, logged BoardFailed st1)
      else (Raise e, st1)
  end.

(** What one answer of the items endpoint adds (lines 84-88): the items
    [items.extend] takes from [data.get("data", [])] and the value of
    [data.get("cursor")], [JNull] standing for [None]. *)
Definition read_page (r : result (Z * option json)) : result (list json * json) :=
  response <-! r ;;
  _ <-! raise_for_status response ;;
  data <-! response_json response ;;
  page <-! dict_get data "data" (JArr []) ;;
  new_items <-! iterate page ;;
  cursor <-! dict_get data "cursor" JNull ;;
  Ok (new_items, cursor).

(** The [while True] loop of [get_all_items] (lines 77-93). *)
Fixpoint items_loop (self : MiroBoardBackup) (w : World) (board_id : string)
    (fuel : nat) (items : list json) (cursor : json) (st : State)
  : option (result (list json) * State) :=
  match fuel with
  | O => None
  | S fuel' =>
      let params := if truthy cursor then [("cursor", cursor)] else [] in
      let '(r, st1) :=
        requests_get w {| url := base_url self +:+ "/boards/" +:+ board_id +:+ "/items";
                          authorization := header_authorization self;
                          params := params |} st in
      match read_page r with
      | Raise e => Some (Raise e, st1)
      | Ok (new_items, cursor') =>
          let items' := items ++ new_items in
          if negb (truthy cursor') then Some (Ok items', st1)
          else items_loop self w board_id fuel' items' cursor' st1
      end
  end.

(** [get_all_items] (lines 73-98). *)
Definition get_all_items (self : MiroBoardBackup) (w : World) (fuel : nat)
    (board_id : string) (st : State) : option (result (list json) * State) :=
  match items_loop self w board_id fuel [] JNull st with
  | None => None
  | Some (Ok items, st1) => Some (Ok items, st1)
  | Some (Raise e, st1) =>
      if isinstance e CRequestException then Some (Raise e, logged ItemsFailed st1)
      else Some (Raise e, st1)
  end.

(** The document [backup_board] assembles (lines 123-131). *)
Definition backup_data (w : World) (board_info : json) (items : list json)
    (board_name : json) : json :=
  JObj [ ("board", board_info);
         ("items", JArr items);
         ("metadata",
          JObj [ ("backup_date", JStr (now_isoformat w));
                 ("item_count", JInt (Z.of_nat (length items)));
                 ("board_name", board_name) ]) ].

(** How [json.dump] of the text [t] to the file just opened at [p]
    fails, if it does: the exception, and the number of characters of
    the text that have reached the file.  A write that the operating
    system refuses raises [OSError].  A piece of the text with a lone
    surrogate raises [UnicodeEncodeError] when the file encodes it, and
    nothing of that piece is written. *)
Definition dump_failure (w : World) (p : string) (t : text) : option (exn * nat) :=
  match write_stops w p t with
  | Some n => Some (OSError, n)
  | None =>
      match surrogate_index t with
      | Some i => Some (UnicodeEncodeError, Nat.min i (piece_start w t i))
      | None => None
      end
  end.

(** [with open(output_path, 'w', encoding='utf-8') as f: json.dump(...)]
    (lines 134-135).  [open] empties the file, or creates it; the text
    is written after that, and a failure on the way leaves the part of
    the text that was written. *)
Definition write_json (w : World) (output_path : string) (v : json) (st : State)
  : result unit * State :=
  if can_open w output_path then
    let t := dumps 0 v in
    match dump_failure w output_path t with
    | Some (e, n) =>
        (Raise e, {| requests := requests st;
                     files := <[ output_path := take n t ]> (files st);
                     log := log st |})
    | None =>
        (Ok tt, {| requests := requests st;
                   files := <[ output_path := t ]> (files st);
                   log := log st |})
    end
  else (Raise OSError, st).

(** [backup_board] (lines 111-144): every failure is logged and raised
    again. *)
Definition backup_board (self : MiroBoardBackup) (w : World) (fuel : nat)
    (board_id output_path : string) (st : State) : option (result json * State) :=
  let failed e st' := Some (@Raise json e, logged BackupFailed st') in
  let st0 := logged BackupStarted st in
  match get_board self w board_id st0 with
  | (Raise e, st1) => failed e st1
  | (Ok board_info, st1) =>
      match dict_get board_info "name" (JStr "Unknown Board") with
      | Raise e => failed e st1
      | Ok board_name =>
          match get_all_items self w fuel board_id (logged BoardFetched st1) with
          | None => None
          | Some (Raise e, st2) => failed e st2
          | Some (Ok items, st2) =>
              let st3 := logged (ItemsFetched (length items)) st2 in
              let document := backup_data w board_info items board_name in
              match write_json w output_path document st3 with
              | (Raise e, st4) => failed e st4
              | (Ok _, st4) => Some (Ok document, logged BackupDone st4)
              end
          end
      end
  end.

(** The environment after [load_dotenv]: a variable of the process wins
    over the same variable of the file. *)
Definition getenv (w : World) (name : string) : option string :=
  (environ w ∪ dotenv w) !! name.

(** [not v] for the result of [os.getenv]: unset, or set to nothing. *)
Definition unset (v : option string) : bool :=
  match v with
  | None => true
  | Some s => String.eqb s ""
  end.

(** [load_environment] (lines 157-173). *)
Definition load_environment (w : World) : result (string * string * string) :=
  let access_token := getenv w "MIRO_ACCESS_TOKEN" in
  let board_id := getenv w "MIRO_BOARD_ID" in
  let output_path := default "miro_board_backup.json" (getenv w "OUTPUT_PATH") in
  if unset access_token then Raise ValueError
  else if unset board_id then Raise ValueError
  else Ok (default "" access_token, default "" board_id, output_path).

(** [main] (lines 183-194): both handlers log and return. *)
Definition main (w : World) (fuel : nat) (st : State) : option State :=
  let handled e st' :=
    if isinstance e CValueError then logged EnvironmentError st'
    else logged ProcessFailed st' in
  match load_environment w with
  | Raise e => Some (handled e st)
  | Ok (access_token, board_id, output_path) =>
      match backup_board (init access_token) w fuel board_id output_path st with
      | None => None
      | Some (Ok _, st') => Some st'
      | Some (Raise e, st') => Some (handled e st')
      end
  end.

(** *** Vocabulary of the properties *)

(** An HTTP-level failure: no reply at all, or an error status. *)
Definition is_http_failure (r : reply) : bool :=
  match r with
  | NoReply => true
  | Reply status _ => (400 <=? status) && (status <? 600)
  end.

(** What the [n]-th reply of the run is worth as a page of items. *)
Definition page (w : World) (n : nat) : result (list json * json) :=
  read_page (answer (replies w n)).

(** The [k] replies from the [n]-th on are pages that carry a cursor
    which counts as true. *)
Fixpoint continues (w : World) (n k : nat) : Prop :=
  match k with
  | O => True
  | S k' =>
      (exists new_items cursor, page w n = Ok (new_items, cursor) /\ truthy cursor = true)
      /\ continues w (S n) k'
  end.

(** The items of the [k] pages from the [n]-th reply on, in order. *)
Fixpoint pages_items (w : World) (n k : nat) : list json :=
  match k with
  | O => []
  | S k' =>
      match page w n with
      | Ok (new_items, _) => new_items
      | Raise _ => []
      end ++ pages_items w (S n) k'
  end.

(** Every body the service sends is a value Python can hold: no dict
    with a key twice, every float with the text of its [repr]. *)
Definition wf_replies (to_float : text -> pyfloat) (w : World) : Prop :=
  forall n status v, replies w n = Reply status (Some v) -> wf to_float v = true.

(** *** Sample worlds *)

Definition sticky (text : string) : json :=
  JObj [("id", JStr text); ("type", JStr "sticky_note")].

Definition board_reply : reply :=
  Reply 200 (Some (JObj [("id", JStr "uXjVK"); ("name", JStr "Plan")])).

Definition sample_environ : gmap string string :=
  {[ "MIRO_ACCESS_TOKEN" := "secret"; "MIRO_BOARD_ID" := "uXjVK" ]}.

(** A board of three items on two pages. *)
Definition two_page_world : World :=
  {| replies := fun n =>
       match n with
       | 0%nat => board_reply
       | 1%nat => Reply 200 (Some (JObj [("data", JArr [sticky "a"; sticky "b"]);
                                         ("cursor", JStr "p2")]))
       | _ => Reply 200 (Some (JObj [("data", JArr [sticky "c"])]))
       end;
     now_isoformat := "2024-05-01T10:00:00.000000";
     environ := sample_environ;
     dotenv := ∅;
     can_open := fun _ => true;
     write_stops := fun _ _ => None;
     piece_start := fun _ i => i |}.

(** The float 12.5, as Python writes it. *)
Definition twelve_and_a_half : pyfloat :=
  Finite {| negative := false; whole := 12; fraction := Some (Decimal.D5 Decimal.Nil);
            exponent := None |}.

(** The float -2.5e-07. *)
Definition small_negative : pyfloat :=
  Finite {| negative := true; whole := 2; fraction := Some (Decimal.D5 Decimal.Nil);
            exponent := Some (true, Decimal.D0 (Decimal.D7 Decimal.Nil)) |}.

(** A shape with its position. *)
Definition shape (x y : pyfloat) : json :=
  JObj [("type", JStr "shape");
        ("position", JObj [("x", JFloat x); ("y", JFloat y)])].

(** [float] on a text that [float.__repr__] wrote: the float whose text
    it is.  The parts are read off the text: the sign, the digits before
    the point, the digits after it, the exponent. *)
Definition float_of_repr (t : text) : pyfloat :=
  let '(minus, t1) :=
    match t with
    | c :: t' => if Ascii.eqb c "-"%char then (true, t') else (false, t)
    | [] => (false, t)
    end in
  let '(i, t2) := read_digits t1 in
  let '(f, t3) :=
    match t2 with
    | c :: t' =>
        if Ascii.eqb c "."%char then let '(d, r) := read_digits t' in (Some d, r)
        else (None, t2)
    | [] => (None, t2)
    end in
  let e :=
    match t3 with
    | c :: sign :: t' =>
        if Ascii.eqb c "e"%char
        then Some (Ascii.eqb sign "-"%char, (read_digits t').1)
        else None
    | _ => None
    end in
  Finite {| negative := minus; whole := N.of_uint i; fraction := f; exponent := e |}.

(** A board of two items with fractional coordinates, on two pages. *)
Definition measured_world : World :=
  {| replies := fun n =>
       match n with
       | 0%nat => board_reply
       | 1%nat => Reply 200 (Some (JObj [("data", JArr [shape twelve_and_a_half small_negative]);
                                         ("cursor", JStr "p2")]))
       | _ => Reply 200 (Some (JObj [("data", JArr [shape small_negative (Infinity false)])]))
       end;
     now_isoformat := "2024-05-01T10:00:00.000000";
     environ := sample_environ;
     dotenv := ∅;
     can_open := fun _ => true;
     write_stops := fun _ _ => None;
     piece_start := fun _ i => i |}.

(** The name of the board has a lone surrogate: the document cannot be
    encoded for the file. *)
Definition surrogate_world : World :=
  {| replies := fun n =>
       match n with
       | 0%nat => Reply 200 (Some (JObj [("id", JStr "uXjVK");
                                         ("name", JStr (String "237" (String "160" (String "128" ""))))]))
       | _ => Reply 200 (Some (JObj [("data", JArr [sticky "a"])]))
       end;
     now_isoformat := "2024-05-01T10:00:00.000000";
     environ := sample_environ;
     dotenv := ∅;
     can_open := fun _ => true;
     write_stops := fun _ _ => None;
     piece_start := fun _ i => i |}.

(** The first page carries a cursor that is the empty string. *)
Definition empty_cursor_world : World :=
  {| replies := fun n =>
       match n with
       | 0%nat => board_reply
       | 1%nat => Reply 200 (Some (JObj [("data", JArr [sticky "a"]);
                                         ("cursor", JStr "")]))
       | _ => Reply 200 (Some (JObj [("data", JArr [sticky "b"])]))
       end;
     now_isoformat := "2024-05-01T10:00:00.000000";
     environ := sample_environ;
     dotenv := ∅;
     can_open := fun _ => true;
     write_stops := fun _ _ => None;
     piece_start := fun _ i => i |}.

(** The second page of items is refused by the server. *)
Definition failing_world : World :=
  {| replies := fun n =>
       match n with
       | 0%nat => board_reply
       | 1%nat => Reply 200 (Some (JObj [("data", JArr [sticky "a"]);
                                         ("cursor", JStr "p2")]))
       | _ => Reply 503 None
       end;
     now_isoformat := "2024-05-01T10:00:00.000000";
     environ := sample_environ;
     dotenv := ∅;
     can_open := fun _ => true;
     write_stops := fun _ _ => None;
     piece_start := fun _ i => i |}.

(** No board id in the environment, none in the [.env] file. *)
Definition no_board_world : World :=
  {| replies := fun _ => board_reply;
     now_isoformat := "2024-05-01T10:00:00.000000";
     environ := {[ "MIRO_ACCESS_TOKEN" := "secret" ]};
     dotenv := {[ "OUTPUT_PATH" := "out.json" ]};
     can_open := fun _ => true;
     write_stops := fun _ _ => None;
     piece_start := fun _ i => i |}.

(** The run after the board request of the sample worlds has been made. *)
Definition board_requested : State :=
  {| requests := [ {| url := "https://api.miro.com/v2/boards/uXjVK";
                      authorization := "Bearer secret";
                      params := [] |} ];
     files := ∅;
     log := [BackupStarted; BoardFetched] |}.

End Miro.

(* ===================================================================== *)
(** ** hylable_processing.py: the rest of the file *)
(* ===================================================================== *)

Module Transcripts.
Import Py Json Hylable.

(** [f"{n:02d}"]: the decimal writing, with a zero in front when it has
    fewer than two characters (the sign counts as one). *)
Definition pad2 (n : Z) : text :=
  let t := int_text n in
  if (length t <? 2)%nat then "0"%char :: t else t.

(** [seconds_to_time_format] (lines 22-25); [//] and [%] round towards
    minus infinity, as [Z.div] and [Z.modulo] do for a positive divisor. *)
Definition seconds_to_time_format (seconds : Z) : string :=
  let hours := seconds / 3600 in
  let minutes := (seconds mod 3600) / 60 in
  let remaining_seconds := seconds mod 60 in
  string_of_list_ascii
    (pad2 hours ++ "_"%char :: pad2 minutes ++ "_"%char :: pad2 remaining_seconds).

(** [get_discussion_texts] (lines 193-199): no handler, the first
    failure ends the call and the results gathered so far are lost with
    it. *)
Fixpoint get_discussion_texts (w : World) (discussion_ids : list string)
  : result (list DiscussionText) :=
  match discussion_ids with
  | [] => Ok []
  | discussion_id :: rest =>
      discussion <-! discussion_of w discussion_id ;;
      metadatas <-! asr_of w discussion ;;
      texts <-! texts_of metadatas ;;
      results <-! get_discussion_texts w rest ;;
      Ok ({| discussion_id := discussion_id; texts := texts |} :: results)
  end.

(** *** The script (lines 229-273) *)

(** What the script needs beside the service: [compact_date t] is
    [strftime("%Y%m%d_%H%M%S")] of the date and time of second [t];
    [can_append p] tells whether [open(p, 'a')] succeeds; [write_stops p
    block] is [None] when the operating system takes the whole block
    written to the file opened at [p], and [Some n] when the write fails
    after [n] characters of it have reached the file. *)
Record Script : Type := {
  service : World;
  compact_date : Z -> string;
  can_append : string -> bool;
  write_stops : string -> text -> option nat
}.

(** [strptime] matches the letters of its format without regard to
    case. *)
Definition lower (c : ascii) : ascii :=
  if (65 <=? N_of_ascii c)%N && (N_of_ascii c <=? 90)%N
  then ascii_of_N (N_of_ascii c + 32) else c.

Definition is_jst (zone : string) : bool :=
  bool_decide (map lower (chars zone) = chars "jst").

(** [s.replace('/', '／')], on the bytes of the UTF-8 encoding: the byte
    of the slash occurs in no other character. *)
Fixpoint replace_slash (s : string) : string :=
  match s with
  | EmptyString => EmptyString
  | String c s' =>
      if Ascii.eqb c "/"%char then "／" +:+ replace_slash s'
      else String c (replace_slash s')
  end.

(** [if v:] for an optional text: [None] and the empty text are false. *)
Definition present (v : option string) : option string :=
  match v with
  | Some s => if String.eqb s "" then None else Some s
  | None => None
  end.

(** Lines 249-252. *)
Definition topic_part (discussion : DiscussionInfo) : string :=
  match present (i_topic discussion) with
  | Some t => replace_slash t
  | None => "topic未設定"
  end.

(** Lines 253-256. *)
Definition group_part (discussion : DiscussionInfo) : string :=
  match present (i_group_name discussion) with
  | Some g => g
  | None => "group未設定"
  end.

(** Lines 266-267: [strptime(discussion['recordedAt'], "%Y-%m-%d
    %H:%M:%S JST")] raises [ValueError] when the zone name of the text is
    not the one written in the format; [strftime] then writes the date
    and time. *)
Definition formatted_date (s : Script) (discussion : DiscussionInfo) : result string :=
  if is_jst (i_zone discussion) then Ok (compact_date s (i_recordedAt discussion))
  else Raise ValueError.

(** [seconds_to_time_format(discussion['duration_sec'])] on whatever the
    record holds: a float goes through [//] and [%] and fails at the
    [02d] format with [ValueError]; [None], a string and other objects
    fail at [//] with [TypeError]. *)
Definition duration_part (discussion : DiscussionInfo) : result string :=
  match i_duration_sec discussion with
  | VInt n => Ok (seconds_to_time_format n)
  | VFloat => Raise ValueError
  | VNone | VStr _ | VObject => Raise TypeError
  end.

(** Lines 266-268. *)
Definition filename (s : Script) (discussion : DiscussionInfo) : result string :=
  date <-! formatted_date s discussion ;;
  duration <-! duration_part discussion ;;
  Ok (date +:+ "(" +:+ duration +:+ ")_"
        +:+ i_id discussion +:+ "_" +:+ topic_part discussion
        +:+ "_" +:+ group_part discussion +:+ ".asr.txt").

(** [output_dir / filename] for [output_dir = Path(f"./{course_id}")]. *)
Definition output_path (course_id : string) (name : string) : string :=
  course_id +:+ "/" +:+ name.

(** ['\n'.join(texts) + '\n']. *)
Definition transcript_block (texts : list string) : text :=
  join [newline] (map chars texts) ++ [newline].

(** The texts of a list whose items are all [str]; ['\n'.join] raises
    [TypeError] on any other item. *)
Fixpoint strings_of (vs : list value) : option (list string) :=
  match vs with
  | [] => Some []
  | VStr t :: rest =>
      match strings_of rest with
      | Some ts => Some (t :: ts)
      | None => None
      end
  | _ :: _ => None
  end.

(** [with open(path, 'a', encoding='utf-8') as file:
    file.write('\n'.join(texts) + '\n')] (lines 269-270): the files
    after it, and the exception it raised if it did.  [open] comes first
    and creates the file when there is none; the block is built then,
    encoded, and written. *)
Definition append_file (s : Script) (path : string) (texts : list value)
    (fs : gmap string text) : gmap string text * option exn :=
  if can_append s path then
    let old := default [] (fs !! path) in
    match strings_of texts with
    | None => (<[ path := old ]> fs, Some TypeError)
    | Some ts =>
        let block := transcript_block ts in
        if has_surrogate block then (<[ path := old ]> fs, Some UnicodeEncodeError)
        else
          match write_stops s path block with
          | Some n => (<[ path := old ++ take n block ]> fs, Some OSError)
          | None => (<[ path := old ++ block ]> fs, None)
          end
    end
  else (fs, Some OSError).

(** One turn of the loop over [all_discussions] (lines 245-272): the
    files after it, and the exception that ended it if one did.  No
    handler surrounds lines 266-270. *)
Definition process_one (s : Script) (course_id : string) (discussion : DiscussionInfo)
    (fs : gmap string text) : gmap string text * option exn :=
  match get_single_discussion_text (service s) (i_id discussion) with
  | Raise e => (fs, Some e)
  | Ok None => (fs, None)
  | Ok (Some found) =>
      match texts found with
      | [] => (fs, None)
      | _ :: _ =>
          match filename s discussion with
          | Raise e => (fs, Some e)
          | Ok name => append_file s (output_path course_id name) (texts found) fs
          end
      end
  end.

(** The loop: the files it leaves, with the exception that ended it if
    one did. *)
Fixpoint process_all (s : Script) (course_id : string) (all_discussions : list DiscussionInfo)
    (fs : gmap string text) : gmap string text * option exn :=
  match all_discussions with
  | [] => (fs, None)
  | discussion :: rest =>
      match process_one s course_id discussion fs with
      | (fs', None) => process_all s course_id rest fs'
      | (fs', Some e) => (fs', Some e)
      end
  end.

(** The script for a course: enumerate with a timeout of 30, then
    write.  A [ValueError] of the sort ends the script before the loop. *)
Definition script (s : Script) (fuel : nat) (course_id : string) (fs : gmap string text)
  : option (gmap string text * option exn) :=
  match get_all_discussion_ids (service s) fuel course_id 30 with
  | Some (Ok all_discussions, _) => Some (process_all s course_id all_discussions fs)
  | Some (Raise e, _) => Some (fs, Some e)
  | None => None
  end.

(** *** Vocabulary of the properties *)

(** Reading [seconds_to_time_format] back: three runs of digits between
    underscores. *)
Definition time_format_seconds (t : text) : option Z :=
  let '(h, r1) := read_digits t in
  match r1 with
  | c1 :: r1' =>
      let '(m, r2) := read_digits r1' in
      match r2 with
      | c2 :: r2' =>
          let '(sec, r3) := read_digits r2' in
          match r3 with
          | [] =>
              if Ascii.eqb c1 "_"%char && Ascii.eqb c2 "_"%char
              then Some (Z.of_uint h * 3600 + Z.of_uint m * 60 + Z.of_uint sec)
              else None
          | _ :: _ => None
          end
      | [] => None
      end
  | [] => None
  end.

(** The identifiers of [xs] that are not yet in [acc], added to [acc] in
    the order of their first appearance. *)
Fixpoint add_new (acc xs : list string) : list string :=
  match xs with
  | [] => acc
  | x :: xs' => add_new (if bool_decide (x ∈ acc) then acc else acc ++ [x]) xs'
  end.

(** The identifiers listed by the first [n] passes, in order. *)
Fixpoint listed (w : World) (course : string) (n : nat) : list string :=
  match n with
  | O => []
  | S n' => listed w course n' ++ map id (listing w course n')
  end.

Definition is_recording (d : Discussion) : bool := String.eqb (status d) "recording".

(** The same, for the discussions listed as recording. *)
Fixpoint listed_recording (w : World) (course : string) (n : nat) : list string :=
  match n with
  | O => []
  | S n' =>
      listed_recording w course n' ++ map id (List.filter is_recording (listing w course n'))
  end.

(** A turn of the loop of [get_discussion_ids] that is followed by
    another turn: the listing, the reading of the clock, the sleep. *)
Definition turn (course : string) : trace := [EvList course; EvClock; EvSleep 3].

(** The same for [get_recording_discussion_ids], which does not sleep. *)
Definition turn_recording (course : string) : trace := [EvList course; EvClock].

(** [k] such turns in a row. *)
Fixpoint turns (unit : trace) (k : nat) : trace :=
  match k with
  | O => []
  | S k' => unit ++ turns unit k'
  end.

(** How the last turn of a bounded loop ends: at the [return] inside the
    listing pass, or at the [break] after the reading of the clock. *)
Definition last_turn (course : string) (tail : trace) : Prop :=
  tail = [EvList course] \/ tail = [EvList course; EvClock].


(** The block of a discussion for the file at [path]: its texts, when
    it has some and they go to that file. *)
Definition block_for (s : Script) (course_id path : string)
    (discussion : DiscussionInfo) : text :=
  match get_single_discussion_text (service s) (i_id discussion) with
  | Ok (Some found) =>
      match filename s discussion, strings_of (texts found) with
      | Ok name, Some ts =>
          if bool_decide (output_path course_id name = path)
             && negb (Nat.eqb (length (texts found)) 0)
          then transcript_block ts else []
      | _, _ => []
      end
  | _ => []
  end.

(** The blocks the loop appends to [path], in order. *)
Fixpoint blocks_for (s : Script) (course_id path : string)
    (all_discussions : list DiscussionInfo) : text :=
  match all_discussions with
  | [] => []
  | discussion :: rest =>
      block_for s course_id path discussion ++ blocks_for s course_id path rest
  end.

(** What can go wrong at lines 266-270 for a discussion whose transcript
    [found] is written, in the order in which the lines meet it, each
    with the exception it raises. *)
Inductive write_failure (s : Script) (course_id : string) (discussion : DiscussionInfo)
    (found : DiscussionText) : exn -> Prop :=
| zone_not_jst :
    is_jst (i_zone discussion) = false ->
    write_failure s course_id discussion found ValueError
| duration_float :
    is_jst (i_zone discussion) = true ->
    i_duration_sec discussion = VFloat ->
    write_failure s course_id discussion found ValueError
| duration_not_number :
    is_jst (i_zone discussion) = true ->
    (forall n, i_duration_sec discussion <> VInt n) ->
    i_duration_sec discussion <> VFloat ->
    write_failure s course_id discussion found TypeError
| cannot_open (name : string) :
    filename s discussion = Ok name ->
    can_append s (output_path course_id name) = false ->
    write_failure s course_id discussion found OSError
| text_not_str (name : string) :
    filename s discussion = Ok name ->
    can_append s (output_path course_id name) = true ->
    strings_of (texts found) = None ->
    write_failure s course_id discussion found TypeError
| text_not_encodable (name : string) (ts : list string) :
    filename s discussion = Ok name ->
    can_append s (output_path course_id name) = true ->
    strings_of (texts found) = Some ts ->
    has_surrogate (transcript_block ts) = true ->
    write_failure s course_id discussion found UnicodeEncodeError
| write_failed (name : string) (ts : list string) (n : nat) :
    filename s discussion = Ok name ->
    can_append s (output_path course_id name) = true ->
    strings_of (texts found) = Some ts ->
    has_surrogate (transcript_block ts) = false ->
    write_stops s (output_path course_id name) (transcript_block ts) = Some n ->
    write_failure s course_id discussion found OSError.

(** Nothing goes wrong at lines 266-270 for the discussion. *)
Definition writes_cleanly (s : Script) (course_id : string) (discussion : DiscussionInfo)
    (found : DiscussionText) : Prop :=
  exists name ts,
    filename s discussion = Ok name
    /\ can_append s (output_path course_id name) = true
    /\ strings_of (texts found) = Some ts
    /\ has_surrogate (transcript_block ts) = false
    /\ write_stops s (output_path course_id name) (transcript_block ts) = None.

(** *** Sample script *)

Definition sample_script : Script :=
  {| service := growing_world;
     compact_date := fun _ => "20231115_071320";
     can_append := fun _ => true;
     write_stops := fun _ _ => None |}.

(** The file of [dsc_1] in the sample script. *)
Definition sample_path : string :=
  "crs/20231115_071320(00_01_00)_dsc_1_topic未設定_group未設定.asr.txt".


End Transcripts.

(* ===================================================================== *)
(** ** miro-backup-python.py: vocabulary of further properties *)
(* ===================================================================== *)

Module BackupRuns.
Import Py Json Miro.

(** The request [get_board] makes (lines 53-56). *)
Definition board_request (self : MiroBoardBackup) (board_id : string) : Request :=
  {| url := base_url self +:+ "/boards/" +:+ board_id;
     authorization := header_authorization self;
     params := [] |}.

(** The request [get_all_items] makes for a cursor (lines 78-83). *)
Definition items_request (self : MiroBoardBackup) (board_id : string) (cursor : json)
  : Request :=
  {| url := base_url self +:+ "/boards/" +:+ board_id +:+ "/items";
     authorization := header_authorization self;
     params := if truthy cursor then [("cursor", cursor)] else [] |}.

(** The cursors of the [k] pages from the [n]-th reply on. *)
Fixpoint page_cursors (w : World) (n k : nat) : list json :=
  match k with
  | O => []
  | S k' =>
      match page w n with
      | Ok (_, cursor) => cursor
      | Raise _ => JNull
      end :: page_cursors w (S n) k'
  end.

Definition is_object (v : json) : bool :=
  match v with JObj _ => true | _ => false end.

(** A reply that [raise_for_status] lets through. *)
Definition status_ok (status : Z) : bool := negb ((400 <=? status) && (status <? 600)).

(** Every page says there is another one. *)
Definition endless_world : World :=
  {| replies := fun _ => Reply 200 (Some (JObj [("data", JArr [sticky "a"]);
                                                ("cursor", JStr "next")]));
     now_isoformat := "2024-05-01T10:00:00.000000";
     environ := sample_environ;
     dotenv := ∅;
     can_open := fun _ => true;
     write_stops := fun _ _ => None;
     piece_start := fun _ i => i |}.

(** The board request is answered with a page that is not JSON. *)
Definition not_json_world : World :=
  {| replies := fun _ => Reply 200 None;
     now_isoformat := "2024-05-01T10:00:00.000000";
     environ := sample_environ;
     dotenv := ∅;
     can_open := fun _ => true;
     write_stops := fun _ _ => None;
     piece_start := fun _ i => i |}.

(** The board request is answered with a JSON list. *)
Definition list_board_world : World :=
  {| replies := fun _ => Reply 200 (Some (JArr [JInt 1]));
     now_isoformat := "2024-05-01T10:00:00.000000";
     environ := sample_environ;
     dotenv := ∅;
     can_open := fun _ => true;
     write_stops := fun _ _ => None;
     piece_start := fun _ i => i |}.

(** The output file cannot be opened; the [.env] file names it. *)
Definition read_only_world : World :=
  {| replies := replies two_page_world;
     now_isoformat := "2024-05-01T10:00:00.000000";
     environ := {[ "MIRO_ACCESS_TOKEN" := "secret" ]};
     dotenv := {[ "MIRO_ACCESS_TOKEN" := "from-file"; "MIRO_BOARD_ID" := "uXjVK";
                  "OUTPUT_PATH" := "" ]};
     can_open := fun _ => false;
     write_stops := fun _ _ => None;
     piece_start := fun _ i => i |}.

End BackupRuns.

(* ===================================================================== *)
(** ** Properties of the JSON writer and reader *)
(* ===================================================================== *)

Module JsonSpec.
Import Py Json.

(** *** Whitespace *)

Lemma skip_ws_spaces (n : nat) (s : text) : skip_ws (repeat " "%char n ++ s) = skip_ws s.
Proof. induction n as [|n IH]; [done|exact IH]. Qed.

Lemma skip_ws_newline_indent (level : nat) (s : text) :
  skip_ws (newline_indent level ++ s) = skip_ws s.
Proof. unfold newline_indent. cbn [app skip_ws]. change (is_ws newline) with true. cbv iota. apply skip_ws_spaces. Qed.

Lemma skip_ws_stop (c : ascii) (s : text) : is_ws c = false -> skip_ws (c :: s) = c :: s.
Proof. intros Hc. simpl. by rewrite Hc. Qed.

(** *** Numbers *)

Lemma read_digits_uint (d : Decimal.uint) (rest : text) :
  no_digit_head rest -> read_digits (uint_text d ++ rest) = (d, rest).
Proof.
  intros Hrest. induction d as [|d IH|d IH|d IH|d IH|d IH|d IH|d IH|d IH|d IH|d IH];
    try (cbn [uint_text app read_digits];
         match goal with |- context [digit_of ?c] =>
           change (digit_of c) with (digit_of c); let r := eval vm_compute in (digit_of c) in
           change (digit_of c) with r
         end; cbv iota; by rewrite IH).
  cbn [uint_text app]. destruct rest as [|c rest]; [done|]. simpl in *. by rewrite Hrest.
Qed.

Lemma pos_to_uint_unorm (p : positive) : Decimal.unorm (Pos.to_uint p) = Pos.to_uint p.
Proof.
  rewrite <- DecimalPos.Unsigned.to_of, DecimalPos.Unsigned.of_to. reflexivity.
Qed.

(** The decimal writing of a positive number has no leading zero. *)
Lemma pos_to_uint_head (p : positive) :
  match Pos.to_uint p with
  | Decimal.Nil | Decimal.D0 _ => False
  | _ => True
  end.
Proof.
  pose proof (pos_to_uint_unorm p) as Hn.
  pose proof (DecimalPos.Unsigned.to_uint_nonzero p) as Hnz.
  pose proof (DecimalPos.Unsigned.to_uint_nonnil p) as Hnn.
  destruct (Pos.to_uint p) as [|u| | | | | | | | |]; try done.
  rewrite unorm_D0 in Hn.
  assert (u <> Decimal.Nil) as Hu by (by intros ->).
  pose proof (nb_digits_unorm u Hu) as Hle.
  rewrite Hn in Hle. simpl in Hle. lia.
Qed.

Lemma uint_text_head (d : Decimal.uint) :
  match d with Decimal.Nil | Decimal.D0 _ => False | _ => True end ->
  exists c s, uint_text d = c :: s
    /\ digit_of c <> None /\ Ascii.eqb c "0"%char = false /\ Ascii.eqb c "-"%char = false.
Proof. destruct d; try done; intros _; eexists _, _; (split; [reflexivity|done]). Qed.

Lemma parse_int_positive (negative : bool) (p : positive) (rest : text) :
  no_digit_head rest ->
  parse_int ((if negative then ["-"%char] else []) ++ uint_text (Pos.to_uint p) ++ rest)
  = Some (if negative then Z.neg p else Z.pos p, rest).
Proof.
  intros Hrest.
  destruct (uint_text_head _ (pos_to_uint_head p)) as (c & s & Hhead & Hdig & Hzero & Hminus).
  assert (parse_int (uint_text (Pos.to_uint p) ++ rest)
          = Some (Z.of_int (Decimal.Pos (Pos.to_uint p)), rest)) as Hplain.
  { unfold parse_int. rewrite Hhead. cbn [app]. rewrite Hminus, Hzero.
    unfold is_digit. destruct (digit_of c) as [D|] eqn:HD; [|done].
    change (c :: s ++ rest) with ((c :: s) ++ rest). rewrite <- Hhead.
    by rewrite read_digits_uint. }
  destruct negative.
  - unfold parse_int. cbn [app]. change (Ascii.eqb "-" "-") with true. cbv iota.
    rewrite Hhead. cbn [app]. rewrite Hzero.
    unfold is_digit. destruct (digit_of c) as [D|] eqn:HD; [|done].
    change (c :: s ++ rest) with ((c :: s) ++ rest). rewrite <- Hhead.
    rewrite read_digits_uint by done.
    change (Decimal.Neg (Pos.to_uint p)) with (Z.to_int (Z.neg p)).
    by rewrite DecimalZ.of_to.
  - cbn [app]. rewrite Hplain.
    change (Decimal.Pos (Pos.to_uint p)) with (Z.to_int (Z.pos p)).
    by rewrite DecimalZ.of_to.
Qed.

Lemma parse_int_text (n : Z) (rest : text) :
  no_digit_head rest -> parse_int (int_text n ++ rest) = Some (n, rest).
Proof.
  intros Hrest. destruct n as [|p|p].
  - reflexivity.
  - apply (parse_int_positive false p rest Hrest).
  - apply (parse_int_positive true p rest Hrest).
Qed.

Lemma int_text_head (n : Z) : exists c s, int_text n = c :: s /\ number_head c = true.
Proof.
  destruct n as [|p|p].
  - by eexists _, _.
  - destruct (uint_text_head _ (pos_to_uint_head p)) as (c & s & Hhead & Hdig & _).
    exists c, s. split; [exact Hhead|]. unfold number_head, is_digit.
    destruct (digit_of c); [|done]. apply orb_true_r.
  - eexists _, _. split; [reflexivity|done].
Qed.

Lemma number_head_dispatch (c : ascii) :
  number_head c = true ->
  is_ws c = false /\ Ascii.eqb c quote_char = false
  /\ Ascii.eqb c "{"%char = false /\ Ascii.eqb c "["%char = false
  /\ Ascii.eqb c "n"%char = false /\ Ascii.eqb c "t"%char = false
  /\ Ascii.eqb c "f"%char = false.
Proof.
  destruct c as [[] [] [] [] [] [] [] []]; vm_compute; intros H; try discriminate H;
    repeat split.
Qed.

Lemma ends_number_no_digit (rest : text) : ends_number rest = true -> no_digit_head rest.
Proof.
  destruct rest as [|c rest]; [done|]. cbn [ends_number no_digit_head]. unfold is_digit.
  by destruct (digit_of c).
Qed.

Lemma skip_fraction_end (rest : text) : ends_number rest = true -> skip_fraction rest = rest.
Proof.
  destruct rest as [|c rest]; [done|]. cbn [ends_number skip_fraction].
  destruct (Ascii.eqb c "."); [|done]. by rewrite orb_true_r.
Qed.

Lemma skip_exponent_end (rest : text) : ends_number rest = true -> skip_exponent rest = rest.
Proof.
  destruct rest as [|c rest]; [done|]. cbn [ends_number skip_exponent].
  destruct (Ascii.eqb c "e"), (Ascii.eqb c "E"); try done; by rewrite !orb_true_r.
Qed.

Lemma parse_number_int (to_float : text -> pyfloat) (n : Z) (rest : text) :
  ends_number rest = true ->
  parse_number to_float (int_text n ++ rest) = Some (JInt n, rest).
Proof.
  intros Hrest. unfold parse_number.
  rewrite parse_int_text by (by apply ends_number_no_digit).
  rewrite skip_fraction_end, skip_exponent_end by done. by rewrite Nat.eqb_refl.
Qed.

Lemma uint_text_digits (d : Decimal.uint) :
  has_digits d = true -> exists c t, uint_text d = c :: t /\ is_digit c = true.
Proof. destruct d; try done; intros _; by eexists _, _. Qed.

(** The text of the sign and the digits before the point is read as the
    integer part of the pattern. *)
Lemma parse_int_whole (minus : bool) (n : N) (tail : text) :
  no_digit_head tail ->
  exists z,
    parse_int ((if minus then ["-"%char] else []) ++ int_text (Z.of_N n) ++ tail)
    = Some (z, tail).
Proof.
  intros Htail. destruct n as [|p].
  - exists 0. by destruct minus.
  - eexists. apply (parse_int_positive minus p tail Htail).
Qed.

Lemma skip_fraction_text (fraction : option Decimal.uint) (tail : text) :
  match fraction with Some d => has_digits d | None => true end = true ->
  no_digit_head tail ->
  match tail with c :: _ => Ascii.eqb c "."%char = false | [] => True end ->
  skip_fraction (fraction_text fraction ++ tail) = tail.
Proof.
  intros Hd Htail Hpoint. destruct fraction as [d|]; cbn [fraction_text app].
  - destruct (uint_text_digits d Hd) as (c & t & Ht & Hc).
    cbn [skip_fraction]. change (Ascii.eqb "." ".") with true. cbv iota.
    rewrite Ht. cbn [app]. rewrite Hc.
    change (c :: t ++ tail) with ((c :: t) ++ tail). rewrite <- Ht.
    by rewrite read_digits_uint.
  - destruct tail as [|c tail]; [done|]. cbn [skip_fraction]. by rewrite Hpoint.
Qed.

Lemma skip_exponent_text (exponent : option (bool * Decimal.uint)) (rest : text) :
  match exponent with Some (_, d) => has_digits d | None => true end = true ->
  ends_number rest = true ->
  skip_exponent (exponent_text exponent ++ rest) = rest.
Proof.
  intros Hd Hrest. destruct exponent as [[minus d]|]; cbn [exponent_text app].
  - destruct (uint_text_digits d Hd) as (c & t & Ht & Hc).
    cbn [skip_exponent]. change (Ascii.eqb "e" "e") with true. cbn [orb].
    assert ((Ascii.eqb (if minus then "-"%char else "+"%char) "-"
             || Ascii.eqb (if minus then "-"%char else "+"%char) "+") = true) as ->
      by (by destruct minus).
    rewrite Ht. cbn [app]. rewrite Hc.
    change (c :: t ++ rest) with ((c :: t) ++ rest). rewrite <- Ht.
    rewrite read_digits_uint by (by apply ends_number_no_digit). done.
  - by apply skip_exponent_end.
Qed.

(** What follows the digits before the point in the text of a float. *)
Lemma float_tail_head (r : float_repr) (rest : text) :
  repr_ok r = true -> ends_number rest = true ->
  no_digit_head (fraction_text (fraction r) ++ exponent_text (exponent r) ++ rest)
  /\ no_digit_head (exponent_text (exponent r) ++ rest)
  /\ match exponent_text (exponent r) ++ rest with
     | c :: _ => Ascii.eqb c "."%char = false
     | [] => True
     end
  /\ (length rest
      < length (fraction_text (fraction r) ++ exponent_text (exponent r) ++ rest))%nat.
Proof.
  intros Hok Hrest. unfold repr_ok in Hok.
  destruct (fraction r) as [d|], (exponent r) as [[minus e]|];
    cbn [fraction_text exponent_text app length]; try done;
    repeat split; try done; try (by apply ends_number_no_digit);
    try (rewrite ?length_app; cbn [length]; rewrite ?length_app; lia).
  destruct rest as [|c rest]; [done|]. cbn [ends_number] in Hrest.
  destruct (Ascii.eqb c "."); [|done]. by rewrite orb_true_r in Hrest.
Qed.

Lemma parse_number_float (to_float : text -> pyfloat) (r : float_repr) (rest : text) :
  repr_ok r = true -> ends_number rest = true ->
  parse_number to_float (float_text r ++ rest)
  = Some (JFloat (to_float (float_text r)), rest).
Proof.
  intros Hok Hrest.
  destruct (float_tail_head r rest Hok Hrest) as (Hfrac & Hexp & Hpoint & Hlen).
  pose proof Hok as Hparts. unfold repr_ok in Hparts.
  apply andb_true_iff in Hparts as [Hparts _]. apply andb_true_iff in Hparts as [Hf He].
  unfold parse_number.
  destruct (parse_int_whole (negative r) (whole r) _ Hfrac) as [z Hint].
  assert (float_text r ++ rest
          = (if negative r then ["-"%char] else []) ++ int_text (Z.of_N (whole r))
              ++ fraction_text (fraction r) ++ exponent_text (exponent r) ++ rest) as Htext
    by (unfold float_text; by rewrite <- !app_assoc).
  rewrite Htext at 1. rewrite Hint.
  rewrite skip_fraction_text by done. rewrite skip_exponent_text by done.
  rewrite (proj2 (Nat.eqb_neq _ _)) by lia.
  rewrite length_app, Nat.add_sub. by rewrite take_app_length.
Qed.

(** *** Strings *)

Lemma scan_string_escape (c : ascii) (s : text) :
  scan_string (escape_char c ++ s)
  = match scan_string s with
    | Some (cs, r) => Some (c :: cs, r)
    | None => None
    end.
Proof. destruct c as [[] [] [] [] [] [] [] []]; reflexivity. Qed.

Lemma scan_string_escaped (cs rest : text) :
  scan_string (flat_map escape_char cs ++ quote_char :: rest) = Some (cs, rest).
Proof.
  induction cs as [|c cs IH]; [reflexivity|].
  cbn [flat_map]. rewrite <- app_assoc, scan_string_escape. by rewrite IH.
Qed.

Lemma scan_string_quote (s : string) (rest : text) :
  exists body, quote s ++ rest = quote_char :: body
    /\ scan_string body = Some (chars s, rest).
Proof.
  exists (flat_map escape_char (chars s) ++ quote_char :: rest).
  split; [|apply scan_string_escaped].
  unfold quote. cbn [app]. by rewrite <- app_assoc.
Qed.

Lemma string_of_chars (s : string) : string_of_list_ascii (chars s) = s.
Proof. apply string_of_list_ascii_of_string. Qed.

(** *** Values *)

Lemma json_ind (P : json -> Prop) :
  P JNull -> (forall b, P (JBool b)) -> (forall n, P (JInt n)) -> (forall x, P (JFloat x)) ->
  (forall s, P (JStr s)) ->
  (forall items, Forall P items -> P (JArr items)) ->
  (forall members, Forall (fun kv => P kv.2) members -> P (JObj members)) ->
  forall v, P v.
Proof.
  intros Hnull Hbool Hint Hfloat Hstr Harr Hobj.
  fix IH 1. intros [|b|n|x|s|items|members].
  - exact Hnull.
  - apply Hbool.
  - apply Hint.
  - apply Hfloat.
  - apply Hstr.
  - apply Harr. revert items. fix go 1.
    intros [|x l]; [constructor|constructor; [apply IH|apply go]].
  - apply Hobj. revert members. fix go 1.
    intros [|kv l]; [constructor|constructor; [apply IH|apply go]].
Qed.

Lemma number_head_close (c : ascii) : number_head c = true -> Ascii.eqb c "]"%char = false.
Proof. destruct c as [[] [] [] [] [] [] [] []]; vm_compute; congruence. Qed.

(** The text of a float starts as a number does, or with the first
    letter of [NaN] or [Infinity]. *)
Lemma floatstr_head (x : pyfloat) :
  exists c s, floatstr x = c :: s
    /\ (number_head c = true \/ c = "N"%char \/ c = "I"%char).
Proof.
  destruct x as [|[]|r]; try (eexists _, _; split; [reflexivity|]; auto; by left).
  unfold floatstr, float_text. destruct (negative r).
  - eexists _, _. split; [reflexivity|by left].
  - destruct (int_text_head (Z.of_N (whole r))) as (c & s & Hhead & Hnum).
    rewrite Hhead. eexists _, _. split; [reflexivity|by left].
Qed.

(** No value starts with whitespace or with a closing bracket. *)
Lemma dumps_head (level : nat) (v : json) :
  exists c s, dumps level v = c :: s
    /\ is_ws c = false /\ Ascii.eqb c "]"%char = false.
Proof.
  destruct v as [|[]|n|x|s|[|y items]|[|kv members]]; try (by eexists _, _).
  - destruct (int_text_head n) as (c & s & Hhead & Hnum).
    exists c, s. split; [exact Hhead|].
    split; [by apply number_head_dispatch|by apply number_head_close].
  - destruct (floatstr_head x) as (c & s & Hhead & Hcase).
    exists c, s. split; [exact Hhead|].
    destruct Hcase as [Hnum|[->| ->]]; [|done..].
    split; [by apply number_head_dispatch|by apply number_head_close].
Qed.

Lemma join_cons (sep p : text) (q : text) (parts : list text) :
  join sep (p :: q :: parts) = p ++ sep ++ join sep (q :: parts).
Proof. reflexivity. Qed.

Lemma ends_number_newline_indent (level : nat) (s : text) :
  ends_number (newline_indent level ++ s) = true.
Proof. reflexivity. Qed.

Section Reading.
Context (to_float : text -> pyfloat).

Lemma parse_value_str (fuel : nat) (s : string) (rest : text) :
  parse_value to_float (S fuel) (quote s ++ rest) = Some (JStr s, rest).
Proof.
  destruct (scan_string_quote s rest) as (body & -> & Hscan).
  cbn [parse_value]. change (Ascii.eqb quote_char quote_char) with true. cbv iota.
  by rewrite Hscan, string_of_chars.
Qed.

(** A text that starts as a number is read by the number pattern. *)
Lemma parse_value_number (fuel : nat) (c : ascii) (s : text) :
  number_head c = true ->
  parse_value to_float (S fuel) (c :: s)
  = match parse_number to_float (c :: s) with
    | Some (v, r) => Some (v, r)
    | None =>
        if Ascii.eqb c "-"%char then
          match strip (chars "Infinity") s with
          | Some r => Some (JFloat (Infinity true), r)
          | None => None
          end
        else None
    end.
Proof.
  intros Hnum.
  pose proof (number_head_dispatch c Hnum) as (_ & Hq & Hobj & Harr & Hn & Ht & Hf).
  cbn [parse_value]. rewrite Hq, Hobj, Harr, Hn, Ht, Hf.
  destruct (parse_number to_float (c :: s)) as [[v r]|]; [done|].
  assert (Ascii.eqb c "N" = false /\ Ascii.eqb c "I" = false) as [-> ->]; [|done].
  revert Hnum. clear. destruct c as [[] [] [] [] [] [] [] []]; vm_compute; by intros.
Qed.

Lemma parse_value_int (fuel : nat) (n : Z) (rest : text) :
  ends_number rest = true ->
  parse_value to_float (S fuel) (int_text n ++ rest) = Some (JInt n, rest).
Proof.
  intros Hrest. pose proof (parse_number_int to_float n rest Hrest) as Hparse.
  destruct (int_text_head n) as (c & s & Hhead & Hnum).
  rewrite Hhead in *. cbn [app] in *.
  by rewrite parse_value_number, Hparse.
Qed.

Lemma float_repr_eqb_eq (a b : float_repr) : float_repr_eqb a b = true -> a = b.
Proof.
  destruct a as [n1 w1 f1 e1], b as [n2 w2 f2 e2]. unfold float_repr_eqb.
  cbn [negative whole fraction exponent].
  intros [[[Hn Hw]%andb_true_iff Hf]%andb_true_iff He]%andb_true_iff.
  apply Bool.eqb_prop in Hn. apply N.eqb_eq in Hw. subst.
  assert (f1 = f2) as ->.
  { destruct f1 as [x|], f2 as [y|]; try done.
    by apply Decimal.internal_uint_dec_bl in Hf as ->. }
  assert (e1 = e2) as ->; [|done].
  destruct e1 as [[s1 x]|], e2 as [[s2 y]|]; try done.
  apply andb_true_iff in He as [Hs Hx]. apply Bool.eqb_prop in Hs.
  by apply Decimal.internal_uint_dec_bl in Hx as ->; subst.
Qed.

Lemma pyfloat_eqb_eq (a b : pyfloat) : pyfloat_eqb a b = true -> a = b.
Proof.
  destruct a as [|s1|x], b as [|s2|y]; try done; cbn [pyfloat_eqb]; intros H.
  - by apply Bool.eqb_prop in H as ->.
  - by apply float_repr_eqb_eq in H as ->.
Qed.

Lemma parse_value_float (fuel : nat) (x : pyfloat) (rest : text) :
  float_ok to_float x = true -> ends_number rest = true ->
  parse_value to_float (S fuel) (floatstr x ++ rest) = Some (JFloat x, rest).
Proof.
  intros Hok Hrest. destruct x as [|[]|r]; try reflexivity.
  cbn [float_ok] in Hok. apply andb_true_iff in Hok as [Hrepr Hread].
  apply pyfloat_eqb_eq in Hread.
  pose proof (parse_number_float to_float r rest Hrepr Hrest) as Hparse.
  destruct (floatstr_head (Finite r)) as (c & s & Hhead & Hnum).
  cbn [floatstr] in *. rewrite Hhead in Hparse |- *. cbn [app] in *.
  destruct Hnum as [Hnum|Hletter].
  - rewrite parse_value_number by done. rewrite Hparse, <- Hhead. by rewrite Hread.
  - exfalso. revert Hhead. unfold float_text. destruct (negative r).
    + intros [= <- _]. by destruct Hletter.
    + destruct (int_text_head (Z.of_N (whole r))) as (c' & s' & -> & Hnum').
      intros [= <- _]. by destruct Hletter as [->| ->].
Qed.

Lemma join_head (level : nat) (sep : text) (x : json) (parts : list text) (tail : text) :
  exists c s, join sep (dumps level x :: parts) ++ tail = c :: s
    /\ is_ws c = false /\ Ascii.eqb c "]"%char = false.
Proof.
  destruct (dumps_head level x) as (c & s & Hhead & Hws & Hclose).
  destruct parts as [|q parts]; [|rewrite join_cons]; cbn [join]; rewrite Hhead;
    eexists _, _; (split; [reflexivity|done]).
Qed.

Lemma parse_elements_dumps (level : nat) (items : list json) :
  Forall (reads_back to_float) items -> items <> [] ->
  forall (acc : list json) (fuel : nat) (rest : text),
    (foldr (fun x n => S (weight x + n)) 0 items <= fuel)%nat ->
    parse_elements to_float fuel acc
      (join (separator (S level)) (map (dumps (S level)) items)
         ++ newline_indent level ++ "]"%char :: rest)
    = Some (JArr (acc ++ items), rest).
Proof.
  intros Hall. induction Hall as [|x items Hx Hall IH]; [done|].
  intros _ acc fuel rest Hfuel. cbn [foldr] in Hfuel.
  destruct fuel as [|fuel]; [lia|].
  destruct items as [|y items].
  - cbn [map join parse_elements].
    rewrite (Hx (S level) fuel) by (lia || apply ends_number_newline_indent).
    rewrite skip_ws_newline_indent. reflexivity.
  - cbn [map]. rewrite join_cons, <- !app_assoc. cbn [parse_elements].
    rewrite (Hx (S level) fuel) by (lia || reflexivity).
    unfold separator at 1. cbn [app skip_ws].
    change (is_ws ",") with false. cbv iota.
    change (Ascii.eqb "," ",") with true. cbv iota.
    rewrite skip_ws_newline_indent.
    destruct (join_head (S level) (separator (S level)) y (map (dumps (S level)) items)
                (newline_indent level ++ "]"%char :: rest)) as (c & s & Hj & Hws & _).
    rewrite Hj, (skip_ws_stop c s Hws), <- Hj.
    change (dumps (S level) y :: map (dumps (S level)) items)
      with (map (dumps (S level)) (y :: items)).
    rewrite IH by (done || (cbn [foldr] in *; lia)).
    by rewrite <- app_assoc.
Qed.

Lemma string_eqb_ne (a b : string) : a <> b -> String.eqb a b = false.
Proof. intros Hne. by apply String.eqb_neq. Qed.

Lemma dict_set_fresh (members : list (string * json)) (k : string) (v : json) :
  k ∉ map fst members -> dict_set members k v = members ++ [(k, v)].
Proof.
  induction members as [|[k' v'] members IH]; intros Hk; [done|].
  cbn [dict_set map fst] in *. rewrite not_elem_of_cons in Hk. destruct Hk as [Hne Hk].
  rewrite string_eqb_ne by done. cbn [app]. by rewrite IH.
Qed.

Lemma forallb_Forall {A : Type} (f : A -> bool) (l : list A) :
  forallb f l = true -> Forall (fun x => f x = true) l.
Proof.
  induction l as [|x l IH]; cbn [forallb]; intros H; constructor;
    apply andb_true_iff in H as [Hx Hl]; auto.
Qed.

Lemma member_head (level : nat) (sep : text) (kv : string * json) (parts : list text)
    (tail : text) :
  exists s, join sep (member_text level kv :: parts) ++ tail = quote_char :: s.
Proof. destruct parts as [|q parts]; eexists; reflexivity. Qed.

Lemma parse_members_dumps (level : nat) (members : list (string * json)) :
  Forall (fun kv => reads_back to_float kv.2) members -> members <> [] ->
  forall (acc : list (string * json)) (fuel : nat) (rest : text),
    NoDup (map fst (acc ++ members)) ->
    (foldr (fun kv n => S (weight kv.2 + n)) 0 members <= fuel)%nat ->
    parse_members to_float fuel acc
      (join (separator (S level)) (map (member_text (S level)) members)
         ++ newline_indent level ++ "}"%char :: rest)
    = Some (JObj (acc ++ members), rest).
Proof.
  intros Hall. induction Hall as [|[k x] members Hx Hall IH]; [done|].
  intros _ acc fuel rest Hnd Hfuel. cbn [foldr snd] in Hfuel.
  destruct fuel as [|fuel]; [lia|].
  assert (k ∉ map fst acc) as Hk.
  { rewrite map_app in Hnd. apply NoDup_app in Hnd as (_ & Hdis & _).
    intros Hin. apply (Hdis k Hin). cbn [map fst]. apply list_elem_of_here. }
  assert (forall tail, ends_number tail = true ->
    parse_members to_float (S fuel) acc (member_text (S level) (k, x) ++ tail)
    = match skip_ws tail with
      | c2 :: r3 =>
          if Ascii.eqb c2 ","%char
          then parse_members to_float fuel (acc ++ [(k, x)]) (skip_ws r3)
          else if Ascii.eqb c2 "}"%char then Some (JObj (acc ++ [(k, x)]), r3)
          else None
      | [] => None
      end) as Hstep.
  { intros tail Htail. unfold member_text. cbn [fst snd]. rewrite <- !app_assoc.
    destruct (scan_string_quote k (chars ": " ++ dumps (S level) x ++ tail))
      as (body & -> & Hscan).
    cbn [parse_members]. change (Ascii.eqb quote_char quote_char) with true. cbv iota.
    rewrite Hscan. cbn [chars list_ascii_of_string app skip_ws].
    change (is_ws ":") with false. cbv iota.
    change (Ascii.eqb ":" ":") with true. cbv iota.
    destruct (dumps_head (S level) x) as (c & s & Hhead & Hws & _).
    change (skip_ws (" "%char :: dumps (S level) x ++ tail))
      with (skip_ws (dumps (S level) x ++ tail)).
    rewrite Hhead. cbn [app]. rewrite (skip_ws_stop c _ Hws).
    change (c :: s ++ tail) with ((c :: s) ++ tail). rewrite <- Hhead.
    rewrite (Hx (S level) fuel) by (done || (cbn [snd]; lia)).
    by rewrite string_of_chars, dict_set_fresh. }
  destruct members as [|kv members].
  - cbn [map join]. rewrite Hstep by apply ends_number_newline_indent.
    rewrite skip_ws_newline_indent. reflexivity.
  - cbn [map]. rewrite join_cons, <- !app_assoc. rewrite Hstep by reflexivity.
    unfold separator at 1. cbn [app skip_ws].
    change (is_ws ",") with false. cbv iota.
    change (Ascii.eqb "," ",") with true. cbv iota.
    rewrite skip_ws_newline_indent.
    destruct (member_head (S level) (separator (S level)) kv
                (map (member_text (S level)) members)
                (newline_indent level ++ "}"%char :: rest)) as (s & Hj).
    rewrite Hj, (skip_ws_stop quote_char s eq_refl), <- Hj.
    change (member_text (S level) kv :: map (member_text (S level)) members)
      with (map (member_text (S level)) (kv :: members)).
    rewrite IH; [by rewrite <- app_assoc|done|by rewrite <- app_assoc|].
    cbn [foldr] in *. lia.
Qed.

Lemma wf_arr (items : list json) :
  wf to_float (JArr items) = true -> Forall (fun x => wf to_float x = true) items.
Proof. cbn [wf]. apply forallb_Forall. Qed.

Lemma wf_obj (members : list (string * json)) :
  wf to_float (JObj members) = true ->
  NoDup (map fst members) /\ Forall (fun kv => wf to_float kv.2 = true) members.
Proof.
  cbn [wf]. intros H. apply andb_true_iff in H as [Hnd Hall]. split.
  - by apply bool_decide_eq_true in Hnd.
  - by apply (forallb_Forall (fun kv => wf to_float kv.2)).
Qed.

(** Every well-formed value is read back from its text. *)
Lemma parse_value_dumps (v : json) : wf to_float v = true -> reads_back to_float v.
Proof.
  induction v as [|b|n|x|s|items IH|members IH] using json_ind;
    intros Hwf level fuel rest Hfuel Hrest;
    (destruct fuel as [|fuel]; [cbn [weight] in Hfuel; lia|]).
  - reflexivity.
  - by destruct b.
  - by apply parse_value_int.
  - by apply parse_value_float.
  - apply parse_value_str.
  - assert (Forall (reads_back to_float) items) as Hall.
    { apply wf_arr in Hwf. rewrite Forall_forall in *. intros y Hy. by apply IH, Hwf. }
    destruct items as [|y items]; [reflexivity|].
    cbn [weight] in Hfuel. apply le_S_n in Hfuel.
    change (dumps level (JArr (y :: items)))
      with ("["%char :: newline_indent (S level)
              ++ join (separator (S level)) (map (dumps (S level)) (y :: items))
              ++ newline_indent level ++ ["]"%char]).
    rewrite <- app_comm_cons, <- !app_assoc. cbn [parse_value].
    change (Ascii.eqb "[" quote_char) with false.
    change (Ascii.eqb "[" "{") with false.
    change (Ascii.eqb "[" "[") with true. cbv iota.
    rewrite skip_ws_newline_indent.
    destruct (join_head (S level) (separator (S level)) y (map (dumps (S level)) items)
                (newline_indent level ++ ["]"%char] ++ rest)) as (c & s & Hj & Hws & Hclose).
    cbn [map]. rewrite Hj, (skip_ws_stop c s Hws), Hclose, <- Hj.
    by apply (parse_elements_dumps level (y :: items) Hall) with (acc := []).
  - apply wf_obj in Hwf as [Hnd Hwf].
    assert (Forall (fun kv => reads_back to_float kv.2) members) as Hall.
    { rewrite Forall_forall in *. intros kv Hkv. by apply IH, Hwf. }
    destruct members as [|kv members]; [reflexivity|].
    cbn [weight] in Hfuel. apply le_S_n in Hfuel.
    change (dumps level (JObj (kv :: members)))
      with ("{"%char :: newline_indent (S level)
              ++ join (separator (S level)) (map (member_text (S level)) (kv :: members))
              ++ newline_indent level ++ ["}"%char]).
    rewrite <- app_comm_cons, <- !app_assoc. cbn [parse_value].
    change (Ascii.eqb "{" quote_char) with false.
    change (Ascii.eqb "{" "{") with true. cbv iota.
    rewrite skip_ws_newline_indent.
    destruct (member_head (S level) (separator (S level)) kv
                (map (member_text (S level)) members)
                (newline_indent level ++ ["}"%char] ++ rest)) as (s & Hj).
    cbn [map]. rewrite Hj, (skip_ws_stop quote_char s eq_refl).
    change (Ascii.eqb quote_char "}") with false. cbv iota. rewrite <- Hj.
    by apply (parse_members_dumps level (kv :: members) Hall) with (acc := []).
Qed.
End Reading.

(** *** The text is long enough to serve as fuel *)

Lemma weight_join {A : Type} (w : A -> nat) (f : A -> text) (sep : text) (l : list A) :
  (1 <= length sep)%nat ->
  Forall (fun x => (w x <= length (f x))%nat) l ->
  (foldr (fun x n => S (w x + n)) 0 l <= length (join sep (map f l)) + 1)%nat.
Proof.
  intros Hsep Hall. induction Hall as [|x l Hx Hall IH]; [cbn; lia|].
  destruct l as [|y l]; [cbn in *; lia|].
  cbn [map] in *. rewrite join_cons, !length_app.
  cbn [foldr] in *. lia.
Qed.

Lemma length_newline_indent (level : nat) : (1 <= length (newline_indent level))%nat.
Proof. cbn. lia. Qed.

Lemma weight_le_length (v : json) : forall level, (weight v <= length (dumps level v))%nat.
Proof.
  induction v as [|b|n|x|s|items IH|members IH] using json_ind; intros level.
  - cbn. lia.
  - destruct b; cbn; lia.
  - destruct (int_text_head n) as (c & s & Hhead & _). cbn [dumps weight].
    rewrite Hhead. cbn. lia.
  - destruct (floatstr_head x) as (c & s & Hhead & _). cbn [dumps weight].
    rewrite Hhead. cbn. lia.
  - cbn [dumps weight]. unfold quote. cbn [length]. lia.
  - destruct items as [|y items]; [cbn; lia|].
    change (dumps level (JArr (y :: items)))
      with ("["%char :: newline_indent (S level)
              ++ join (separator (S level)) (map (dumps (S level)) (y :: items))
              ++ newline_indent level ++ ["]"%char]).
    cbn [weight length]. rewrite !length_app.
    pose proof (weight_join weight (dumps (S level)) (separator (S level)) (y :: items)) as Hw.
    pose proof (length_newline_indent level). pose proof (length_newline_indent (S level)).
    cbn [length] in *.
    assert (Forall (fun x => (weight x <= length (dumps (S level) x))%nat) (y :: items))
      by (eapply Forall_impl; [exact IH|]; intros z Hz; apply Hz).
    specialize (Hw ltac:(unfold separator; cbn [length]; lia) ltac:(done)). lia.
  - destruct members as [|kv members]; [cbn; lia|].
    change (dumps level (JObj (kv :: members)))
      with ("{"%char :: newline_indent (S level)
              ++ join (separator (S level)) (map (member_text (S level)) (kv :: members))
              ++ newline_indent level ++ ["}"%char]).
    cbn [weight length]. rewrite !length_app.
    pose proof (weight_join (fun kv => weight kv.2) (member_text (S level))
                  (separator (S level)) (kv :: members)) as Hw.
    pose proof (length_newline_indent level). pose proof (length_newline_indent (S level)).
    cbn [length] in *.
    assert (Forall (fun kv => (weight kv.2 <= length (member_text (S level) kv))%nat)
              (kv :: members)).
    { eapply Forall_impl; [exact IH|]. intros y Hy. cbn beta in Hy.
      unfold member_text. rewrite !length_app. specialize (Hy (S level)). lia. }
    specialize (Hw ltac:(unfold separator; cbn [length]; lia) ltac:(done)). lia.
Qed.

(** [json.loads(json.dumps(v, indent=2, ensure_ascii=False))] is [v]. *)
Lemma loads_dumps (to_float : text -> pyfloat) (v : json) :
  wf to_float v = true -> loads to_float (dumps 0 v) = Some v.
Proof.
  intros Hwf. unfold loads.
  destruct (dumps_head 0 v) as (c & s & Hhead & Hws & _).
  assert (skip_ws (dumps 0 v) = dumps 0 v) as -> by (rewrite Hhead; by apply skip_ws_stop).
  pose proof (parse_value_dumps to_float v Hwf 0%nat (S (length (dumps 0 v))) []) as Hparse.
  rewrite app_nil_r in Hparse. rewrite Hparse; [done| |done].
  pose proof (weight_le_length v 0). lia.
Qed.

End JsonSpec.

(* ===================================================================== *)
(** ** Properties of the polling loops *)
(* ===================================================================== *)

Module HylableSpec.
Import Py Hylable.

Lemma passes_app (tr1 tr2 : trace) : passes (tr1 ++ tr2) = (passes tr1 + passes tr2)%nat.
Proof. unfold passes. by rewrite List.filter_app, length_app. Qed.

Lemma passes_drop_le (k : nat) (tr : trace) : (passes (drop k tr) <= passes tr)%nat.
Proof.
  rewrite <- (take_drop k tr) at 2. rewrite passes_app. lia.
Qed.

Lemma passes_drop_app_ge (k : nat) (tr new : trace) :
  (length tr <= k)%nat -> (passes (drop k (tr ++ new)) <= passes new)%nat.
Proof.
  intros Hk. rewrite drop_app_ge by done. apply passes_drop_le.
Qed.

(** *** The bounded loops: what a pass keeps true *)

Lemma len_snoc (ids : list string) (x : string) : len (ids ++ [x]) = len ids + 1.
Proof. unfold len. rewrite length_app. simpl. lia. Qed.

Lemma NoDup_snoc (ids : list string) (x : string) :
  NoDup ids -> x ∉ ids -> NoDup (ids ++ [x]).
Proof.
  intros Hnd Hx. apply NoDup_app. split; [done|]. split.
  - intros y Hy Hy'. apply list_elem_of_singleton in Hy'. by subst.
  - apply NoDup_singleton.
Qed.

Lemma scan_ids_ok (max_discussions : Z) (ds : list Discussion) :
  forall ids,
    NoDup ids -> len ids < max_discussions ->
    match scan_ids max_discussions ds ids with
    | Exhausted ids' => NoDup ids' /\ len ids' < max_discussions
    | Returned ids' => NoDup ids' /\ len ids' = max_discussions
    end.
Proof.
  induction ds as [|d rest IH]; intros ids Hnd Hlt; simpl; [done|].
  case_bool_decide as Hin; [by apply IH|].
  destruct (Z.geb_spec (len (ids ++ [id d])) max_discussions) as [Hge|Hlt'].
  - split; [by apply NoDup_snoc|]. rewrite len_snoc in *. lia.
  - apply IH; [by apply NoDup_snoc|done].
Qed.

Lemma scan_recording_ok (max_discussions : Z) (ds : list Discussion) :
  forall ids,
    NoDup ids -> len ids < max_discussions ->
    match scan_recording max_discussions ds ids with
    | Exhausted ids' => NoDup ids' /\ len ids' < max_discussions
    | Returned ids' => NoDup ids' /\ len ids' = max_discussions
    end.
Proof.
  induction ds as [|d rest IH]; intros ids Hnd Hlt; simpl; [done|].
  destruct (String.eqb (status d) "recording"); [|by apply IH].
  case_bool_decide as Hin.
  - destruct (Z.geb_spec (len ids) max_discussions) as [Hge|Hlt']; [lia|by apply IH].
  - destruct (Z.geb_spec (len (ids ++ [id d])) max_discussions) as [Hge|Hlt'].
    + split; [by apply NoDup_snoc|]. rewrite len_snoc in *. lia.
    + apply IH; [by apply NoDup_snoc|done].
Qed.

Lemma ids_loop_ok w course max_discussions timeout start_time :
  forall fuel ids tr r tr',
    ids_ok max_discussions ids ->
    ids_loop w course max_discussions timeout start_time fuel ids tr = Some (r, tr') ->
    ids_ok max_discussions r.
Proof.
  induction fuel as [|fuel IH]; intros ids tr r tr' [Hnd Hle] Hrun; simpl in Hrun.
  - destruct (Z.ltb_spec (len ids) max_discussions); [done|].
    by injection Hrun as <- <-.
  - destruct (Z.ltb_spec (len ids) max_discussions) as [Hlt|Hge];
      [|by injection Hrun as <- <-].
    pose proof (scan_ids_ok max_discussions (listing w course (passes tr)) ids Hnd Hlt) as Hscan.
    destruct (scan_ids _ _ _) as [ids'|ids'].
    + destruct Hscan as [Hnd' Hlt'].
      destruct (_ >? _).
      * injection Hrun as <- <-. split; [done|lia].
      * eapply IH; [|exact Hrun]. split; [done|lia].
    + destruct Hscan as [Hnd' Heq]. injection Hrun as <- <-. split; [done|lia].
Qed.

Lemma recording_loop_ok w course max_discussions timeout start_time :
  forall fuel ids tr r tr',
    ids_ok max_discussions ids ->
    recording_loop w course max_discussions timeout start_time fuel ids tr = Some (r, tr') ->
    ids_ok max_discussions r.
Proof.
  induction fuel as [|fuel IH]; intros ids tr r tr' [Hnd Hle] Hrun; simpl in Hrun.
  - destruct (Z.ltb_spec (len ids) max_discussions); [done|].
    by injection Hrun as <- <-.
  - destruct (Z.ltb_spec (len ids) max_discussions) as [Hlt|Hge];
      [|by injection Hrun as <- <-].
    pose proof (scan_recording_ok max_discussions (listing w course (passes tr)) ids Hnd Hlt)
      as Hscan.
    destruct (scan_recording _ _ _) as [ids'|ids'].
    + destruct Hscan as [Hnd' Hlt'].
      destruct (_ >? _).
      * injection Hrun as <- <-. split; [done|lia].
      * eapply IH; [|exact Hrun]. split; [done|lia].
    + destruct Hscan as [Hnd' Heq]. injection Hrun as <- <-. split; [done|lia].
Qed.

(** *** The bounded loops: enough fuel *)

Section Termination.
Context (w : World) (course : string) (max_discussions timeout : Z).
Hypothesis Hmono : clock_monotone w.
Context (e : nat) (start_time : Z).
Hypothesis Hexc : wall w e - start_time > timeout.

Lemma ids_loop_terminates :
  forall fuel ids tr,
    (1 <= fuel)%nat -> (e <= length tr + fuel)%nat ->
    is_Some (ids_loop w course max_discussions timeout start_time fuel ids tr).
Proof.
  induction fuel as [|fuel IH]; intros ids tr Hf He; [lia|]. simpl.
  destruct (_ <? _); [|done].
  destruct (scan_ids _ _ _) as [ids'|ids']; [|done].
  rewrite length_app. simpl.
  destruct (Z.gtb_spec (wall w (length tr + 1) - start_time) timeout) as [Hgt|Hle]; [done|].
  assert (length tr + 1 < e)%nat as Hlt.
  { apply Nat.nle_gt. intros Hc. pose proof (Hmono _ _ Hc). lia. }
  apply IH; [lia|]. unfold time_sleep. rewrite !length_app. simpl. lia.
Qed.

Lemma recording_loop_terminates :
  forall fuel ids tr,
    (1 <= fuel)%nat -> (e <= length tr + fuel)%nat ->
    is_Some (recording_loop w course max_discussions timeout start_time fuel ids tr).
Proof.
  induction fuel as [|fuel IH]; intros ids tr Hf He; [lia|]. simpl.
  destruct (_ <? _); [|done].
  destruct (scan_recording _ _ _) as [ids'|ids']; [|done].
  rewrite length_app. simpl.
  destruct (Z.gtb_spec (wall w (length tr + 1) - start_time) timeout) as [Hgt|Hle]; [done|].
  assert (length tr + 1 < e)%nat as Hlt.
  { apply Nat.nle_gt. intros Hc. pose proof (Hmono _ _ Hc). lia. }
  apply IH; [lia|]. rewrite !length_app. simpl. lia.
Qed.
End Termination.

(** *** After the timeout: at most one more pass *)

Section AfterTimeout.
Context (w : World) (course : string) (max_discussions timeout start_time : Z).
Hypothesis Hmono : clock_monotone w.

Lemma fresh_after_check (tr : trace) (k : nat) :
  wall w (length tr + 1) - start_time <= timeout ->
  (k <= 3)%nat ->
  forall e : nat, wall w e - start_time > timeout -> (length tr + k <= S e)%nat.
Proof.
  intros Hle Hk e He.
  assert (length tr + 1 < e)%nat; [|lia].
  apply Nat.nle_gt. intros Hc. pose proof (Hmono _ _ Hc). lia.
Qed.

Lemma ids_loop_after :
  forall fuel ids tr r tr',
    fresh w timeout start_time tr ->
    ids_loop w course max_discussions timeout start_time fuel ids tr = Some (r, tr') ->
    forall e : nat, wall w e - start_time > timeout ->
      (passes (drop (S e) tr') <= 1)%nat.
Proof.
  induction fuel as [|fuel IH]; intros ids tr r tr' Hfresh Hrun e He; simpl in Hrun.
  - destruct (_ <? _); [done|]. injection Hrun as <- <-.
    rewrite drop_ge by (by apply Hfresh). unfold passes. simpl. lia.
  - destruct (_ <? _); cycle 1.
    { injection Hrun as <- <-. rewrite drop_ge by (by apply Hfresh). unfold passes. simpl. lia. }
    destruct (scan_ids _ _ _) as [ids'|ids'].
    + rewrite length_app in Hrun. simpl in Hrun.
      destruct (Z.gtb_spec (wall w (length tr + 1) - start_time) timeout) as [Hgt|Hle].
      * injection Hrun as <- <-. rewrite <- app_assoc.
        etrans; [apply passes_drop_app_ge; by apply Hfresh|]. done.
      * eapply IH; [|exact Hrun|exact He].
        intros e' He'. unfold time_sleep. rewrite !length_app. simpl.
        pose proof (fresh_after_check tr 3 Hle (le_n _) e' He'). lia.
    + injection Hrun as <- <-.
      etrans; [apply passes_drop_app_ge; by apply Hfresh|]. done.
Qed.

Lemma recording_loop_after :
  forall fuel ids tr r tr',
    fresh w timeout start_time tr ->
    recording_loop w course max_discussions timeout start_time fuel ids tr = Some (r, tr') ->
    forall e : nat, wall w e - start_time > timeout ->
      (passes (drop (S e) tr') <= 1)%nat.
Proof.
  induction fuel as [|fuel IH]; intros ids tr r tr' Hfresh Hrun e He; simpl in Hrun.
  - destruct (_ <? _); [done|]. injection Hrun as <- <-.
    rewrite drop_ge by (by apply Hfresh). unfold passes. simpl. lia.
  - destruct (_ <? _); cycle 1.
    { injection Hrun as <- <-. rewrite drop_ge by (by apply Hfresh). unfold passes. simpl. lia. }
    destruct (scan_recording _ _ _) as [ids'|ids'].
    + rewrite length_app in Hrun. simpl in Hrun.
      destruct (Z.gtb_spec (wall w (length tr + 1) - start_time) timeout) as [Hgt|Hle].
      * injection Hrun as <- <-. rewrite <- app_assoc.
        etrans; [apply passes_drop_app_ge; by apply Hfresh|]. done.
      * eapply IH; [|exact Hrun|exact He].
        intros e' He'. rewrite !length_app. simpl.
        pose proof (fresh_after_check tr 2 Hle ltac:(lia) e' He'). lia.
    + injection Hrun as <- <-.
      etrans; [apply passes_drop_app_ge; by apply Hfresh|]. done.
Qed.
End AfterTimeout.

(** *** The full enumeration: one pass *)

Lemma collect_sizes (w : World) (ds : list Discussion) :
  forall (found_ids : gset string) (discussions : list DiscussionInfo),
    size found_ids = length discussions ->
    size (collect w ds found_ids discussions).1
    = length (collect w ds found_ids discussions).2.
Proof.
  induction ds as [|d rest IH]; intros found_ids discussions Hsz; simpl; [done|].
  case_bool_decide as Hin; [by apply IH|].
  apply IH. rewrite size_union by set_solver.
  rewrite size_singleton, length_app. simpl. lia.
Qed.

Lemma all_loop_one_pass w course timeout start_time fuel :
  all_loop w course timeout start_time (S fuel) ∅ [] [EvClock]
  = Some (first_pass w course, [EvClock; EvList course; EvClock]).
Proof.
  simpl. unfold first_pass.
  pose proof (collect_sizes w (listing w course (passes [EvClock])) ∅ [] eq_refl) as Hsz.
  change (passes [EvClock]) with 0%nat in *.
  destruct (collect _ _ _) as [found_ids discussions]. simpl in *.
  destruct (_ >? _); [done|].
  by rewrite Hsz, Nat.eqb_refl.
Qed.

Lemma get_all_discussion_ids_one_pass w fuel course timeout :
  get_all_discussion_ids w (S fuel) course timeout
  = Some (sort_reverse w (first_pass w course), [EvClock; EvList course; EvClock]).
Proof.
  unfold get_all_discussion_ids, time_time.
  change ([] ++ [EvClock]) with [EvClock].
  by rewrite all_loop_one_pass.
Qed.

(** *** The sort *)












(** *** Transcript retrieval *)

Lemma texts_of_ok (metadatas : list (gmap string value)) (ts : list value) :
  texts_of metadatas = Ok ts <-> (fun item => item !! "text") <$> metadatas = Some <$> ts.
Proof.
  revert ts. induction metadatas as [|item rest IH]; intros ts; simpl.
  - split; [by intros [= <-]|]. by destruct ts.
  - destruct (item !! "text") as [t|] eqn:Ht.
    + destruct (texts_of rest) as [ts'|e] eqn:Hrest; simpl.
      * split.
        -- intros [= <-]. simpl. f_equal. by apply IH.
        -- destruct ts as [|t' ts]; [done|]. simpl. intros [= -> Hts].
           apply IH in Hts. by injection Hts as ->.
      * split; [done|]. destruct ts as [|t' ts]; [done|]. simpl. intros [= -> Hts].
        by apply IH in Hts.
    + split; [done|]. by destruct ts.
Qed.

Lemma handlers_catch (e : exn) :
  (if isinstance e CIndexError then Ok None
   else if isinstance e CException then Ok None
   else Raise e) = Ok (@None DiscussionText).
Proof. by destruct e. Qed.

Lemma get_single_of_body (w : World) (discussion_id : string) :
  match single_text_body w discussion_id with
  | Ok r => get_single_discussion_text w discussion_id = Ok (Some r)
  | Raise _ => get_single_discussion_text w discussion_id = Ok None
  end.
Proof.
  unfold get_single_discussion_text.
  destruct (single_text_body w discussion_id) as [r|e]; [done|apply handlers_catch].
Qed.

(** *** The claims about [hylable_processing.py] *)

(** C1.  The enumeration loop does not keep re-listing.  In
    [growing_world] the first pass finds a new identifier, the clock
    stands at 2 ticks of a timeout of 30, and a second pass would find
    two more identifiers; the loop has stopped after the first pass all
    the same, because [len(found_ids) == len(discussions)] holds after
    every pass. *)
Theorem get_all_discussion_ids_stops_after_first_pass :
  get_all_discussion_ids growing_world 5 "crs" 30
    = Some (Ok [discussion_info growing_world d1], [EvClock; EvList "crs"; EvClock])
  /\ wall growing_world 2 - wall growing_world 0 <= 30
  /\ listing growing_world "crs" 1 = [d1; d2; d3].
Proof.
  split; [rewrite get_all_discussion_ids_one_pass; vm_compute; reflexivity|].
  split; [simpl; lia|reflexivity].
Qed.




(** C4.  [get_single_discussion_text] never raises; it returns [None]
    when fetching the discussion fails, when fetching its segments
    fails, or when a segment has no text; otherwise it returns the
    identifier with the texts of the segments in order. *)
Theorem get_single_discussion_text_none_on_failure (w : World) (discussion_id : string) :
  (exists v, get_single_discussion_text w discussion_id = Ok v)
  /\ (forall e, discussion_of w discussion_id = Raise e ->
        get_single_discussion_text w discussion_id = Ok None)
  /\ (forall d e, discussion_of w discussion_id = Ok d -> asr_of w d = Raise e ->
        get_single_discussion_text w discussion_id = Ok None)
  /\ (forall d segments,
        discussion_of w discussion_id = Ok d -> asr_of w d = Ok segments ->
        Exists (fun item => item !! "text" = None) segments ->
        get_single_discussion_text w discussion_id = Ok None)
  /\ (forall d segments ts,
        discussion_of w discussion_id = Ok d -> asr_of w d = Ok segments ->
        (fun item => item !! "text") <$> segments = Some <$> ts ->
        get_single_discussion_text w discussion_id
        = Ok (Some {| Hylable.discussion_id := discussion_id; texts := ts |})).
Proof.
  pose proof (get_single_of_body w discussion_id) as Hbody.
  unfold single_text_body in Hbody.
  split; [|split; [|split; [|split]]].
  - destruct (_ <-! discussion_of w discussion_id ;; _); eauto.
  - intros e He. by rewrite He in Hbody.
  - intros d e Hd He. rewrite Hd in Hbody. cbn [bind] in Hbody. by rewrite He in Hbody.
  - intros d segments Hd Hsegs Hex.
    rewrite Hd in Hbody. cbn [bind] in Hbody. rewrite Hsegs in Hbody. cbn [bind] in Hbody.
    destruct (texts_of segments) as [ts|e] eqn:Hts; [|done].
    apply texts_of_ok in Hts. exfalso.
    apply Exists_exists in Hex as (item & Hin & Hnone).
    assert (item !! "text" ∈ (fun item => item !! "text") <$> segments) as Hmem
      by (by apply list_elem_of_fmap_2).
    rewrite Hts, Hnone in Hmem. apply list_elem_of_fmap in Hmem as (? & ? & ?). done.
  - intros d segments ts Hd Hsegs Hts.
    rewrite Hd in Hbody. cbn [bind] in Hbody. rewrite Hsegs in Hbody. cbn [bind] in Hbody.
    apply texts_of_ok in Hts. by rewrite Hts in Hbody.
Qed.

Lemma get_single_discussion_text_witness :
  get_single_discussion_text growing_world "dsc_1"
    = Ok (Some {| Hylable.discussion_id := "dsc_1";
                  texts := [VStr "hello"; VStr "world"] |})
  /\ get_single_discussion_text growing_world "dsc_2" = Ok None
  /\ get_single_discussion_text growing_world "dsc_9" = Ok None.
Proof.
  split; [|split].
  - eapply (get_single_discussion_text_none_on_failure growing_world "dsc_1");
      vm_compute; reflexivity.
  - eapply (proj1 (proj2 (proj2 (proj2
             (get_single_discussion_text_none_on_failure growing_world "dsc_2")))));
      [vm_compute; reflexivity|vm_compute; reflexivity|].
    constructor 1. vm_compute. reflexivity.
  - eapply (proj1 (proj2 (get_single_discussion_text_none_on_failure growing_world "dsc_9"))).
    vm_compute. reflexivity.
Defined.

(** C5, as stated, fails for a negative [max_discussions]: the loop
    returns the empty list, whose length 0 is not at most -1. *)
Lemma negative_max_length_exceeds :
  exists ids tr,
    get_discussion_ids growing_world 1 "crs" (-1) 30 = Some (ids, tr)
    /\ ~ (len ids <= -1).
Proof.
  exists [], [EvClock]. split; [vm_compute; reflexivity|].
  unfold len. simpl. lia.
Qed.

(** C5, amended.  Whatever the listings are, the identifiers returned
    by [get_discussion_ids] and [get_recording_discussion_ids] are
    pairwise distinct and their number is at most [max_discussions], or
    0 when [max_discussions] is negative; and the loops do return once
    the (monotone) clock passes the timeout. *)
Theorem polling_returns_distinct_bounded w course max_discussions timeout :
  (forall fuel ids tr,
      get_discussion_ids w fuel course max_discussions timeout = Some (ids, tr) ->
      NoDup ids /\ len ids <= Z.max 0 max_discussions)
  /\ (forall fuel ids tr,
      get_recording_discussion_ids w fuel course max_discussions timeout = Some (ids, tr) ->
      NoDup ids /\ len ids <= Z.max 0 max_discussions)
  /\ (clock_monotone w -> forall e, exceeded w timeout e ->
      is_Some (get_discussion_ids w (S e) course max_discussions timeout)
      /\ is_Some (get_recording_discussion_ids w (S e) course max_discussions timeout)).
Proof.
  assert (ids_ok max_discussions []) as Hnil.
  { split; [constructor|]. unfold len. simpl. lia. }
  split; [|split].
  - intros fuel ids tr Hrun. unfold get_discussion_ids, time_time in Hrun.
    eapply ids_loop_ok; [exact Hnil|exact Hrun].
  - intros fuel ids tr Hrun. unfold get_recording_discussion_ids, time_time in Hrun.
    eapply recording_loop_ok; [exact Hnil|exact Hrun].
  - intros Hmono e He. unfold get_discussion_ids, get_recording_discussion_ids, time_time.
    split.
    + eapply ids_loop_terminates; [done|exact He|lia|simpl; lia].
    + eapply recording_loop_terminates; [done|exact He|lia|simpl; lia].
Qed.

Lemma polling_returns_distinct_bounded_witness :
  (exists tr, get_discussion_ids growing_world 6 "crs" 2 4 = Some (["dsc_1"; "dsc_2"], tr))
  /\ NoDup ["dsc_1"; "dsc_2"] /\ len ["dsc_1"; "dsc_2"] <= Z.max 0 2.
Proof.
  split; [eexists; vm_compute; reflexivity|].
  eapply (proj1 (polling_returns_distinct_bounded growing_world "crs" 2 4) 6%nat).
  vm_compute. reflexivity.
Defined.

(** C8.  With a clock that never runs backwards: once more than
    [timeout] has elapsed at some event [e] of the run, each of the
    three loops returns (fuel [S e] is enough), and the trace it
    returns has at most one listing pass after [e]. *)
Theorem polling_one_more_pass_after_timeout w course max_discussions timeout e :
  clock_monotone w ->
  exceeded w timeout e ->
  (is_Some (get_recording_discussion_ids w (S e) course max_discussions timeout)
   /\ is_Some (get_discussion_ids w (S e) course max_discussions timeout)
   /\ is_Some (get_all_discussion_ids w (S e) course timeout))
  /\ (forall fuel r tr,
        get_recording_discussion_ids w fuel course max_discussions timeout = Some (r, tr) ->
        (passes (drop (S e) tr) <= 1)%nat)
  /\ (forall fuel r tr,
        get_discussion_ids w fuel course max_discussions timeout = Some (r, tr) ->
        (passes (drop (S e) tr) <= 1)%nat)
  /\ (forall fuel r tr,
        get_all_discussion_ids w fuel course timeout = Some (r, tr) ->
        (passes (drop (S e) tr) <= 1)%nat).
Proof.
  intros Hmono He.
  assert (fresh w timeout (wall w 0) [EvClock]) as Hfresh.
  { intros e' _. simpl. lia. }
  split; [split; [|split]|split; [|split]].
  - unfold get_recording_discussion_ids, time_time.
    eapply recording_loop_terminates; [done|exact He|lia|simpl; lia].
  - unfold get_discussion_ids, time_time.
    eapply ids_loop_terminates; [done|exact He|lia|simpl; lia].
  - by rewrite get_all_discussion_ids_one_pass.
  - intros fuel r tr Hrun. unfold get_recording_discussion_ids, time_time in Hrun.
    eapply recording_loop_after; [exact Hmono|exact Hfresh|exact Hrun|exact He].
  - intros fuel r tr Hrun. unfold get_discussion_ids, time_time in Hrun.
    eapply ids_loop_after; [exact Hmono|exact Hfresh|exact Hrun|exact He].
  - intros [|fuel] r tr Hrun; [done|].
    rewrite get_all_discussion_ids_one_pass in Hrun. injection Hrun as <- <-.
    etrans; [apply passes_drop_le|]. done.
Qed.

Lemma polling_one_more_pass_after_timeout_witness :
  clock_monotone growing_world
  /\ exceeded growing_world 2 3
  /\ (exists r tr, get_discussion_ids growing_world 6 "crs" 5 2 = Some (r, tr)
        /\ length tr = 6%nat /\ (passes (drop 4 tr) <= 1)%nat).
Proof.
  assert (clock_monotone growing_world) as Hmono by (intros i j Hij; simpl; lia).
  assert (exceeded growing_world 2 3) as Hexc by (unfold exceeded; simpl; lia).
  split; [exact Hmono|]. split; [exact Hexc|].
  eexists _, _. split; [vm_compute; reflexivity|]. split; [reflexivity|].
  eapply (proj1 (proj2 (proj2
    (polling_one_more_pass_after_timeout growing_world "crs" 5 2 3 Hmono Hexc))) 6%nat).
  vm_compute. reflexivity.
Defined.

(** C10.  With [max_discussions <= 0] both bounded loops return the
    empty list at once: the only event of the run is the reading of the
    start time, and no listing call is made. *)
Theorem nonpositive_max_returns_empty w fuel course max_discussions timeout :
  max_discussions <= 0 ->
  get_discussion_ids w fuel course max_discussions timeout = Some ([], [EvClock])
  /\ get_recording_discussion_ids w fuel course max_discussions timeout
     = Some ([], [EvClock])
  /\ passes [EvClock] = 0%nat.
Proof.
  intros Hmax. unfold get_discussion_ids, get_recording_discussion_ids, time_time.
  change ([] ++ [EvClock]) with [EvClock].
  assert ((len [] <? max_discussions) = false) as Hguard.
  { apply Z.ltb_ge. unfold len. simpl. lia. }
  split; [|split; [|done]].
  - destruct fuel; simpl; by rewrite Hguard.
  - destruct fuel; simpl; by rewrite Hguard.
Qed.

Lemma nonpositive_max_returns_empty_witness :
  0 <= 0
  /\ get_discussion_ids growing_world 0 "crs" 0 30 = Some ([], [EvClock])
  /\ get_recording_discussion_ids growing_world 0 "crs" 0 30 = Some ([], [EvClock])
  /\ passes [EvClock] = 0%nat.
Proof.
  split; [lia|].
  apply (nonpositive_max_returns_empty growing_world 0 "crs" 0 30). lia.
Defined.

End HylableSpec.

(* ===================================================================== *)
(** ** Properties of the board backup *)
(* ===================================================================== *)

Module MiroSpec.
Import Py Json Miro.

(** *** Pagination *)

Section Pagination.
Context (self : MiroBoardBackup) (w : World) (board_id : string).

Lemma items_loop_step (fuel : nat) (items : list json) (cursor : json) (st : State) :
  exists st1,
    length (requests st1) = S (length (requests st))
    /\ files st1 = files st /\ log st1 = log st
    /\ items_loop self w board_id (S fuel) items cursor st
       = match page w (length (requests st)) with
         | Raise e => Some (Raise e, st1)
         | Ok (new_items, cursor') =>
             if negb (truthy cursor') then Some (Ok (items ++ new_items), st1)
             else items_loop self w board_id fuel (items ++ new_items) cursor' st1
         end.
Proof.
  eexists. split; [|split; [|split; [|reflexivity]]]; cbn.
  - rewrite length_app. cbn. lia.
  - reflexivity.
  - reflexivity.
Qed.

(** The loop stops at the first page whose cursor does not count as
    true, with the items of all pages up to that one. *)
Lemma items_loop_stops (k : nat) :
  forall (fuel : nat) (items : list json) (cursor : json) (st : State)
         (last_items : list json) (last_cursor : json),
    continues w (length (requests st)) k ->
    page w (length (requests st) + k) = Ok (last_items, last_cursor) ->
    truthy last_cursor = false ->
    (k < fuel)%nat ->
    exists st',
      items_loop self w board_id fuel items cursor st
      = Some (Ok (items ++ pages_items w (length (requests st)) (S k)), st')
      /\ length (requests st') = (length (requests st) + S k)%nat
      /\ files st' = files st.
Proof.
  induction k as [|k IH]; intros fuel items cursor st last_items last_cursor
    Hcont Hlast Hfalsy Hfuel; (destruct fuel as [|fuel]; [lia|]);
    destruct (items_loop_step fuel items cursor st) as (st1 & Hlen & Hfiles & _ & ->).
  - rewrite Nat.add_0_r in Hlast. cbn [pages_items]. rewrite Hlast, Hfalsy. cbn [negb].
    exists st1. rewrite app_nil_r. repeat split; [lia|done].
  - destruct Hcont as [(new_items & cursor' & Hpage & Htruthy) Hcont].
    cbn [pages_items]. rewrite Hpage, Htruthy. cbn [negb].
    rewrite <- Hlen in Hcont.
    destruct (IH fuel (items ++ new_items) cursor' st1 last_items last_cursor)
      as (st' & Hrun & Hlen' & Hfiles'); [done| |done|lia|].
    { rewrite Hlen.
      by replace (S (length (requests st)) + k)%nat
           with (length (requests st) + S k)%nat by lia. }
    exists st'. rewrite Hrun, Hlen in *. rewrite <- app_assoc.
    repeat split; [lia|congruence].
Qed.

(** When the loop returns a list, it has stopped at such a page. *)
Lemma items_loop_returned (fuel : nat) :
  forall (items : list json) (cursor : json) (st : State) (result : list json) (st' : State),
    items_loop self w board_id fuel items cursor st = Some (Ok result, st') ->
    exists k last_items last_cursor,
      continues w (length (requests st)) k
      /\ page w (length (requests st) + k) = Ok (last_items, last_cursor)
      /\ truthy last_cursor = false
      /\ result = items ++ pages_items w (length (requests st)) (S k)
      /\ length (requests st') = (length (requests st) + S k)%nat.
Proof.
  induction fuel as [|fuel IH]; intros items cursor st result st' Hrun; [done|].
  destruct (items_loop_step fuel items cursor st) as (st1 & Hlen & _ & _ & Hstep).
  rewrite Hstep in Hrun. clear Hstep.
  destruct (page w (length (requests st))) as [[new_items cursor']|e] eqn:Hpage; [|done].
  destruct (truthy cursor') eqn:Htruthy; cbn [negb] in Hrun.
  - apply IH in Hrun as (k & last_items & last_cursor & Hcont & Hlast & Hfalsy & -> & Hlen').
    rewrite Hlen in *.
    exists (S k), last_items, last_cursor. repeat split.
    + by exists new_items, cursor'.
    + done.
    + by replace (length (requests st) + S k)%nat
           with (S (length (requests st)) + k)%nat by lia.
    + done.
    + cbn [pages_items]. rewrite Hpage. by rewrite <- app_assoc.
    + lia.
  - injection Hrun as <- <-. exists 0%nat, new_items, cursor'.
    rewrite Nat.add_0_r. cbn [pages_items continues]. rewrite Hpage, app_nil_r.
    repeat split; [done..|lia].
Qed.

(** A page that cannot be read ends the loop with its exception. *)
Lemma items_loop_raises (k : nat) :
  forall (fuel : nat) (items : list json) (cursor : json) (st : State) (e : exn),
    continues w (length (requests st)) k ->
    page w (length (requests st) + k) = Raise e ->
    (k < fuel)%nat ->
    exists st',
      items_loop self w board_id fuel items cursor st = Some (Raise e, st')
      /\ files st' = files st.
Proof.
  induction k as [|k IH]; intros fuel items cursor st e Hcont Hlast Hfuel;
    (destruct fuel as [|fuel]; [lia|]);
    destruct (items_loop_step fuel items cursor st) as (st1 & Hlen & Hfiles & _ & ->).
  - rewrite Nat.add_0_r in Hlast. rewrite Hlast. by exists st1.
  - destruct Hcont as [(new_items & cursor' & Hpage & Htruthy) Hcont].
    rewrite Hpage, Htruthy. cbn [negb].
    rewrite <- Hlen in Hcont.
    destruct (IH fuel (items ++ new_items) cursor' st1 e) as (st' & Hrun & Hfiles');
      [done| |lia|].
    { rewrite Hlen.
      by replace (S (length (requests st)) + k)%nat
           with (length (requests st) + S k)%nat by lia. }
    exists st'. split; [done|congruence].
Qed.

(** The loop never touches the files. *)
Lemma items_loop_files (fuel : nat) :
  forall (items : list json) (cursor : json) (st : State) r (st' : State),
    items_loop self w board_id fuel items cursor st = Some (r, st') ->
    files st' = files st.
Proof.
  induction fuel as [|fuel IH]; intros items cursor st r st' Hrun; [done|].
  destruct (items_loop_step fuel items cursor st) as (st1 & _ & Hfiles & _ & Hstep).
  rewrite Hstep in Hrun. clear Hstep.
  destruct (page w (length (requests st))) as [[new_items cursor']|e].
  - destruct (negb (truthy cursor')).
    + injection Hrun as <- <-. done.
    + apply IH in Hrun. congruence.
  - injection Hrun as <- <-. done.
Qed.
End Pagination.

(** *** [get_all_items], [get_board] *)

Lemma get_all_items_ok self w fuel board_id st items st' :
  get_all_items self w fuel board_id st = Some (Ok items, st') <->
  items_loop self w board_id fuel [] JNull st = Some (Ok items, st').
Proof.
  unfold get_all_items.
  destruct (items_loop self w board_id fuel [] JNull st) as [[[items0|e] st0]|]; [done| |done].
  by destruct (isinstance e CRequestException).
Qed.

Lemma get_all_items_files self w fuel board_id st r st' :
  get_all_items self w fuel board_id st = Some (r, st') -> files st' = files st.
Proof.
  unfold get_all_items.
  destruct (items_loop self w board_id fuel [] JNull st) as [[[items0|e] st0]|] eqn:Hloop;
    [| |done]; apply items_loop_files in Hloop.
  - by intros [= <- <-].
  - destruct (isinstance e CRequestException); by intros [= <- <-].
Qed.

Lemma get_all_items_raises self w fuel board_id st k e :
  continues w (length (requests st)) k ->
  page w (length (requests st) + k) = Raise e ->
  (k < fuel)%nat ->
  exists st', get_all_items self w fuel board_id st = Some (Raise e, st')
    /\ files st' = files st.
Proof.
  intros Hcont Hpage Hfuel.
  destruct (items_loop_raises self w board_id k fuel [] JNull st e Hcont Hpage Hfuel)
    as (st' & Hrun & Hfiles).
  unfold get_all_items. rewrite Hrun.
  destruct (isinstance e CRequestException); eexists; (split; [reflexivity|done]).
Qed.

(** An HTTP-level failure makes the reply unreadable, as a page and as a
    board. *)
Lemma http_failure_raises (r : reply) :
  is_http_failure r = true ->
  exists e,
    read_page (answer r) = Raise e
    /\ (response <-! answer r ;; _ <-! raise_for_status response ;; response_json response)
       = Raise e.
Proof.
  destruct r as [|status body]; cbn [is_http_failure answer]; intros Hfail.
  - by exists RequestException.
  - exists HTTPError. unfold read_page. cbn [bind]. unfold raise_for_status. cbn [fst].
    by rewrite Hfail.
Qed.

Lemma get_board_files self w board_id st r st' :
  get_board self w board_id st = (r, st') -> files st' = files st.
Proof.
  unfold get_board, requests_get.
  destruct (_ <-! answer _ ;; _) as [v|e]; [by intros [= <- <-]|].
  destruct (isinstance e CRequestException); by intros [= <- <-].
Qed.

Lemma get_board_requests self w board_id st r st' :
  get_board self w board_id st = (r, st') ->
  length (requests st') = S (length (requests st)).
Proof.
  unfold get_board, requests_get.
  destruct (_ <-! answer _ ;; _) as [v|e].
  - intros [= <- <-]. cbn. rewrite length_app. cbn. lia.
  - destruct (isinstance e CRequestException); intros [= <- <-];
      cbn; rewrite length_app; cbn; lia.
Qed.

Lemma get_board_http_failure self w board_id st :
  is_http_failure (replies w (length (requests st))) = true ->
  exists e st', get_board self w board_id st = (Raise e, st').
Proof.
  intros Hfail. apply http_failure_raises in Hfail as (e & _ & Hraise).
  unfold get_board, requests_get. rewrite Hraise.
  destruct (isinstance e CRequestException); by eexists _, _.
Qed.

(** *** [backup_board] *)

(** A board that was fetched is the body of the reply to the request. *)
Lemma get_board_ok_reply self w board_id st board_info st' :
  get_board self w board_id st = (Ok board_info, st') ->
  exists status,
    replies w (length (requests st)) = Reply status (Some board_info)
    /\ is_http_failure (replies w (length (requests st))) = false.
Proof.
  unfold get_board, requests_get.
  destruct (replies w (length (requests st))) as [|status body]; [done|].
  cbn [answer bind is_http_failure]. unfold raise_for_status. cbn [fst].
  destruct ((400 <=? status) && (status <? 600)); [done|]. cbn [bind].
  destruct body as [v|]; cbn [response_json snd isinstance]; [|done].
  intros [= <- _]. by exists status.
Qed.

(** A run of [backup_board] that returns: the board, its name, the
    items, and the file written from them. *)
Lemma backup_board_ok self w fuel board_id output_path st document st' :
  backup_board self w fuel board_id output_path st = Some (Ok document, st') ->
  exists board_info board_name items st1 st2,
    get_board self w board_id (logged BackupStarted st) = (Ok board_info, st1)
    /\ dict_get board_info "name" (JStr "Unknown Board") = Ok board_name
    /\ get_all_items self w fuel board_id (logged BoardFetched st1) = Some (Ok items, st2)
    /\ document = backup_data w board_info items board_name
    /\ can_open w output_path = true
    /\ dump_failure w output_path (dumps 0 document) = None
    /\ files st' = <[ output_path := dumps 0 document ]> (files st)
    /\ last (log st') = Some BackupDone.
Proof.
  unfold backup_board.
  destruct (get_board self w board_id (logged BackupStarted st)) as [[board_info|e] st1]
    eqn:Hboard; [|done].
  destruct (dict_get board_info "name" (JStr "Unknown Board")) as [board_name|e] eqn:Hname;
    [|done].
  destruct (get_all_items self w fuel board_id (logged BoardFetched st1))
    as [[[items|e] st2]|] eqn:Hitems; [|done|done].
  unfold write_json. destruct (can_open w output_path) eqn:Hopen; [|done].
  destruct (dump_failure w output_path _) as [[e n]|] eqn:Hdump; [done|].
  intros [= <- <-]. exists board_info, board_name, items, st1, st2.
  split; [done|]. split; [done|]. split; [done|]. split; [done|]. split; [done|].
  split; [done|].
  apply get_board_files in Hboard. apply get_all_items_files in Hitems.
  cbn [files logged log] in *. split; [by rewrite Hitems, Hboard|apply last_snoc].
Qed.

(** A run of [backup_board] that raises leaves the files as they were,
    unless it raises after the output file was opened: the file then
    holds the part of the text that was written before the failure. *)
Lemma backup_board_raise_files self w fuel board_id output_path st e st' :
  backup_board self w fuel board_id output_path st = Some (Raise e, st') ->
  files st' = files st
  \/ (can_open w output_path = true
      /\ exists board_info board_name items st1 st2 n,
           get_board self w board_id (logged BackupStarted st) = (Ok board_info, st1)
           /\ dict_get board_info "name" (JStr "Unknown Board") = Ok board_name
           /\ get_all_items self w fuel board_id (logged BoardFetched st1)
              = Some (Ok items, st2)
           /\ dump_failure w output_path
                (dumps 0 (backup_data w board_info items board_name)) = Some (e, n)
           /\ files st'
              = <[ output_path
                   := take n (dumps 0 (backup_data w board_info items board_name)) ]>
                  (files st)).
Proof.
  unfold backup_board.
  destruct (get_board self w board_id (logged BackupStarted st)) as [[board_info|e1] st1]
    eqn:Hboard; pose proof (get_board_files _ _ _ _ _ _ Hboard) as Hfb; cbn in Hfb.
  - destruct (dict_get board_info "name" (JStr "Unknown Board")) as [board_name|e2] eqn:Hname.
    + destruct (get_all_items self w fuel board_id (logged BoardFetched st1))
        as [[[items|e3] st2]|] eqn:Hitems; [| |done];
        pose proof (get_all_items_files _ _ _ _ _ _ _ Hitems) as Hfi; cbn in Hfi.
      * unfold write_json. destruct (can_open w output_path) eqn:Hopen.
        -- destruct (dump_failure w output_path _) as [[e4 n]|] eqn:Hdump; [|done].
           intros [= <- <-]. right. split; [done|].
           exists board_info, board_name, items, st1, st2, n.
           split; [done|]. split; [done|]. split; [done|]. split; [done|].
           cbn [files logged]. by rewrite Hfi, Hfb.
        -- intros [= <- <-]. left. cbn. congruence.
      * intros [= <- <-]. left. cbn. congruence.
    + intros [= <- <-]. by left.
  - intros [= <- <-]. by left.
Qed.

(** *** The values of a run are well formed *)

Lemma Forall_forallb {A : Type} (f : A -> bool) (l : list A) :
  Forall (fun x => f x = true) l -> forallb f l = true.
Proof.
  induction 1 as [|x l Hx Hl IH]; [done|]. cbn [forallb]. by rewrite Hx, IH.
Qed.

Section WellFormed.
Context (to_float : text -> pyfloat) (w : World).
Hypothesis Hw : wf_replies to_float w.

Lemma lookup_key_wf (k : string) (members : list (string * json)) (v : json) :
  Forall (fun kv => wf to_float kv.2 = true) members ->
  lookup_key k members = Some v -> wf to_float v = true.
Proof.
  induction 1 as [|[k' v'] members Hx Hall IH]; [done|]. cbn [lookup_key].
  destruct (String.eqb k k'); [by intros [= <-]|exact IH].
Qed.

Lemma dict_get_wf (d : json) (k : string) (default v : json) :
  wf to_float d = true -> wf to_float default = true ->
  dict_get d k default = Ok v -> wf to_float v = true.
Proof.
  intros Hd Hdefault. destruct d as [| | | | | |members]; try done. cbn [dict_get].
  apply JsonSpec.wf_obj in Hd as [_ Hall].
  destruct (lookup_key k members) as [v'|] eqn:Hlookup; intros [= <-]; [|done].
  by eapply lookup_key_wf.
Qed.

Lemma iterate_wf (v : json) (l : list json) :
  wf to_float v = true -> iterate v = Ok l -> Forall (fun x => wf to_float x = true) l.
Proof.
  intros Hv. destruct v as [| | | |s|items|members]; try done; cbn [iterate]; intros [= <-].
  - by apply Forall_map, Forall_true.
  - by apply JsonSpec.wf_arr.
  - by apply Forall_map, Forall_true.
Qed.

Lemma page_wf (n : nat) (new_items : list json) (cursor : json) :
  page w n = Ok (new_items, cursor) -> Forall (fun x => wf to_float x = true) new_items.
Proof.
  unfold page, read_page. destruct (replies w n) as [|status body] eqn:Hreply; [done|].
  cbn [answer bind]. destruct (raise_for_status (status, body)); [|done]. cbn [bind].
  destruct body as [data|]; [|done]. cbn [response_json snd bind].
  pose proof (Hw n status data Hreply) as Hdata.
  destruct (dict_get data "data" (JArr [])) as [pg|] eqn:Hpg; [|done]. cbn [bind].
  apply dict_get_wf in Hpg; [|done..].
  destruct (iterate pg) as [l|] eqn:Hl; [|done]. cbn [bind].
  destruct (dict_get data "cursor" JNull); [|done]. cbn [bind].
  intros [= <- _]. by eapply iterate_wf.
Qed.

Lemma pages_items_wf (k : nat) :
  forall n, Forall (fun x => wf to_float x = true) (pages_items w n k).
Proof.
  induction k as [|k IH]; intros n; [constructor|]. cbn [pages_items].
  apply Forall_app. split; [|apply IH].
  destruct (page w n) as [[new_items cursor]|e] eqn:Hpage; [|constructor].
  by eapply page_wf.
Qed.

Lemma get_board_wf self board_id st board_info st' :
  get_board self w board_id st = (Ok board_info, st') -> wf to_float board_info = true.
Proof.
  intros Hboard. apply get_board_ok_reply in Hboard as (status & Hreply & _).
  by eapply Hw.
Qed.

Lemma backup_data_wf (board_info board_name : json) (items : list json) :
  wf to_float board_info = true -> wf to_float board_name = true ->
  Forall (fun x => wf to_float x = true) items ->
  wf to_float (backup_data w board_info items board_name) = true.
Proof.
  intros Hboard Hname Hitems. apply Forall_forallb in Hitems.
  unfold backup_data. cbn [wf forallb map fst snd].
  rewrite Hboard, Hname, Hitems.
  assert (bool_decide (NoDup ["board"; "items"; "metadata"]) = true) as ->
    by (vm_compute; reflexivity).
  assert (bool_decide (NoDup ["backup_date"; "item_count"; "board_name"]) = true) as ->
    by (vm_compute; reflexivity).
  reflexivity.
Qed.

(** The document of a run that returns is read back from its text. *)
Lemma document_round_trips self fuel board_id output_path st document st' :
  backup_board self w fuel board_id output_path st = Some (Ok document, st') ->
  loads to_float (dumps 0 document) = Some document.
Proof.
  intros Hrun. apply backup_board_ok in Hrun
    as (board_info & board_name & items & st1 & st2
        & Hboard & Hname & Hitems & -> & _).
  apply JsonSpec.loads_dumps.
  pose proof (get_board_wf _ _ _ _ _ Hboard) as Hwf_board.
  apply backup_data_wf.
  - exact Hwf_board.
  - exact (dict_get_wf board_info "name" (JStr "Unknown Board") board_name
             Hwf_board eq_refl Hname).
  - apply get_all_items_ok, items_loop_returned in Hitems
      as (k & _ & _ & _ & _ & _ & -> & _).
    by apply pages_items_wf.
Qed.
End WellFormed.

(** *** The claims about [miro-backup-python.py] *)

(** C2, as stated, fails: the first page of [empty_cursor_world] does
    carry a cursor, the empty string; the loop stops after that page all
    the same, having made one request. *)
Lemma empty_cursor_stops_pagination :
  (exists body,
      replies empty_cursor_world 1 = Reply 200 (Some (JObj body))
      /\ lookup_key "cursor" body = Some (JStr ""))
  /\ exists st',
      get_all_items (init "secret") empty_cursor_world 5 "uXjVK" board_requested
        = Some (Ok [sticky "a"], st')
      /\ length (requests st') = 2%nat.
Proof.
  split.
  - eexists. split; reflexivity.
  - eexists. split; vm_compute; reflexivity.
Qed.

(** C2, amended.  [get_all_items] stops exactly at the first page whose
    cursor is missing or counts as false in Python (null, the empty
    string, zero, [false], an empty list or dict): it stops there when
    every earlier page carried a cursor that counts as true, and whenever
    it returns a list it has stopped at such a page.  The list is the
    concatenation of the items of the pages requested, in request order,
    and one request was made per page. *)
Theorem get_all_items_stops_at_first_falsy_cursor self w fuel board_id st :
  (forall k last_items last_cursor,
      continues w (length (requests st)) k ->
      page w (length (requests st) + k) = Ok (last_items, last_cursor) ->
      truthy last_cursor = false ->
      (k < fuel)%nat ->
      exists st',
        get_all_items self w fuel board_id st
        = Some (Ok (pages_items w (length (requests st)) (S k)), st')
        /\ length (requests st') = (length (requests st) + S k)%nat)
  /\ (forall items st',
      get_all_items self w fuel board_id st = Some (Ok items, st') ->
      exists k last_items last_cursor,
        continues w (length (requests st)) k
        /\ page w (length (requests st) + k) = Ok (last_items, last_cursor)
        /\ truthy last_cursor = false
        /\ items = pages_items w (length (requests st)) (S k)
        /\ length (requests st') = (length (requests st) + S k)%nat).
Proof.
  split.
  - intros k last_items last_cursor Hcont Hlast Hfalsy Hfuel.
    destruct (items_loop_stops self w board_id k fuel [] JNull st last_items last_cursor
                Hcont Hlast Hfalsy Hfuel) as (st' & Hrun & Hlen & _).
    exists st'. split; [|exact Hlen]. by apply get_all_items_ok.
  - intros items st' Hrun. apply get_all_items_ok in Hrun.
    apply items_loop_returned in Hrun
      as (k & last_items & last_cursor & Hcont & Hlast & Hfalsy & Hitems & Hlen).
    by exists k, last_items, last_cursor.
Qed.

Lemma get_all_items_stops_at_first_falsy_cursor_witness :
  exists st',
    get_all_items (init "secret") two_page_world 5 "uXjVK" board_requested
    = Some (Ok [sticky "a"; sticky "b"; sticky "c"], st')
    /\ length (requests st') = 3%nat.
Proof.
  apply (proj1 (get_all_items_stops_at_first_falsy_cursor
                  (init "secret") two_page_world 5 "uXjVK" board_requested)
           1%nat [sticky "c"] JNull).
  - split; [|exact I]. eexists _, _. split; vm_compute; reflexivity.
  - vm_compute. reflexivity.
  - reflexivity.
  - vm_compute. lia.
Defined.

(** C6.  When [backup_board] returns, the file at [output_path] holds a
    text that [json.load] reads back as the document: its ["board"] is
    the board metadata fetched (the body of the reply to the board
    request), its ["items"] the list [get_all_items] returned (the items
    of the pages requested, in order), and the ["item_count"] of its
    ["metadata"] the length of that list.  The bodies the service sent
    are values Python can hold: no dict with a key twice, and every
    float, fractional coordinates included, with the text of its [repr],
    which [float] reads back as the same float. *)
Theorem backup_file_round_trips to_float self w fuel board_id output_path st document st' :
  wf_replies to_float w ->
  backup_board self w fuel board_id output_path st = Some (Ok document, st') ->
  exists text board_info board_name items st1 st2 status k,
    get_board self w board_id (logged BackupStarted st) = (Ok board_info, st1)
    /\ replies w (length (requests st)) = Reply status (Some board_info)
    /\ get_all_items self w fuel board_id (logged BoardFetched st1) = Some (Ok items, st2)
    /\ items = pages_items w (S (length (requests st))) (S k)
    /\ files st' !! output_path = Some text
    /\ document
       = JObj [ ("board", board_info);
                ("items", JArr items);
                ("metadata",
                 JObj [ ("backup_date", JStr (now_isoformat w));
                        ("item_count", JInt (Z.of_nat (length items)));
                        ("board_name", board_name) ]) ]
    /\ loads to_float text = Some document.
Proof.
  intros Hw Hrun.
  pose proof (document_round_trips to_float w Hw _ _ _ _ _ _ _ Hrun) as Hloads.
  apply backup_board_ok in Hrun
    as (board_info & board_name & items & st1 & st2
        & Hboard & Hname & Hitems & Hdoc & _ & _ & Hfiles & _).
  destruct (get_board_ok_reply _ _ _ _ _ _ Hboard) as (status & Hreply & _).
  cbn [requests logged] in Hreply.
  pose proof (get_board_requests _ _ _ _ _ _ Hboard) as Hlen. cbn [requests logged] in Hlen.
  pose proof Hitems as Hpages.
  apply get_all_items_ok, items_loop_returned in Hpages
    as (k & _ & _ & _ & _ & _ & Hpages & _).
  cbn [requests logged app] in Hpages. rewrite Hlen in Hpages.
  exists (dumps 0 document), board_info, board_name, items, st1, st2, status, k.
  split; [exact Hboard|]. split; [exact Hreply|]. split; [exact Hitems|].
  split; [exact Hpages|].
  split; [by rewrite Hfiles, lookup_insert_eq|]. split; [exact Hdoc|exact Hloads].
Qed.

Lemma backup_file_round_trips_witness :
  wf_replies float_of_repr measured_world
  /\ exists document st' text,
       backup_board (init "secret") measured_world 5 "uXjVK" "backup.json" (initial ∅)
         = Some (Ok document, st')
       /\ files st' !! "backup.json" = Some text
       /\ loads float_of_repr text = Some document.
Proof.
  assert (wf_replies float_of_repr measured_world) as Hw.
  { intros [|[|n]] status v [= <- <-]; vm_compute; reflexivity. }
  split; [exact Hw|].
  destruct (backup_board (init "secret") measured_world 5 "uXjVK" "backup.json" (initial ∅))
    as [[[document|e] st']|] eqn:Hrun;
    [|vm_compute in Hrun; discriminate Hrun..].
  destruct (backup_file_round_trips _ _ _ _ _ _ _ _ _ Hw Hrun)
    as (text & _ & _ & _ & _ & _ & _ & _ & _ & _ & _ & _ & Hfile & _ & Hloads).
  by exists document, st', text.
Defined.

(** C7.  An HTTP-level failure (no reply, or an error status) of the
    board request, or of an items request reached by the pagination,
    makes [backup_board] raise, and the files are then what they were
    before the call: no backup file is written.  More generally, a run
    of [backup_board] that raises leaves every file as it was unless it
    raises after the output file was opened, while the document is
    being written; the output file then holds the part of the text that
    was written before the failure, and every other file is unchanged. *)
Theorem http_failure_aborts_backup self w fuel board_id output_path st :
  (is_http_failure (replies w (length (requests st))) = true ->
     exists e st',
       backup_board self w fuel board_id output_path st = Some (Raise e, st')
       /\ files st' = files st)
  /\ (forall k,
        continues w (S (length (requests st))) k ->
        is_http_failure (replies w (S (length (requests st)) + k)) = true ->
        (k < fuel)%nat ->
        exists e st',
          backup_board self w fuel board_id output_path st = Some (Raise e, st')
          /\ files st' = files st)
  /\ (forall e st',
        backup_board self w fuel board_id output_path st = Some (Raise e, st') ->
        files st' = files st
        \/ (can_open w output_path = true
            /\ exists document n,
                 dump_failure w output_path (dumps 0 document) = Some (e, n)
                 /\ files st' = <[ output_path := take n (dumps 0 document) ]> (files st))).
Proof.
  split; [|split].
  - intros Hfail.
    destruct (get_board_http_failure self w board_id (logged BackupStarted st) Hfail)
      as (e & st1 & Hboard).
    unfold backup_board. rewrite Hboard. eexists _, _. split; [reflexivity|].
    apply get_board_files in Hboard. cbn [files logged] in *. exact Hboard.
  - intros k Hcont Hfail Hfuel.
    apply http_failure_raises in Hfail as (e & Hpage & _).
    unfold backup_board.
    destruct (get_board self w board_id (logged BackupStarted st)) as [[board_info|e1] st1]
      eqn:Hboard.
    + pose proof (get_board_files _ _ _ _ _ _ Hboard) as Hfb.
      apply get_board_requests in Hboard. cbn [requests files logged] in Hboard, Hfb.
      destruct (dict_get board_info "name" (JStr "Unknown Board")) as [board_name|e2].
      * destruct (get_all_items_raises self w fuel board_id (logged BoardFetched st1) k e)
          as (st2 & -> & Hfi); [cbn [requests logged]; by rewrite Hboard..|done|].
        eexists _, _. split; [reflexivity|]. cbn [files logged] in *. congruence.
      * eexists _, _. split; [reflexivity|]. exact Hfb.
    + eexists _, _. split; [reflexivity|].
      apply get_board_files in Hboard. cbn [files logged] in *. exact Hboard.
  - intros e st' Hrun.
    apply backup_board_raise_files in Hrun
      as [Hsame|(Hopen & board_info & board_name & items & _ & _ & n & _ & _ & _ & Hdump & Hfiles)];
      [by left|right].
    split; [exact Hopen|]. by eexists _, n.
Qed.

Lemma http_failure_aborts_backup_witness :
  exists e st',
    backup_board (init "secret") failing_world 5 "uXjVK" "backup.json" (initial ∅)
      = Some (Raise e, st')
    /\ files st' = files (initial ∅).
Proof.
  apply (proj1 (proj2 (http_failure_aborts_backup
                         (init "secret") failing_world 5 "uXjVK" "backup.json" (initial ∅)))
           1%nat).
  - split; [|exact I]. eexists _, _. split; vm_compute; reflexivity.
  - reflexivity.
  - vm_compute. lia.
Defined.

(** C9.  When the access token or the board id is unset (absent from
    the environment and from the [.env] file, or empty),
    [load_environment] raises [ValueError] and [main] ends without a
    single HTTP request and without touching a file; when both are set
    and [OUTPUT_PATH] is absent, the output path is the default one. *)
Theorem missing_environment_aborts_before_network w :
  (unset (getenv w "MIRO_ACCESS_TOKEN") = true \/ unset (getenv w "MIRO_BOARD_ID") = true ->
     load_environment w = Raise ValueError
     /\ forall fuel st,
          exists st', main w fuel st = Some st'
            /\ requests st' = requests st /\ files st' = files st)
  /\ (forall access_token board_id,
        getenv w "MIRO_ACCESS_TOKEN" = Some access_token -> access_token <> "" ->
        getenv w "MIRO_BOARD_ID" = Some board_id -> board_id <> "" ->
        getenv w "OUTPUT_PATH" = None ->
        load_environment w = Ok (access_token, board_id, "miro_board_backup.json")).
Proof.
  split.
  - intros Hunset.
    assert (load_environment w = Raise ValueError) as Hload.
    { unfold load_environment.
      destruct (unset (getenv w "MIRO_ACCESS_TOKEN")); [done|].
      destruct Hunset as [Hu|Hu]; [done|]. by rewrite Hu. }
    split; [exact Hload|]. intros fuel st. unfold main. rewrite Hload.
    by eexists.
  - intros access_token board_id Htoken Hne_token Hboard Hne_board Hpath.
    unfold load_environment. rewrite Htoken, Hboard, Hpath. cbn [unset default].
    by rewrite !JsonSpec.string_eqb_ne.
Qed.

Lemma missing_environment_aborts_before_network_witness :
  load_environment no_board_world = Raise ValueError
  /\ (exists st', main no_board_world 5 (initial ∅) = Some st'
        /\ requests st' = [] /\ files st' = ∅)
  /\ load_environment two_page_world = Ok ("secret", "uXjVK", "miro_board_backup.json").
Proof.
  pose proof (proj1 (missing_environment_aborts_before_network no_board_world)) as Hmissing.
  destruct Hmissing as [Hload Hmain]; [right; vm_compute; reflexivity|].
  split; [exact Hload|]. split; [exact (Hmain 5%nat (initial ∅))|].
  apply (proj2 (missing_environment_aborts_before_network two_page_world));
    first [vm_compute; reflexivity | discriminate].
Defined.

End MiroSpec.

(* ===================================================================== *)
(** ** Properties of the rest of hylable_processing.py *)
(* ===================================================================== *)

Module TranscriptsSpec.
Import Py Json Hylable Transcripts.

(** *** [seconds_to_time_format] *)

Lemma of_uint_to_uint (p : positive) : Z.of_uint (Pos.to_uint p) = Z.pos p.
Proof.
  change (Z.of_uint (Pos.to_uint p)) with (Z.of_int (Z.to_int (Z.pos p))).
  apply DecimalZ.of_to.
Qed.

(** The two-character field of a number that is not negative is a run of
    digits that reads as the number. *)
Lemma pad2_nonneg (n : Z) :
  0 <= n -> exists d, pad2 n = uint_text d /\ Z.of_uint d = n.
Proof.
  intros Hn. destruct n as [|p|p]; [|clear Hn|lia].
  - by exists (Decimal.D0 (Decimal.D0 Decimal.Nil)).
  - unfold pad2, int_text. cbn [Z.to_int].
    destruct (length (uint_text (Pos.to_uint p)) <? 2)%nat.
    + exists (Decimal.D0 (Pos.to_uint p)). split; [reflexivity|].
      rewrite <- (of_uint_to_uint p). reflexivity.
    + exists (Pos.to_uint p). split; [reflexivity|apply of_uint_to_uint].
Qed.

Lemma time_format_seconds_fields (h m r : Z) :
  0 <= h -> 0 <= m -> 0 <= r ->
  time_format_seconds (pad2 h ++ "_"%char :: pad2 m ++ "_"%char :: pad2 r)
  = Some (h * 3600 + m * 60 + r).
Proof.
  intros Hh Hm Hr.
  destruct (pad2_nonneg h Hh) as (dh & -> & <-).
  destruct (pad2_nonneg m Hm) as (dm & -> & <-).
  destruct (pad2_nonneg r Hr) as (dr & -> & <-).
  unfold time_format_seconds.
  rewrite JsonSpec.read_digits_uint by reflexivity.
  rewrite JsonSpec.read_digits_uint by reflexivity.
  rewrite <- (app_nil_r (uint_text dr)), JsonSpec.read_digits_uint by exact I.
  reflexivity.
Qed.

Lemma chars_string_of_list_ascii (t : text) : chars (string_of_list_ascii t) = t.
Proof. apply list_ascii_of_string_of_list_ascii. Qed.

(** X1.  For a number of seconds that is not negative, the text of
    [seconds_to_time_format] reads back as that number; so two different
    durations never get the same text. *)
Theorem seconds_to_time_format_reads_back :
  (forall seconds, 0 <= seconds ->
     time_format_seconds (chars (seconds_to_time_format seconds)) = Some seconds)
  /\ (forall a b, 0 <= a -> 0 <= b ->
        seconds_to_time_format a = seconds_to_time_format b -> a = b).
Proof.
  assert (forall seconds, 0 <= seconds ->
            time_format_seconds (chars (seconds_to_time_format seconds)) = Some seconds)
    as Hback.
  { intros seconds Hs. unfold seconds_to_time_format.
    rewrite chars_string_of_list_ascii, time_format_seconds_fields.
    - f_equal. Z.div_mod_to_equations. lia.
    - apply Z.div_pos; lia.
    - apply Z.div_pos; [apply Z.mod_pos_bound|]; lia.
    - apply Z.mod_pos_bound. lia. }
  split; [exact Hback|].
  intros a b Ha Hb Heq. apply Hback in Ha, Hb. rewrite Heq in Ha. congruence.
Qed.

Lemma seconds_to_time_format_reads_back_witness :
  time_format_seconds (chars (seconds_to_time_format 3725)) = Some 3725
  /\ seconds_to_time_format 3725 = "01_02_05".
Proof.
  split; [|vm_compute; reflexivity].
  apply (proj1 seconds_to_time_format_reads_back 3725). lia.
Defined.

Lemma string_length_chars (s : string) : String.length s = length (chars s).
Proof. induction s as [|c s IH]; [reflexivity|]. cbn. by rewrite IH. Qed.

Lemma pad2_length_small (n : Z) : 0 <= n < 100 -> length (pad2 n) = 2%nat.
Proof.
  intros Hn. rewrite <- (Z2Nat.id n) by lia.
  assert (Z.to_nat n < 100)%nat as Hk by lia.
  generalize dependent (Z.to_nat n). clear. intros k Hk.
  do 100 (destruct k as [|k]; [vm_compute; reflexivity|]). lia.
Qed.

(** X2.  Below one hundred hours the text has exactly eight characters,
    [HH_MM_SS], and the minutes and seconds it shows are below 60. *)
Theorem seconds_to_time_format_width (seconds : Z) :
  0 <= seconds < 360000 ->
  String.length (seconds_to_time_format seconds) = 8%nat
  /\ exists h m r,
       chars (seconds_to_time_format seconds) = pad2 h ++ "_"%char :: pad2 m ++ "_"%char :: pad2 r
       /\ 0 <= h < 100 /\ 0 <= m < 60 /\ 0 <= r < 60
       /\ seconds = h * 3600 + m * 60 + r.
Proof.
  intros Hs.
  assert (0 <= seconds / 3600 < 100) as Hh by (split; [apply Z.div_pos|apply Z.div_lt_upper_bound]; lia).
  assert (0 <= seconds mod 3600 / 60 < 60) as Hm.
  { pose proof (Z.mod_pos_bound seconds 3600 ltac:(lia)).
    split; [apply Z.div_pos|apply Z.div_lt_upper_bound]; lia. }
  assert (0 <= seconds mod 60 < 60) as Hr by (apply Z.mod_pos_bound; lia).
  split.
  - rewrite string_length_chars.
    unfold seconds_to_time_format. rewrite chars_string_of_list_ascii.
    rewrite length_app. cbn [length]. rewrite length_app. cbn [length].
    rewrite !pad2_length_small by lia. reflexivity.
  - exists (seconds / 3600), (seconds mod 3600 / 60), (seconds mod 60).
    unfold seconds_to_time_format. rewrite chars_string_of_list_ascii.
    split; [reflexivity|]. repeat split; try lia.
    Z.div_mod_to_equations. lia.
Qed.

Lemma seconds_to_time_format_width_witness :
  String.length (seconds_to_time_format 86399) = 8%nat.
Proof. apply (seconds_to_time_format_width 86399). lia. Defined.

(** *** [get_discussion_texts] *)

Lemma get_discussion_texts_cons (w : World) (i : string) (rest : list string) :
  get_discussion_texts w (i :: rest)
  = (r <-! single_text_body w i ;;
     rs <-! get_discussion_texts w rest ;;
     Ok (r :: rs)).
Proof.
  cbn [get_discussion_texts]. unfold single_text_body.
  destruct (discussion_of w i) as [d|e]; [|done]. cbn [bind].
  destruct (asr_of w d) as [segments|e]; [|done]. cbn [bind].
  by destruct (texts_of segments).
Qed.

Lemma single_text_some (w : World) (i : string) (r : DiscussionText) :
  get_single_discussion_text w i = Ok (Some r) <-> single_text_body w i = Ok r.
Proof.
  pose proof (HylableSpec.get_single_of_body w i) as H.
  destruct (single_text_body w i) as [r'|e]; rewrite H; split; congruence.
Qed.

Lemma single_text_none (w : World) (i : string) :
  get_single_discussion_text w i = Ok None <-> exists e, single_text_body w i = Raise e.
Proof.
  pose proof (HylableSpec.get_single_of_body w i) as H.
  destruct (single_text_body w i) as [r'|e]; rewrite H; split.
  - done.
  - by intros [? ?].
  - by exists e.
  - done.
Qed.

Lemma single_text_body_id (w : World) (i : string) (r : DiscussionText) :
  single_text_body w i = Ok r -> discussion_id r = i.
Proof.
  unfold single_text_body.
  destruct (discussion_of w i) as [d|e]; [|done]. cbn [bind].
  destruct (asr_of w d) as [segments|e]; [|done]. cbn [bind].
  destruct (texts_of segments); [|done]. by intros [= <-].
Qed.

(** X3.  [get_discussion_texts] is all or nothing over
    [get_single_discussion_text]: it returns a list exactly when every
    identifier has a transcript, and the list is then those transcripts,
    one per identifier, in the order of the identifiers; it raises exactly
    when some identifier has none. *)
Theorem get_discussion_texts_all_or_nothing (w : World) (discussion_ids : list string) :
  (forall results,
      get_discussion_texts w discussion_ids = Ok results <->
      Forall2 (fun i r => get_single_discussion_text w i = Ok (Some r))
        discussion_ids results)
  /\ (forall results,
        get_discussion_texts w discussion_ids = Ok results ->
        map discussion_id results = discussion_ids)
  /\ ((exists e, get_discussion_texts w discussion_ids = Raise e) <->
      Exists (fun i => get_single_discussion_text w i = Ok None) discussion_ids).
Proof.
  induction discussion_ids as [|i rest (IHok & IHids & IHraise)].
  - split; [|split].
    + intros results. cbn. split.
      * intros [= <-]. constructor.
      * intros H. by inversion H.
    + by intros results [= <-].
    + split; [by intros [e H]|]. intros H. by inversion H.
  - rewrite get_discussion_texts_cons.
    split; [|split].
    + intros results. split.
      * destruct (single_text_body w i) as [r|e] eqn:Hbody; [|done]. cbn [bind].
        destruct (get_discussion_texts w rest) as [rs|e]; [|done]. cbn [bind].
        intros [= <-]. constructor; [by apply single_text_some|by apply IHok].
      * intros H. inversion H as [|? r ? rs Hr Hrs]; subst.
        apply single_text_some in Hr. apply IHok in Hrs. by rewrite Hr, Hrs.
    + intros results.
      destruct (single_text_body w i) as [r|e] eqn:Hbody; [|done]. cbn [bind].
      destruct (get_discussion_texts w rest) as [rs|e]; [|done]. cbn [bind].
      intros [= <-]. cbn [map]. f_equal; [by apply (single_text_body_id w)|by apply IHids].
    + split.
      * intros [e He].
        destruct (single_text_body w i) as [r|e1] eqn:Hbody.
        -- cbn [bind] in He. constructor 2. apply IHraise.
           destruct (get_discussion_texts w rest) as [rs|e2]; [done|by exists e2].
        -- constructor 1. apply single_text_none. by exists e1.
      * intros H. inversion H as [? ? Hnone|? ? Hrest]; subst.
        -- apply single_text_none in Hnone as [e ->]. by exists e.
        -- apply IHraise in Hrest as [e He].
           destruct (single_text_body w i) as [r|e1]; [|by exists e1].
           cbn [bind]. rewrite He. by exists e.
Qed.

Lemma get_discussion_texts_all_or_nothing_witness :
  get_discussion_texts growing_world ["dsc_1"]
    = Ok [ {| discussion_id := "dsc_1"; texts := [VStr "hello"; VStr "world"] |} ]
  /\ exists e, get_discussion_texts growing_world ["dsc_1"; "dsc_2"] = Raise e.
Proof.
  split.
  - apply (proj1 (get_discussion_texts_all_or_nothing growing_world ["dsc_1"])).
    repeat constructor.
  - apply (proj2 (proj2 (get_discussion_texts_all_or_nothing growing_world ["dsc_1"; "dsc_2"]))).
    constructor 2. constructor 1. vm_compute. reflexivity.
Defined.

(** *** The bounded loops: which identifiers, in which order *)

Lemma add_new_prefix (xs : list string) :
  forall acc, exists more, add_new acc xs = acc ++ more.
Proof.
  induction xs as [|x xs IH]; intros acc; cbn [add_new].
  - exists []. by rewrite app_nil_r.
  - case_bool_decide; [apply IH|].
    destruct (IH (acc ++ [x])) as [more ->]. exists (x :: more). by rewrite <- app_assoc.
Qed.

Lemma add_new_app (xs ys : list string) :
  forall acc, add_new acc (xs ++ ys) = add_new (add_new acc xs) ys.
Proof. induction xs as [|x xs IH]; intros acc; [done|apply IH]. Qed.

Lemma add_new_elem (xs : list string) :
  forall acc i, i ∈ add_new acc xs -> i ∈ acc \/ i ∈ xs.
Proof.
  induction xs as [|x xs IH]; intros acc i Hi; cbn [add_new] in Hi; [by left|].
  apply IH in Hi as [Hi|Hi]; [|right; by constructor].
  case_bool_decide; [by left|].
  apply elem_of_app in Hi as [Hi|Hi]; [by left|].
  apply list_elem_of_singleton in Hi as ->. right. constructor.
Qed.


Lemma take_len (ids more : list string) (max_discussions : Z) :
  len ids = max_discussions -> take (Z.to_nat max_discussions) (ids ++ more) = ids.
Proof.
  intros <-. unfold len. rewrite Nat2Z.id.
  rewrite take_app_le by lia. by rewrite take_ge.
Qed.

Lemma take_short (ids : list string) (max_discussions : Z) :
  len ids < max_discussions -> take (Z.to_nat max_discussions) ids = ids.
Proof. intros Hlt. apply take_ge. unfold len in Hlt. lia. Qed.

(** A pass of [get_discussion_ids] adds the new identifiers in their
    order, and returns as soon as there are enough. *)
Lemma scan_ids_add_new (max_discussions : Z) (ds : list Discussion) :
  forall ids,
    len ids < max_discussions ->
    match scan_ids max_discussions ds ids with
    | Exhausted ids' => ids' = add_new ids (map id ds) /\ len ids' < max_discussions
    | Returned ids' =>
        ids' = take (Z.to_nat max_discussions) (add_new ids (map id ds))
        /\ len ids' = max_discussions
    end.
Proof.
  induction ds as [|d rest IH]; intros ids Hlt; cbn [scan_ids map add_new]; [done|].
  case_bool_decide as Hin; [by apply IH|].
  destruct (Z.geb_spec (len (ids ++ [id d])) max_discussions) as [Hge|Hlt'];
    [|by apply IH].
  assert (len (ids ++ [id d]) = max_discussions) as Hlen
    by (rewrite HylableSpec.len_snoc in *; lia).
  split; [|exact Hlen].
  destruct (add_new_prefix (map id rest) (ids ++ [id d])) as [more ->].
  by rewrite take_len.
Qed.

(** A pass of [get_recording_discussion_ids] is a pass of
    [get_discussion_ids] over the discussions listed as recording. *)
Lemma scan_recording_filter (max_discussions : Z) (ds : list Discussion) :
  forall ids,
    len ids < max_discussions ->
    scan_recording max_discussions ds ids
    = scan_ids max_discussions (List.filter is_recording ds) ids.
Proof.
  induction ds as [|d rest IH]; intros ids Hlt; cbn [scan_recording List.filter]; [done|].
  unfold is_recording at 1. destruct (String.eqb (status d) "recording"); [|by apply IH].
  cbn [scan_ids]. case_bool_decide as Hin.
  - destruct (Z.geb_spec (len ids) max_discussions); [lia|by apply IH].
  - destruct (Z.geb_spec (len (ids ++ [id d])) max_discussions); [done|by apply IH].
Qed.

Lemma passes_snoc_list (tr : trace) (course : string) :
  passes (tr ++ [EvList course]) = S (passes tr).
Proof. rewrite HylableSpec.passes_app. cbn. lia. Qed.

Lemma passes_snoc_other (tr : trace) (e : event) :
  is_list e = false -> passes (tr ++ [e]) = passes tr.
Proof.
  intros He. rewrite HylableSpec.passes_app. unfold passes at 2. cbn. rewrite He. cbn. lia.
Qed.

Lemma ids_loop_order w course max_discussions timeout start_time :
  forall fuel ids tr r tr',
    ids = add_new [] (listed w course (passes tr)) ->
    len ids < max_discussions \/ ids = [] ->
    ids_loop w course max_discussions timeout start_time fuel ids tr = Some (r, tr') ->
    r = take (Z.to_nat max_discussions) (add_new [] (listed w course (passes tr'))).
Proof.
  induction fuel as [|fuel IH]; intros ids tr r tr' Hids Hinv Hrun; cbn [ids_loop] in Hrun;
    destruct (Z.ltb_spec (len ids) max_discussions) as [Hlt|Hge];
    try (injection Hrun as <- <-; destruct Hinv as [?|Hnil]; [lia|];
         rewrite <- Hids, Hnil; by rewrite take_nil);
    [done|].
  unfold get_discussions, time_time in Hrun.
  pose proof (scan_ids_add_new max_discussions (listing w course (passes tr)) ids Hlt) as Hscan.
  assert (add_new [] (listed w course (S (passes tr)))
          = add_new ids (map id (listing w course (passes tr)))) as Hnext
    by (cbn [listed]; by rewrite add_new_app, <- Hids).
  destruct (scan_ids _ _ _) as [ids'|ids'].
  - destruct Hscan as [Hids' Hlt'].
    destruct (_ >? _).
    + injection Hrun as <- <-.
      rewrite passes_snoc_other, passes_snoc_list, Hnext, <- Hids' by done.
      by rewrite take_short.
    + eapply IH; [| |exact Hrun]; [|by left].
      unfold time_sleep.
      by rewrite !passes_snoc_other, passes_snoc_list, Hnext by done.
  - destruct Hscan as [Hids' _]. injection Hrun as <- <-.
    by rewrite passes_snoc_list, Hnext.
Qed.

Lemma recording_loop_order w course max_discussions timeout start_time :
  forall fuel ids tr r tr',
    ids = add_new [] (listed_recording w course (passes tr)) ->
    len ids < max_discussions \/ ids = [] ->
    recording_loop w course max_discussions timeout start_time fuel ids tr = Some (r, tr') ->
    r = take (Z.to_nat max_discussions) (add_new [] (listed_recording w course (passes tr'))).
Proof.
  induction fuel as [|fuel IH]; intros ids tr r tr' Hids Hinv Hrun;
    cbn [recording_loop] in Hrun;
    destruct (Z.ltb_spec (len ids) max_discussions) as [Hlt|Hge];
    try (injection Hrun as <- <-; destruct Hinv as [?|Hnil]; [lia|];
         rewrite <- Hids, Hnil; by rewrite take_nil);
    [done|].
  unfold get_discussions, time_time in Hrun.
  rewrite scan_recording_filter in Hrun by done.
  pose proof (scan_ids_add_new max_discussions
                (List.filter is_recording (listing w course (passes tr))) ids Hlt) as Hscan.
  assert (add_new [] (listed_recording w course (S (passes tr)))
          = add_new ids (map id (List.filter is_recording (listing w course (passes tr)))))
    as Hnext by (cbn [listed_recording]; by rewrite add_new_app, <- Hids).
  destruct (scan_ids _ _ _) as [ids'|ids'].
  - destruct Hscan as [Hids' Hlt'].
    destruct (_ >? _).
    + injection Hrun as <- <-.
      rewrite passes_snoc_other, passes_snoc_list, Hnext, <- Hids' by done.
      by rewrite take_short.
    + eapply IH; [| |exact Hrun]; [|by left].
      by rewrite !passes_snoc_other, passes_snoc_list, Hnext by done.
  - destruct Hscan as [Hids' _]. injection Hrun as <- <-.
    by rewrite passes_snoc_list, Hnext.
Qed.

Lemma get_discussion_ids_order w fuel course max_discussions timeout ids tr :
  get_discussion_ids w fuel course max_discussions timeout = Some (ids, tr) ->
  ids = take (Z.to_nat max_discussions) (add_new [] (listed w course (passes tr))).
Proof.
  unfold get_discussion_ids, time_time. intros Hrun.
  eapply ids_loop_order; [| |exact Hrun]; [reflexivity|by right].
Qed.

Lemma get_recording_discussion_ids_order w fuel course max_discussions timeout ids tr :
  get_recording_discussion_ids w fuel course max_discussions timeout = Some (ids, tr) ->
  ids = take (Z.to_nat max_discussions)
          (add_new [] (listed_recording w course (passes tr))).
Proof.
  unfold get_recording_discussion_ids, time_time. intros Hrun.
  eapply recording_loop_order; [| |exact Hrun]; [reflexivity|by right].
Qed.

(** X4.  [get_discussion_ids] returns the first [max_discussions]
    distinct identifiers of the listings it made, in the order in which
    they were first listed (all of them when there are fewer). *)
Theorem get_discussion_ids_first_listed w fuel course max_discussions timeout ids tr :
  get_discussion_ids w fuel course max_discussions timeout = Some (ids, tr) ->
  ids = take (Z.to_nat max_discussions) (add_new [] (listed w course (passes tr))).
Proof. apply get_discussion_ids_order. Qed.

Lemma get_discussion_ids_first_listed_witness :
  exists tr,
    get_discussion_ids growing_world 6 "crs" 2 4 = Some (["dsc_1"; "dsc_2"], tr)
    /\ ["dsc_1"; "dsc_2"]
       = take (Z.to_nat 2) (add_new [] (listed growing_world "crs" (passes tr))).
Proof.
  eexists. split; [vm_compute; reflexivity|].
  eapply (get_discussion_ids_first_listed growing_world 6 "crs" 2 4).
  vm_compute. reflexivity.
Defined.

(** X5.  [get_recording_discussion_ids] returns the first
    [max_discussions] distinct identifiers among the discussions its
    listings showed with status ["recording"], in the order in which they
    were first listed. *)
Theorem get_recording_discussion_ids_first_listed w fuel course max_discussions timeout ids tr :
  get_recording_discussion_ids w fuel course max_discussions timeout = Some (ids, tr) ->
  ids = take (Z.to_nat max_discussions)
          (add_new [] (listed_recording w course (passes tr))).
Proof. apply get_recording_discussion_ids_order. Qed.

Lemma get_recording_discussion_ids_first_listed_witness :
  exists tr,
    get_recording_discussion_ids growing_world 6 "crs" 2 4 = Some (["dsc_1"; "dsc_3"], tr)
    /\ ["dsc_1"; "dsc_3"]
       = take (Z.to_nat 2) (add_new [] (listed_recording growing_world "crs" (passes tr))).
Proof.
  eexists. split; [vm_compute; reflexivity|].
  eapply (get_recording_discussion_ids_first_listed growing_world 6 "crs" 2 4).
  vm_compute. reflexivity.
Defined.

Lemma listed_elem w course (n : nat) (i : string) :
  i ∈ listed w course n ->
  exists k d, (k < n)%nat /\ d ∈ listing w course k /\ id d = i.
Proof.
  induction n as [|n IH]; cbn [listed]; [by intros ?%elem_of_nil|].
  intros [Hi|Hi]%elem_of_app.
  - destruct (IH Hi) as (k & d & Hk & Hd & Hid). exists k, d. split; [lia|done].
  - apply list_elem_of_fmap in Hi as (d & -> & Hd). exists n, d. split; [lia|done].
Qed.

Lemma listed_recording_elem w course (n : nat) (i : string) :
  i ∈ listed_recording w course n ->
  exists k d, (k < n)%nat /\ d ∈ listing w course k /\ id d = i /\ status d = "recording".
Proof.
  induction n as [|n IH]; cbn [listed_recording]; [by intros ?%elem_of_nil|].
  intros [Hi|Hi]%elem_of_app.
  - destruct (IH Hi) as (k & d & Hk & Hd & Hid). exists k, d. split; [lia|done].
  - apply list_elem_of_fmap in Hi as (d & -> & Hd).
    apply list_elem_of_In, List.filter_In in Hd as [Hd Hrec].
    exists n, d. split; [lia|]. split; [by apply list_elem_of_In|].
    split; [done|]. by apply String.eqb_eq.
Qed.

Lemma take_add_new_elem (k : nat) (xs : list string) (i : string) :
  i ∈ take k (add_new [] xs) -> i ∈ xs.
Proof.
  intros Hi. apply elem_of_take in Hi as (j & Hj & _).
  apply list_elem_of_lookup_2, add_new_elem in Hj as [Hj|Hj]; [by apply elem_of_nil in Hj|done].
Qed.

(** X6.  Every identifier the bounded loops return is the identifier of
    a discussion that one of the listing passes of the run showed; for
    [get_recording_discussion_ids], of one shown with status
    ["recording"]. *)
Theorem polling_returns_only_listed w fuel course max_discussions timeout ids tr i :
  i ∈ ids ->
  (get_discussion_ids w fuel course max_discussions timeout = Some (ids, tr) ->
     exists k d, (k < passes tr)%nat /\ d ∈ listing w course k /\ id d = i)
  /\ (get_recording_discussion_ids w fuel course max_discussions timeout = Some (ids, tr) ->
     exists k d, (k < passes tr)%nat /\ d ∈ listing w course k /\ id d = i
       /\ status d = "recording").
Proof.
  intros Hi. split; intros Hrun.
  - apply get_discussion_ids_order in Hrun. rewrite Hrun in Hi.
    by apply take_add_new_elem, listed_elem in Hi.
  - apply get_recording_discussion_ids_order in Hrun. rewrite Hrun in Hi.
    by apply take_add_new_elem, listed_recording_elem in Hi.
Qed.

Lemma polling_returns_only_listed_witness :
  exists k d, (k < 2)%nat /\ d ∈ listing growing_world "crs" k /\ id d = "dsc_3"
    /\ status d = "recording".
Proof.
  apply (proj2 (polling_returns_only_listed growing_world 6 "crs" 2 4
                  ["dsc_1"; "dsc_3"]
                  [EvClock; EvList "crs"; EvClock; EvList "crs"] "dsc_3"
                  ltac:(set_solver))).
  vm_compute. reflexivity.
Defined.

(** *** The bounded loops: how a run ends, and when it sleeps *)

Section Ends.
Context (w : World) (course : string) (max_discussions timeout start_time : Z).

Lemma ids_loop_end :
  forall fuel ids tr r tr',
    len ids < max_discussions ->
    ids_loop w course max_discussions timeout start_time fuel ids tr = Some (r, tr') ->
    (len r = max_discussions /\ last tr' = Some (EvList course))
    \/ (len r < max_discussions /\ last tr' = Some EvClock
        /\ wall w (length tr' - 1) - start_time > timeout).
Proof.
  induction fuel as [|fuel IH]; intros ids tr r tr' Hlt Hrun; cbn [ids_loop] in Hrun;
    destruct (Z.ltb_spec (len ids) max_discussions); try lia; [done|].
  unfold get_discussions, time_time in Hrun.
  pose proof (scan_ids_add_new max_discussions (listing w course (passes tr)) ids Hlt) as Hscan.
  destruct (scan_ids _ _ _) as [ids'|ids'].
  - destruct Hscan as [_ Hlt'].
    destruct (Z.gtb_spec (wall w (length (tr ++ [EvList course])) - start_time) timeout)
      as [Hgt|Hle].
    + injection Hrun as <- <-. right. split; [done|]. split; [by rewrite last_snoc|].
      rewrite !length_app in *. cbn [length] in *.
      replace (length tr + 1 + 1 - 1)%nat with (length tr + 1)%nat by lia. lia.
    + by eapply IH.
  - destruct Hscan as [_ Hlen]. injection Hrun as <- <-. left.
    split; [done|by rewrite last_snoc].
Qed.

Lemma recording_loop_end :
  forall fuel ids tr r tr',
    len ids < max_discussions ->
    recording_loop w course max_discussions timeout start_time fuel ids tr = Some (r, tr') ->
    (len r = max_discussions /\ last tr' = Some (EvList course))
    \/ (len r < max_discussions /\ last tr' = Some EvClock
        /\ wall w (length tr' - 1) - start_time > timeout).
Proof.
  induction fuel as [|fuel IH]; intros ids tr r tr' Hlt Hrun; cbn [recording_loop] in Hrun;
    destruct (Z.ltb_spec (len ids) max_discussions); try lia; [done|].
  unfold get_discussions, time_time in Hrun.
  rewrite scan_recording_filter in Hrun by done.
  pose proof (scan_ids_add_new max_discussions
                (List.filter is_recording (listing w course (passes tr))) ids Hlt) as Hscan.
  destruct (scan_ids _ _ _) as [ids'|ids'].
  - destruct Hscan as [_ Hlt'].
    destruct (Z.gtb_spec (wall w (length (tr ++ [EvList course])) - start_time) timeout)
      as [Hgt|Hle].
    + injection Hrun as <- <-. right. split; [done|]. split; [by rewrite last_snoc|].
      rewrite !length_app in *. cbn [length] in *.
      replace (length tr + 1 + 1 - 1)%nat with (length tr + 1)%nat by lia. lia.
    + by eapply IH.
  - destruct Hscan as [_ Hlen]. injection Hrun as <- <-. left.
    split; [done|by rewrite last_snoc].
Qed.

Lemma ids_loop_turns :
  forall fuel ids tr r tr',
    len ids < max_discussions ->
    ids_loop w course max_discussions timeout start_time fuel ids tr = Some (r, tr') ->
    exists k tail, tr' = tr ++ turns (turn course) k ++ tail /\ last_turn course tail.
Proof.
  induction fuel as [|fuel IH]; intros ids tr r tr' Hlt Hrun; cbn [ids_loop] in Hrun;
    destruct (Z.ltb_spec (len ids) max_discussions); try lia; [done|].
  unfold get_discussions, time_time, time_sleep in Hrun.
  pose proof (scan_ids_add_new max_discussions (listing w course (passes tr)) ids Hlt) as Hscan.
  destruct (scan_ids _ _ _) as [ids'|ids'].
  - destruct Hscan as [_ Hlt'].
    destruct (_ >? _).
    + injection Hrun as <- <-. exists 0%nat, [EvList course; EvClock].
      split; [by rewrite <- app_assoc|by right].
    + apply IH in Hrun as (k & tail & -> & Htail); [|done].
      exists (S k), tail. split; [|done]. cbn [turns turn]. by rewrite <- !app_assoc.
  - injection Hrun as <- <-. exists 0%nat, [EvList course]. split; [done|by left].
Qed.

Lemma recording_loop_turns :
  forall fuel ids tr r tr',
    len ids < max_discussions ->
    recording_loop w course max_discussions timeout start_time fuel ids tr = Some (r, tr') ->
    exists k tail, tr' = tr ++ turns (turn_recording course) k ++ tail /\ last_turn course tail.
Proof.
  induction fuel as [|fuel IH]; intros ids tr r tr' Hlt Hrun; cbn [recording_loop] in Hrun;
    destruct (Z.ltb_spec (len ids) max_discussions); try lia; [done|].
  unfold get_discussions, time_time in Hrun.
  rewrite scan_recording_filter in Hrun by done.
  pose proof (scan_ids_add_new max_discussions
                (List.filter is_recording (listing w course (passes tr))) ids Hlt) as Hscan.
  destruct (scan_ids _ _ _) as [ids'|ids'].
  - destruct Hscan as [_ Hlt'].
    destruct (_ >? _).
    + injection Hrun as <- <-. exists 0%nat, [EvList course; EvClock].
      split; [by rewrite <- app_assoc|by right].
    + apply IH in Hrun as (k & tail & -> & Htail); [|done].
      exists (S k), tail. split; [|done]. cbn [turns turn_recording].
      by rewrite <- !app_assoc.
  - injection Hrun as <- <-. exists 0%nat, [EvList course]. split; [done|by left].
Qed.

(** With nothing to collect the loops do not start. *)
Lemma loops_not_entered (fuel : nat) (ids : list string) (tr : trace) :
  max_discussions <= len ids ->
  ids_loop w course max_discussions timeout start_time fuel ids tr = Some (ids, tr)
  /\ recording_loop w course max_discussions timeout start_time fuel ids tr = Some (ids, tr).
Proof.
  intros Hle.
  assert ((len ids <? max_discussions) = false) as Hguard by (by apply Z.ltb_ge).
  destruct fuel; cbn [ids_loop recording_loop]; by rewrite Hguard.
Qed.
End Ends.

(** X7.  With a positive [max_discussions], a bounded loop ends in one
    of two ways: with exactly [max_discussions] identifiers, right after
    the listing pass that supplied the last one (no further reading of
    the clock, no sleep); or with fewer, right after a reading of the
    clock that showed more than [timeout] elapsed.  It never returns a
    short list before the timeout. *)
Theorem polling_ends_full_or_timed_out w fuel course max_discussions timeout ids tr :
  0 < max_discussions ->
  get_discussion_ids w fuel course max_discussions timeout = Some (ids, tr)
  \/ get_recording_discussion_ids w fuel course max_discussions timeout = Some (ids, tr) ->
  (len ids = max_discussions /\ last tr = Some (EvList course))
  \/ (len ids < max_discussions /\ last tr = Some EvClock
      /\ wall w (length tr - 1) - wall w 0 > timeout).
Proof.
  intros Hmax [Hrun|Hrun].
  - unfold get_discussion_ids, time_time in Hrun.
    eapply ids_loop_end; [|exact Hrun]. unfold len. simpl. lia.
  - unfold get_recording_discussion_ids, time_time in Hrun.
    eapply recording_loop_end; [|exact Hrun]. unfold len. simpl. lia.
Qed.

Lemma polling_ends_full_or_timed_out_witness :
  exists ids tr,
    get_discussion_ids growing_world 6 "crs" 5 2 = Some (ids, tr)
    /\ len ids < 5 /\ last tr = Some EvClock
    /\ wall growing_world (length tr - 1) - wall growing_world 0 > 2.
Proof.
  destruct (get_discussion_ids growing_world 6 "crs" 5 2) as [[ids tr]|] eqn:Hrun;
    [|vm_compute in Hrun; discriminate Hrun].
  exists ids, tr. split; [reflexivity|].
  destruct (polling_ends_full_or_timed_out growing_world 6 "crs" 5 2 ids tr
              ltac:(lia) (or_introl Hrun)) as [[Hfull _]|Hshort]; [|exact Hshort].
  exfalso. vm_compute in Hrun. injection Hrun as <- <-. vm_compute in Hfull. discriminate Hfull.
Defined.

(** X8.  [get_discussion_ids] sleeps 3 seconds between two listing
    passes and at no other time.  The events of a run are, in order: the
    reading of the start time; then, for every turn of the loop that is
    followed by another, a listing pass, a reading of the clock and a
    sleep of 3 seconds; then the last turn, which is a listing pass
    alone (the list is full) or a listing pass and a reading of the
    clock (the timeout has passed).  So every sleep comes right after a
    reading of the clock that follows a listing pass, and right before
    the next listing pass.  The events of a run of
    [get_recording_discussion_ids] are the same without the sleeps.
    With [max_discussions <= 0] the only event of either run is the
    reading of the start time. *)
Theorem polling_sleeps_between_passes w fuel course max_discussions timeout ids tr :
  (get_discussion_ids w fuel course max_discussions timeout = Some (ids, tr) ->
     (max_discussions <= 0 /\ tr = [EvClock])
     \/ (0 < max_discussions
         /\ exists k tail,
              tr = [EvClock] ++ turns [EvList course; EvClock; EvSleep 3] k ++ tail
              /\ (tail = [EvList course] \/ tail = [EvList course; EvClock])))
  /\ (get_recording_discussion_ids w fuel course max_discussions timeout = Some (ids, tr) ->
     (max_discussions <= 0 /\ tr = [EvClock])
     \/ (0 < max_discussions
         /\ exists k tail,
              tr = [EvClock] ++ turns [EvList course; EvClock] k ++ tail
              /\ (tail = [EvList course] \/ tail = [EvList course; EvClock]))).
Proof.
  split; intros Hrun; (destruct (Z.le_gt_cases max_discussions 0) as [Hle|Hgt]; [left|right]).
  - split; [done|].
    destruct (loops_not_entered w course max_discussions timeout (wall w 0%nat) fuel []
                [EvClock] Hle) as [Hloop _].
    change (ids_loop w course max_discussions timeout (wall w 0%nat) fuel [] [EvClock]
            = Some (ids, tr)) in Hrun.
    rewrite Hloop in Hrun. by injection Hrun as _ <-.
  - split; [lia|].
    change (ids_loop w course max_discussions timeout (wall w 0%nat) fuel [] [EvClock]
            = Some (ids, tr)) in Hrun.
    by apply ids_loop_turns in Hrun.
  - split; [done|].
    destruct (loops_not_entered w course max_discussions timeout (wall w 0%nat) fuel []
                [EvClock] Hle) as [_ Hloop].
    change (recording_loop w course max_discussions timeout (wall w 0%nat) fuel [] [EvClock]
            = Some (ids, tr)) in Hrun.
    rewrite Hloop in Hrun. by injection Hrun as _ <-.
  - split; [lia|].
    change (recording_loop w course max_discussions timeout (wall w 0%nat) fuel [] [EvClock]
            = Some (ids, tr)) in Hrun.
    by apply recording_loop_turns in Hrun.
Qed.

Lemma polling_sleeps_between_passes_witness :
  get_discussion_ids growing_world 6 "crs" 5 2
    = Some (["dsc_1"; "dsc_2"; "dsc_3"],
            [EvClock; EvList "crs"; EvClock; EvSleep 3; EvList "crs"; EvClock])
  /\ exists k tail,
       [EvClock; EvList "crs"; EvClock; EvSleep 3; EvList "crs"; EvClock]
       = [EvClock] ++ turns [EvList "crs"; EvClock; EvSleep 3] k ++ tail
       /\ (tail = [EvList "crs"] \/ tail = [EvList "crs"; EvClock]).
Proof.
  assert (get_discussion_ids growing_world 6 "crs" 5 2
          = Some (["dsc_1"; "dsc_2"; "dsc_3"],
                  [EvClock; EvList "crs"; EvClock; EvSleep 3; EvList "crs"; EvClock]))
    as Hrun by (vm_compute; reflexivity).
  split; [exact Hrun|].
  destruct (proj1 (polling_sleeps_between_passes growing_world 6 "crs" 5 2 _ _) Hrun)
    as [[Hmax _]|[_ Hshape]]; [lia|exact Hshape].
Defined.

(** *** [get_all_discussion_ids]: which records *)




(** *** The script *)

Lemma transcript_block_nonempty (ts : list string) : transcript_block ts <> [].
Proof. unfold transcript_block. by destruct (join [newline] (map chars ts)). Qed.

Lemma match_nonempty {A B : Type} (l : list A) (a b : B) :
  l <> [] -> match l with [] => a | _ :: _ => b end = b.
Proof. by destruct l. Qed.

Lemma filename_cases (s : Script) (discussion : DiscussionInfo) :
  (exists name, filename s discussion = Ok name
     /\ is_jst (i_zone discussion) = true
     /\ exists n, i_duration_sec discussion = VInt n)
  \/ (filename s discussion = Raise ValueError /\ is_jst (i_zone discussion) = false)
  \/ (filename s discussion = Raise ValueError /\ is_jst (i_zone discussion) = true
      /\ i_duration_sec discussion = VFloat)
  \/ (filename s discussion = Raise TypeError /\ is_jst (i_zone discussion) = true
      /\ (forall n, i_duration_sec discussion <> VInt n)
      /\ i_duration_sec discussion <> VFloat).
Proof.
  unfold filename, formatted_date, duration_part.
  destruct (is_jst (i_zone discussion)); [|right; left; by split].
  cbn [bind]. destruct (i_duration_sec discussion) as [|n| |t|] eqn:Hd; cbn [bind].
  - right. right. right. by repeat split.
  - left. eexists. split; [reflexivity|]. split; [done|by exists n].
  - right. right. left. by repeat split.
  - right. right. right. by repeat split.
  - right. right. right. by repeat split.
Qed.

(** What a turn of the loop does, case by case. *)
Lemma process_one_cases (s : Script) (course_id : string) (discussion : DiscussionInfo)
    (fs : gmap string text) :
  (* nothing to write *)
  (process_one s course_id discussion fs = (fs, None)
   /\ (forall found,
         get_single_discussion_text (service s) (i_id discussion) = Ok (Some found) ->
         texts found = [])
   /\ forall p, block_for s course_id p discussion = [])
  (* a block is appended *)
  \/ (exists found name ts,
        get_single_discussion_text (service s) (i_id discussion) = Ok (Some found)
        /\ texts found <> []
        /\ writes_cleanly s course_id discussion found
        /\ filename s discussion = Ok name
        /\ strings_of (texts found) = Some ts
        /\ process_one s course_id discussion fs
           = (<[ output_path course_id name
                 := default [] (fs !! output_path course_id name) ++ transcript_block ts ]> fs,
              None)
        /\ forall p, block_for s course_id p discussion
             = if bool_decide (output_path course_id name = p)
               then transcript_block ts else [])
  (* the turn raises *)
  \/ (exists found fs' e,
        get_single_discussion_text (service s) (i_id discussion) = Ok (Some found)
        /\ texts found <> []
        /\ write_failure s course_id discussion found e
        /\ ~ writes_cleanly s course_id discussion found
        /\ process_one s course_id discussion fs = (fs', Some e)).
Proof.
  unfold process_one, block_for.
  destruct (get_single_discussion_text (service s) (i_id discussion)) as [[found|]|e] eqn:Hget;
    cycle 1.
  { left. by repeat split. }
  { pose proof (HylableSpec.get_single_of_body (service s) (i_id discussion)) as H.
    rewrite Hget in H. by destruct (single_text_body (service s) (i_id discussion)). }
  destruct (decide (texts found = [])) as [Hnil|Hne].
  { left. rewrite Hnil. split; [done|]. split; [by intros ? [= <-]|].
    intros p. destruct (filename s discussion); [|done]. cbn [strings_of length Nat.eqb negb].
    by rewrite andb_false_r. }
  right. rewrite (match_nonempty (texts found)) by done.
  assert (negb (Nat.eqb (length (texts found)) 0) = true) as Hlen
    by (by destruct (texts found)).
  destruct (filename_cases s discussion)
    as [(name & Hname & Hjst & n & Hn)|[[Hname Hjst]|[(Hname & Hjst & Hd)|(Hname & Hjst & Hd & Hd')]]];
    rewrite Hname.
  2:{ right. exists found, fs, ValueError.
      split; [done|]. split; [done|]. split; [by apply zone_not_jst|]. split; [|done].
      intros (name & ? & ? & _). congruence. }
  2:{ right. exists found, fs, ValueError.
      split; [done|]. split; [done|]. split; [by apply duration_float|]. split; [|done].
      intros (name & ? & ? & _). congruence. }
  2:{ right. exists found, fs, TypeError.
      split; [done|]. split; [done|]. split; [by apply duration_not_number|]. split; [|done].
      intros (name & ? & ? & _). congruence. }
  unfold append_file.
  destruct (can_append s (output_path course_id name)) eqn:Hopen; cycle 1.
  { right. exists found, fs, OSError.
    split; [done|]. split; [done|]. split; [by apply (cannot_open _ _ _ _ name)|].
    split; [|done]. intros (name' & ? & Hname' & Hopen' & _). congruence. }
  destruct (strings_of (texts found)) as [ts|] eqn:Hts; cycle 1.
  { right. eexists found, _, TypeError.
    split; [done|]. split; [done|]. split; [by apply (text_not_str _ _ _ _ name)|].
    split; [|done]. intros (name' & ? & _ & _ & ? & _). congruence. }
  destruct (has_surrogate (transcript_block ts)) eqn:Hsur.
  { right. eexists found, _, UnicodeEncodeError.
    split; [done|]. split; [done|].
    split; [by apply (text_not_encodable _ _ _ _ name ts)|].
    split; [|done]. intros (name' & ts' & _ & _ & Hts' & Hsur' & _). congruence. }
  destruct (write_stops s (output_path course_id name) (transcript_block ts)) as [k|] eqn:Hstop.
  { right. eexists found, _, OSError.
    split; [done|]. split; [done|].
    split; [by apply (write_failed _ _ _ _ name ts k)|].
    split; [|done]. intros (name' & ts' & Hname' & _ & Hts' & _ & Hstop'). congruence. }
  left. exists found, name, ts. split; [done|]. split; [done|].
  split; [by exists name, ts|]. split; [done|]. split; [done|]. split; [done|].
  intros p. by rewrite Hlen, andb_true_r.
Qed.

Lemma blocks_for_cons (s : Script) (course_id p : string) (d : DiscussionInfo)
    (rest : list DiscussionInfo) :
  blocks_for s course_id p (d :: rest)
  = block_for s course_id p d ++ blocks_for s course_id p rest.
Proof. reflexivity. Qed.



(** X11.  The script only appends.  After a run of the loop that was not
    interrupted, a file to which no transcript was written is what it
    was, and any other file holds what it held before followed by the
    blocks of the transcripts written to it, in the order of the
    discussions; each block is the texts joined by line breaks, with a
    line break at the end. *)
Theorem script_loop_appends (s : Script) (course_id : string)
    (all_discussions : list DiscussionInfo) :
  forall (fs fs' : gmap string text),
    process_all s course_id all_discussions fs = (fs', None) ->
    forall p,
      fs' !! p
      = match blocks_for s course_id p all_discussions with
        | [] => fs !! p
        | blocks => Some (default [] (fs !! p) ++ blocks)
        end.
Proof.
  induction all_discussions as [|d rest IH]; intros fs fs' Hrun p.
  - by injection Hrun as <-.
  - cbn [process_all] in Hrun. rewrite blocks_for_cons.
    destruct (process_one_cases s course_id d fs)
      as [(Hone & _ & Hblock)|[(found & name & ts & _ & _ & _ & _ & _ & Hone & Hblock)
                              |(found & fs1 & e1 & _ & _ & _ & _ & Hone)]];
      rewrite Hone in Hrun; [| |done]; rewrite Hblock.
    + by rewrite (IH _ _ Hrun p).
    + rewrite (IH _ _ Hrun p). case_bool_decide as Hp.
      * subst p. rewrite lookup_insert_eq.
        pose proof (transcript_block_nonempty ts) as Hne.
        destruct (transcript_block ts) as [|c block]; [done|]. cbn [app default].
        destruct (blocks_for s course_id _ rest); [by rewrite app_nil_r|].
        unfold Datatypes.id. by rewrite <- app_assoc.
      * by rewrite lookup_insert_ne.
Qed.

Lemma script_loop_appends_witness :
  (process_all sample_script "crs"
     [discussion_info growing_world d1; discussion_info growing_world d2;
      discussion_info growing_world d1]
     {[ sample_path := chars "old" ]}).2 = None
  /\ (process_all sample_script "crs"
        [discussion_info growing_world d1; discussion_info growing_world d2;
         discussion_info growing_world d1]
        {[ sample_path := chars "old" ]}).1 !! sample_path
     = Some (chars "old" ++ transcript_block ["hello"; "world"]
               ++ transcript_block ["hello"; "world"]).
Proof.
  set (run := process_all sample_script "crs"
                [discussion_info growing_world d1; discussion_info growing_world d2;
                 discussion_info growing_world d1]
                {[ sample_path := chars "old" ]}).
  assert (run.2 = None) as Hdone by (vm_compute; reflexivity).
  split; [exact Hdone|].
  assert (run = (run.1, None)) as Hrun by (rewrite <- Hdone; apply surjective_pairing).
  rewrite (script_loop_appends _ _ _ _ _ Hrun). vm_compute. reflexivity.
Defined.



End TranscriptsSpec.


(* ===================================================================== *)
(** ** Further properties of the board backup *)
(* ===================================================================== *)

Module BackupRunsSpec.
Import Py Json Miro BackupRuns.

(** *** The requests of a run *)

Lemma items_loop_unfold self w board_id (fuel : nat) (items : list json) (cursor : json)
    (st : State) :
  items_loop self w board_id (S fuel) items cursor st
  = let st1 := {| requests := requests st ++ [items_request self board_id cursor];
                  files := files st; log := log st |} in
    match page w (length (requests st)) with
    | Raise e => Some (Raise e, st1)
    | Ok (new_items, cursor') =>
        if negb (truthy cursor') then Some (Ok (items ++ new_items), st1)
        else items_loop self w board_id fuel (items ++ new_items) cursor' st1
    end.
Proof. reflexivity. Qed.

(** The requests of a pagination that returns: the first on the cursor
    the loop starts with, each next one on the cursor of the page before. *)
Lemma items_loop_requests self w board_id (k : nat) :
  forall (fuel : nat) (items : list json) (cursor : json) (st : State)
         (last_items : list json) (last_cursor : json),
    continues w (length (requests st)) k ->
    page w (length (requests st) + k) = Ok (last_items, last_cursor) ->
    truthy last_cursor = false ->
    (k < fuel)%nat ->
    exists r st',
      items_loop self w board_id fuel items cursor st = Some (Ok r, st')
      /\ requests st'
         = requests st
             ++ map (items_request self board_id)
                  (cursor :: page_cursors w (length (requests st)) k).
Proof.
  induction k as [|k IH]; intros fuel items cursor st last_items last_cursor
    Hcont Hlast Hfalsy Hfuel; (destruct fuel as [|fuel]; [lia|]);
    rewrite items_loop_unfold; cbv zeta.
  - rewrite Nat.add_0_r in Hlast. rewrite Hlast, Hfalsy. cbn [negb]. by eexists _, _.
  - destruct Hcont as [(new_items & cursor' & Hpage & Htruthy) Hcont].
    rewrite Hpage, Htruthy. cbn [negb page_cursors]. rewrite Hpage.
    set (st1 := {| requests := requests st ++ [items_request self board_id cursor];
                   files := files st; log := log st |}).
    assert (length (requests st1) = S (length (requests st))) as Hlen
      by (cbn; rewrite length_app; cbn; lia).
    destruct (IH fuel (items ++ new_items) cursor' st1 last_items last_cursor)
      as (r & st' & Hrun & Hreq); [by rewrite Hlen| |done|lia|].
    { rewrite Hlen.
      by replace (S (length (requests st)) + k)%nat
           with (length (requests st) + S k)%nat by lia. }
    exists r, st'. split; [exact Hrun|].
    rewrite Hreq, Hlen. cbn [requests st1 map]. by rewrite <- app_assoc.
Qed.

(** X13.  The pagination forwards the cursors: in a run of
    [get_all_items] that returns, the first request carries no cursor and
    every later request carries, as its [cursor] parameter, the cursor of
    the page before; all go to the items address of the board with the
    bearer token of the object. *)
Theorem get_all_items_forwards_cursors self w fuel board_id st k last_items last_cursor :
  continues w (length (requests st)) k ->
  page w (length (requests st) + k) = Ok (last_items, last_cursor) ->
  truthy last_cursor = false ->
  (k < fuel)%nat ->
  exists items st',
    get_all_items self w fuel board_id st = Some (Ok items, st')
    /\ requests st'
       = requests st
           ++ map (items_request self board_id)
                (JNull :: page_cursors w (length (requests st)) k)
    /\ params (items_request self board_id JNull) = [].
Proof.
  intros Hcont Hlast Hfalsy Hfuel.
  destruct (items_loop_requests self w board_id k fuel [] JNull st last_items last_cursor
              Hcont Hlast Hfalsy Hfuel) as (r & st' & Hrun & Hreq).
  exists r, st'. split; [by apply MiroSpec.get_all_items_ok|]. by split.
Qed.

Lemma get_all_items_forwards_cursors_witness :
  exists items st',
    get_all_items (init "secret") two_page_world 5 "uXjVK" board_requested
      = Some (Ok items, st')
    /\ requests st'
       = requests board_requested
           ++ [ items_request (init "secret") "uXjVK" JNull;
                items_request (init "secret") "uXjVK" (JStr "p2") ].
Proof.
  destruct (get_all_items_forwards_cursors (init "secret") two_page_world 5 "uXjVK"
              board_requested 1 [sticky "c"] JNull) as (items & st' & Hrun & Hreq & _).
  - split; [|exact I]. eexists _, _. split; vm_compute; reflexivity.
  - vm_compute. reflexivity.
  - reflexivity.
  - lia.
  - exists items, st'. split; [exact Hrun|exact Hreq].
Defined.

Lemma items_loop_endless self w board_id (fuel : nat) :
  forall (items : list json) (cursor : json) (st : State),
    continues w (length (requests st)) fuel ->
    items_loop self w board_id fuel items cursor st = None.
Proof.
  induction fuel as [|fuel IH]; intros items cursor st Hcont; [done|].
  rewrite items_loop_unfold. cbv zeta.
  destruct Hcont as [(new_items & cursor' & -> & ->) Hcont]. cbn [negb].
  apply IH. cbn [requests]. rewrite length_app. cbn [length].
  by replace (length (requests st) + 1)%nat with (S (length (requests st))) by lia.
Qed.

(** X14.  The pagination has no page limit of its own: against a service
    whose every page carries a cursor that counts as true,
    [get_all_items] never returns, whatever the number of turns it is
    given. *)
Theorem get_all_items_needs_a_last_page self w board_id st :
  (forall k, continues w (length (requests st)) k) ->
  forall fuel, get_all_items self w fuel board_id st = None.
Proof.
  intros Hcont fuel. unfold get_all_items. by rewrite items_loop_endless.
Qed.

Lemma get_all_items_needs_a_last_page_witness :
  get_all_items (init "secret") endless_world 7 "uXjVK" board_requested = None.
Proof.
  apply (get_all_items_needs_a_last_page (init "secret") endless_world "uXjVK" board_requested).
  intros k. generalize (length (requests board_requested)).
  induction k as [|k IH]; intros n; [exact I|].
  split; [|apply IH]. eexists _, _. split; reflexivity.
Defined.

Lemma items_loop_requests_shape self w board_id (fuel : nat) :
  forall (items : list json) (cursor : json) (st : State) r (st' : State),
    items_loop self w board_id fuel items cursor st = Some (r, st') ->
    exists cursors,
      requests st' = requests st ++ map (items_request self board_id) cursors.
Proof.
  induction fuel as [|fuel IH]; intros items cursor st r st' Hrun; [done|].
  rewrite items_loop_unfold in Hrun. cbv zeta in Hrun.
  destruct (page w (length (requests st))) as [[new_items cursor']|e].
  - destruct (negb (truthy cursor')).
    + injection Hrun as <- <-. by exists [cursor].
    + apply IH in Hrun as [cursors ->]. exists (cursor :: cursors).
      cbn [requests map]. by rewrite <- app_assoc.
  - injection Hrun as <- <-. by exists [cursor].
Qed.

Lemma get_all_items_requests_shape self w fuel board_id st r st' :
  get_all_items self w fuel board_id st = Some (r, st') ->
  exists cursors, requests st' = requests st ++ map (items_request self board_id) cursors.
Proof.
  unfold get_all_items.
  destruct (items_loop self w board_id fuel [] JNull st) as [[[items|e] st0]|] eqn:Hloop;
    [| |done]; apply items_loop_requests_shape in Hloop.
  - by intros [= <- <-].
  - destruct (isinstance e CRequestException); by intros [= <- <-].
Qed.

(** What [get_board] does, reply by reply. *)
Lemma get_board_cases self w board_id st :
  exists r st',
    get_board self w board_id st = (r, st')
    /\ requests st' = requests st ++ [board_request self board_id]
    /\ files st' = files st
    /\ match replies w (length (requests st)) with
       | NoReply => r = Raise RequestException /\ log st' = log st ++ [BoardFailed]
       | Reply status body =>
           if status_ok status then
             match body with
             | Some v => r = Ok v /\ log st' = log st
             | None => r = Raise JSONDecodeError /\ log st' = log st ++ [BoardFailed]
             end
           else r = Raise HTTPError /\ log st' = log st ++ [BoardFailed]
       end.
Proof.
  unfold get_board, requests_get, status_ok, raise_for_status.
  destruct (replies w (length (requests st))) as [|status [v|]]; cbn [answer bind fst];
    try destruct ((400 <=? status) && (status <? 600)); cbn [negb bind];
    eexists _, _; (split; [reflexivity|]); cbn; done.
Qed.

(** X15.  [get_board] makes exactly one request, to the address of the
    board with the bearer token, and touches no file.  It returns the
    body exactly when the reply has a JSON body and a status outside
    400..599, and then logs nothing; otherwise it logs the failure and
    raises: [HTTPError] for a status in 400..599, [JSONDecodeError] for a
    body that is not JSON, the exception of [requests.get] when there is
    no reply. *)
Theorem get_board_outcome self w board_id st :
  exists r st',
    get_board self w board_id st = (r, st')
    /\ requests st' = requests st ++ [board_request self board_id]
    /\ files st' = files st
    /\ match replies w (length (requests st)) with
       | NoReply => r = Raise RequestException /\ log st' = log st ++ [BoardFailed]
       | Reply status body =>
           if status_ok status then
             match body with
             | Some v => r = Ok v /\ log st' = log st
             | None => r = Raise JSONDecodeError /\ log st' = log st ++ [BoardFailed]
             end
           else r = Raise HTTPError /\ log st' = log st ++ [BoardFailed]
       end.
Proof. apply get_board_cases. Qed.

Lemma backup_board_requests self w fuel board_id output_path st r st' :
  backup_board self w fuel board_id output_path st = Some (r, st') ->
  exists cursors,
    requests st'
    = requests st ++ board_request self board_id :: map (items_request self board_id) cursors.
Proof.
  unfold backup_board.
  destruct (get_board_cases self w board_id (logged BackupStarted st))
    as (rb & st1 & -> & Hreq1 & _ & _). cbn [requests logged] in Hreq1.
  destruct rb as [board_info|e]; [|intros [= <- <-]; exists []; by cbn].
  destruct (dict_get board_info "name" (JStr "Unknown Board")) as [board_name|e];
    [|intros [= <- <-]; exists []; by cbn].
  destruct (get_all_items self w fuel board_id (logged BoardFetched st1))
    as [[[items|e] st2]|] eqn:Hitems; [| |done];
    apply get_all_items_requests_shape in Hitems as [cursors Hreq2];
    cbn [requests logged] in Hreq2.
  - unfold write_json.
    destruct (can_open w output_path); [destruct (dump_failure w output_path _) as [[e n]|]|];
      intros [= <- <-];
      exists cursors; cbn [requests logged]; rewrite Hreq2, Hreq1; by rewrite <- app_assoc.
  - intros [= <- <-]. exists cursors. cbn [requests logged].
    rewrite Hreq2, Hreq1. by rewrite <- app_assoc.
Qed.

(** X16.  Whatever the outcome, the requests of a run of [backup_board]
    are exactly these, in order: one request for the board, without
    parameters; then requests for its items, one per cursor of a list of
    cursors, each with that cursor as its [cursor] parameter when it
    counts as true and without parameters otherwise.  No other address
    is asked, the board is asked once, and every request carries the
    bearer token given when the object was built. *)
Theorem backup_board_asks_only_its_board access_token w fuel board_id output_path st r st' :
  backup_board (init access_token) w fuel board_id output_path st = Some (r, st') ->
  exists cursors,
    requests st'
    = requests st
        ++ {| url := "https://api.miro.com/v2/boards/" +:+ board_id;
              authorization := "Bearer " +:+ access_token;
              params := [] |}
        :: map (fun cursor =>
                  {| url := "https://api.miro.com/v2/boards/" +:+ board_id +:+ "/items";
                     authorization := "Bearer " +:+ access_token;
                     params := if truthy cursor then [("cursor", cursor)] else [] |})
             cursors.
Proof.
  intros Hrun. apply backup_board_requests in Hrun as [cursors ->]. by exists cursors.
Qed.

Lemma backup_board_asks_only_its_board_witness :
  exists st',
    backup_board (init "secret") failing_world 5 "uXjVK" "backup.json" (initial ∅)
      = Some (Raise HTTPError, st')
    /\ requests st'
       = [ {| url := "https://api.miro.com/v2/boards/uXjVK";
              authorization := "Bearer secret"; params := [] |};
           {| url := "https://api.miro.com/v2/boards/uXjVK/items";
              authorization := "Bearer secret"; params := [] |};
           {| url := "https://api.miro.com/v2/boards/uXjVK/items";
              authorization := "Bearer secret"; params := [("cursor", JStr "p2")] |} ].
Proof.
  destruct (backup_board (init "secret") failing_world 5 "uXjVK" "backup.json" (initial ∅))
    as [[[document|e] st']|] eqn:Hrun;
    [vm_compute in Hrun; discriminate Hrun| |vm_compute in Hrun; discriminate Hrun].
  assert (e = HTTPError) as -> by (vm_compute in Hrun; by injection Hrun as <- _).
  destruct (backup_board_asks_only_its_board _ _ _ _ _ _ _ _ Hrun) as (cursors & Hreq).
  exists st'. split; [reflexivity|].
  vm_compute in Hrun. injection Hrun as <-. reflexivity.
Defined.

(** *** The files of a run *)

(** X17.  [backup_board] writes to no path but [output_path]: every
    other file is after the call what it was before, whatever the
    outcome.  When the call returns, what [output_path] held before is
    gone: the file is exactly the text of the document. *)
Theorem backup_board_writes_only_output_path self w fuel board_id output_path st r st' :
  backup_board self w fuel board_id output_path st = Some (r, st') ->
  (forall p, p <> output_path -> files st' !! p = files st !! p)
  /\ (forall document, r = Ok document ->
        files st' !! output_path = Some (dumps 0 document)).
Proof.
  intros Hrun. destruct r as [document|e].
  - apply MiroSpec.backup_board_ok in Hrun
      as (_ & _ & _ & _ & _ & _ & _ & _ & _ & _ & _ & -> & _).
    split.
    + intros p Hp. by rewrite lookup_insert_ne.
    + intros ? [= <-]. by rewrite lookup_insert_eq.
  - split; [|done]. intros p Hp.
    apply MiroSpec.backup_board_raise_files in Hrun
      as [->|(_ & ? & ? & ? & ? & ? & ? & _ & _ & _ & _ & ->)]; [done|].
    by rewrite lookup_insert_ne.
Qed.

Lemma backup_board_writes_only_output_path_witness :
  exists document st',
    backup_board (init "secret") two_page_world 5 "uXjVK" "backup.json"
      (initial {[ "notes.txt" := chars "keep"; "backup.json" := chars "stale" ]})
    = Some (Ok document, st')
    /\ files st' !! "notes.txt" = Some (chars "keep")
    /\ files st' !! "backup.json" = Some (dumps 0 document).
Proof.
  destruct (backup_board (init "secret") two_page_world 5 "uXjVK" "backup.json"
              (initial {[ "notes.txt" := chars "keep"; "backup.json" := chars "stale" ]}))
    as [[[document|e] st']|] eqn:Hrun;
    [|vm_compute in Hrun; discriminate Hrun..].
  destruct (backup_board_writes_only_output_path _ _ _ _ _ _ _ _ Hrun) as [Hother Hout].
  exists document, st'. split; [reflexivity|]. split.
  - rewrite Hother by discriminate. vm_compute. reflexivity.
  - by apply Hout.
Defined.

(** X18.  When the output file cannot be opened, [backup_board] never
    returns a document and leaves every file as it was; the board and its
    items have been fetched all the same before the failure. *)
Theorem backup_board_unwritable_output self w fuel board_id output_path st :
  can_open w output_path = false ->
  (forall r st',
      backup_board self w fuel board_id output_path st = Some (r, st') ->
      (exists e, r = Raise e) /\ files st' = files st)
  /\ (forall board_info board_name items st1 st2,
        get_board self w board_id (logged BackupStarted st) = (Ok board_info, st1) ->
        dict_get board_info "name" (JStr "Unknown Board") = Ok board_name ->
        get_all_items self w fuel board_id (logged BoardFetched st1) = Some (Ok items, st2) ->
        exists st',
          backup_board self w fuel board_id output_path st = Some (Raise OSError, st')
          /\ requests st' = requests st2).
Proof.
  intros Hopen. split.
  - intros [document|e] st' Hrun.
    + apply MiroSpec.backup_board_ok in Hrun
        as (? & ? & ? & ? & ? & ? & ? & ? & ? & Hopen' & ?). congruence.
    + split; [by exists e|].
      apply MiroSpec.backup_board_raise_files in Hrun as [Hsame|[Hopen' _]]; [done|congruence].
  - intros board_info board_name items st1 st2 Hboard Hname Hitems.
    unfold backup_board. rewrite Hboard, Hname, Hitems. unfold write_json. rewrite Hopen.
    by eexists.
Qed.

Lemma backup_board_unwritable_output_witness :
  exists e st',
    backup_board (init "secret") read_only_world 5 "uXjVK" "backup.json" (initial ∅)
      = Some (Raise e, st')
    /\ files st' = ∅ /\ length (requests st') = 3%nat.
Proof.
  destruct (backup_board (init "secret") read_only_world 5 "uXjVK" "backup.json" (initial ∅))
    as [[r st']|] eqn:Hrun; [|vm_compute in Hrun; discriminate Hrun].
  destruct (proj1 (backup_board_unwritable_output (init "secret") read_only_world 5
                     "uXjVK" "backup.json" (initial ∅) eq_refl) r st' Hrun)
    as [[e ->] Hfiles].
  exists e, st'. split; [reflexivity|]. split; [exact Hfiles|].
  vm_compute in Hrun. by injection Hrun as _ <-.
Defined.

(** *** The board of a run *)

(** X19.  A board body that is JSON but not an object stops
    [backup_board] with [AttributeError] right after the board request:
    no items are requested and no file is written. *)
Theorem backup_board_board_not_object self w fuel board_id output_path st status v :
  replies w (length (requests st)) = Reply status (Some v) ->
  status_ok status = true ->
  is_object v = false ->
  exists st',
    backup_board self w fuel board_id output_path st = Some (Raise AttributeError, st')
    /\ requests st' = requests st ++ [board_request self board_id]
    /\ files st' = files st.
Proof.
  intros Hreply Hstatus Hobj. unfold backup_board.
  destruct (get_board_cases self w board_id (logged BackupStarted st))
    as (r & st1 & -> & Hreq & Hfiles & Hcase).
  cbn [requests files logged] in *. rewrite Hreply, Hstatus in Hcase.
  destruct Hcase as [-> _].
  assert (dict_get v "name" (JStr "Unknown Board") = Raise AttributeError) as ->
    by (by destruct v).
  eexists. split; [reflexivity|]. by cbn [requests files logged].
Qed.

Lemma backup_board_board_not_object_witness :
  exists st',
    backup_board (init "secret") list_board_world 5 "uXjVK" "backup.json" (initial ∅)
      = Some (Raise AttributeError, st')
    /\ requests st' = [board_request (init "secret") "uXjVK"]
    /\ files st' = ∅.
Proof.
  apply (backup_board_board_not_object (init "secret") list_board_world 5 "uXjVK"
           "backup.json" (initial ∅) 200 (JArr [JInt 1])); reflexivity.
Defined.

(** X20.  In the document of a run that returns, the board is a JSON
    object and the [board_name] of the metadata is the value of its
    ["name"] key, or the text [Unknown Board] when it has none. *)
Theorem backup_board_names_the_board self w fuel board_id output_path st document st' :
  backup_board self w fuel board_id output_path st = Some (Ok document, st') ->
  exists members items,
    document
    = backup_data w (JObj members) items
        (default (JStr "Unknown Board") (lookup_key "name" members)).
Proof.
  intros Hrun. apply MiroSpec.backup_board_ok in Hrun
    as (board_info & board_name & items & _ & _ & _ & Hname & _ & -> & _).
  destruct board_info as [| | | | | |members]; try done.
  exists members, items. cbn [dict_get] in Hname.
  by destruct (lookup_key "name" members); injection Hname as <-.
Qed.

Lemma backup_board_names_the_board_witness :
  exists document st' items,
    backup_board (init "secret") two_page_world 5 "uXjVK" "backup.json" (initial ∅)
      = Some (Ok document, st')
    /\ document
       = backup_data two_page_world
           (JObj [("id", JStr "uXjVK"); ("name", JStr "Plan")]) items (JStr "Plan").
Proof.
  destruct (backup_board (init "secret") two_page_world 5 "uXjVK" "backup.json" (initial ∅))
    as [[[document|e] st']|] eqn:Hrun;
    [|vm_compute in Hrun; discriminate Hrun..].
  destruct (backup_board_names_the_board _ _ _ _ _ _ _ _ Hrun) as (members & items & Hdoc).
  assert (members = [("id", JStr "uXjVK"); ("name", JStr "Plan")]) as Hm.
  { vm_compute in Hrun. injection Hrun as Hd _. rewrite <- Hd in Hdoc.
    unfold backup_data in Hdoc. by injection Hdoc as <-. }
  exists document, st', items. split; [reflexivity|]. by rewrite Hdoc, Hm.
Defined.

(** *** The environment and [main] *)

Lemma unset_false (v : option string) :
  unset v = false <-> exists s, v = Some s /\ s <> "".
Proof.
  destruct v as [s|]; cbn [unset].
  - rewrite String.eqb_neq. split; [by exists s|by intros (? & [= <-] & ?)].
  - split; [done|by intros (? & ? & ?)].
Qed.

(** X21.  [load_environment] returns exactly when the access token and
    the board id are both set to something, and then returns them with
    the output path, which is the value of [OUTPUT_PATH] whenever that
    variable is set, even to nothing, and the default name only when it is
    absent; the only exception it raises is [ValueError].  A variable of
    the process wins over the same variable of the [.env] file. *)
Theorem load_environment_outcome w :
  (forall access_token board_id output_path,
      load_environment w = Ok (access_token, board_id, output_path) <->
      getenv w "MIRO_ACCESS_TOKEN" = Some access_token /\ access_token <> ""
      /\ getenv w "MIRO_BOARD_ID" = Some board_id /\ board_id <> ""
      /\ output_path = default "miro_board_backup.json" (getenv w "OUTPUT_PATH"))
  /\ (forall e, load_environment w = Raise e -> e = ValueError)
  /\ (forall name,
        getenv w name
        = match environ w !! name with
          | Some v => Some v
          | None => dotenv w !! name
          end).
Proof.
  split; [|split].
  - intros access_token board_id output_path. unfold load_environment.
    destruct (unset (getenv w "MIRO_ACCESS_TOKEN")) eqn:Htoken;
      [|destruct (unset (getenv w "MIRO_BOARD_ID")) eqn:Hboard].
    + split; [done|]. intros (Ht & Hne & _).
      assert (unset (getenv w "MIRO_ACCESS_TOKEN") = false) as Hf
        by (apply unset_false; by exists access_token).
      congruence.
    + split; [done|]. intros (_ & _ & Hb & Hne & _).
      assert (unset (getenv w "MIRO_BOARD_ID") = false) as Hf
        by (apply unset_false; by exists board_id).
      congruence.
    + apply unset_false in Htoken as (t & Ht & Hnt), Hboard as (b & Hb & Hnb).
      rewrite Ht, Hb. cbn [default]. split.
      * by intros [= <- <- <-].
      * by intros ([= <-] & _ & [= <-] & _ & ->).
  - intros e. unfold load_environment.
    destruct (unset (getenv w "MIRO_ACCESS_TOKEN")); [by intros [= <-]|].
    destruct (unset (getenv w "MIRO_BOARD_ID")); [by intros [= <-]|done].
  - intros name. unfold getenv. rewrite lookup_union.
    by destruct (environ w !! name), (dotenv w !! name).
Qed.

Lemma load_environment_outcome_witness :
  load_environment read_only_world = Ok ("secret", "uXjVK", "").
Proof.
  apply (proj1 (load_environment_outcome read_only_world)).
  repeat split; first [vm_compute; reflexivity | discriminate].
Defined.

Lemma last_logged (entry : log_entry) (st : State) : last (log (logged entry st)) = Some entry.
Proof. cbn [log logged]. apply last_snoc. Qed.

(** X22.  How [main] reports a failed board request when the
    environment is complete: a reply whose body is not JSON is logged as
    an environment variable error, because its exception is a
    [ValueError]; no reply and an error status are logged as a failure of
    the backup process.  In both cases no file is written. *)
Theorem main_reports_board_failure w fuel st access_token board_id output_path :
  load_environment w = Ok (access_token, board_id, output_path) ->
  (forall status,
      replies w (length (requests st)) = Reply status None -> status_ok status = true ->
      exists st', main w fuel st = Some st'
        /\ last (log st') = Some EnvironmentError /\ files st' = files st)
  /\ (is_http_failure (replies w (length (requests st))) = true ->
      exists st', main w fuel st = Some st'
        /\ last (log st') = Some ProcessFailed /\ files st' = files st).
Proof.
  intros Hload. unfold main. rewrite Hload. unfold backup_board.
  destruct (get_board_cases (init access_token) w board_id (logged BackupStarted st))
    as (r & st1 & -> & _ & Hfiles & Hcase).
  cbn [requests files logged] in *. split.
  - intros status Hreply Hstatus. rewrite Hreply, Hstatus in Hcase. destruct Hcase as [-> _].
    eexists. split; [reflexivity|]. cbn [isinstance]. by rewrite last_logged.
  - intros Hfail. destruct (replies w (length (requests st))) as [|status body].
    + destruct Hcase as [-> _]. eexists. split; [reflexivity|]. cbn [isinstance].
      by rewrite last_logged.
    + cbn [is_http_failure] in Hfail. unfold status_ok in Hcase. rewrite Hfail in Hcase.
      cbn [negb] in Hcase. destruct Hcase as [-> _].
      eexists. split; [reflexivity|]. cbn [isinstance]. by rewrite last_logged.
Qed.

Lemma main_reports_board_failure_witness :
  exists st', main not_json_world 5 (initial ∅) = Some st'
    /\ last (log st') = Some EnvironmentError /\ files st' = ∅.
Proof.
  apply (proj1 (main_reports_board_failure not_json_world 5 (initial ∅)
                  "secret" "uXjVK" "miro_board_backup.json" ltac:(vm_compute; reflexivity))
           200); reflexivity.
Defined.

(** X23.  A run of [main] ends in one of three ways.  It has written
    the backup: the file at the output path of the environment holds a
    text that [json.load] reads back as the document, and the last log
    line is the one of a finished backup.  Or it has left every file as
    it was.  Or it has failed while writing: the output file was opened
    and holds only the part of the text of the document that was written
    before the failure.  In the last two cases the last log line is not
    the one of a finished backup.  No file other than the output file is
    ever touched. *)
Theorem main_writes_the_backup_or_nothing to_float w fuel st st' :
  wf_replies to_float w ->
  main w fuel st = Some st' ->
  (files st' = files st /\ last (log st') <> Some BackupDone)
  \/ (exists access_token board_id output_path document,
        load_environment w = Ok (access_token, board_id, output_path)
        /\ files st' = <[ output_path := dumps 0 document ]> (files st)
        /\ loads to_float (dumps 0 document) = Some document
        /\ last (log st') = Some BackupDone)
  \/ (exists access_token board_id output_path document e n,
        load_environment w = Ok (access_token, board_id, output_path)
        /\ can_open w output_path = true
        /\ dump_failure w output_path (dumps 0 document) = Some (e, n)
        /\ files st' = <[ output_path := take n (dumps 0 document) ]> (files st)
        /\ last (log st') <> Some BackupDone).
Proof.
  intros Hw. unfold main. cbv beta zeta.
  assert (forall e s0, last (log (if isinstance e CValueError
                                  then logged EnvironmentError s0
                                  else logged ProcessFailed s0)) <> Some BackupDone) as Hlast
    by (intros e s0; destruct (isinstance e CValueError); by rewrite last_logged).
  assert (forall e s0, files (if isinstance e CValueError
                              then logged EnvironmentError s0
                              else logged ProcessFailed s0) = files s0) as Hfiles
    by (intros e s0; by destruct (isinstance e CValueError)).
  destruct (load_environment w) as [[[access_token board_id] output_path]|e] eqn:Hload.
  - destruct (backup_board (init access_token) w fuel board_id output_path st)
      as [[[document|e] st1]|] eqn:Hrun; [| |done];
      intros Heq; apply (inj Some) in Heq; subst st'.
    + right. left. exists access_token, board_id, output_path, document.
      pose proof (MiroSpec.document_round_trips to_float w Hw _ _ _ _ _ _ _ Hrun) as Hloads.
      apply MiroSpec.backup_board_ok in Hrun
        as (? & ? & ? & ? & ? & _ & _ & _ & _ & _ & _ & Hfs & Hdone).
      done.
    + rewrite Hfiles.
      apply MiroSpec.backup_board_raise_files in Hrun
        as [Hsame|(Hopen & board_info & board_name & items & ? & ? & n & _ & _ & _
                   & Hdump & Hfs)].
      * left. split; [exact Hsame|apply Hlast].
      * right. right.
        exists access_token, board_id, output_path,
               (backup_data w board_info items board_name), e, n.
        split; [done|]. split; [done|]. split; [done|]. split; [done|apply Hlast].
  - intros Heq. apply (inj Some) in Heq. subst st'. left. by rewrite Hfiles.
Qed.

Lemma main_writes_the_backup_or_nothing_witness :
  (exists st' document,
      main measured_world 5 (initial ∅) = Some st'
      /\ files st' !! "miro_board_backup.json" = Some (dumps 0 document)
      /\ loads float_of_repr (dumps 0 document) = Some document)
  /\ exists st' document n,
       main surrogate_world 5 (initial ∅) = Some st'
       /\ files st' !! "miro_board_backup.json" = Some (take n (dumps 0 document))
       /\ last (log st') = Some EnvironmentError.
Proof.
  assert (wf_replies float_of_repr measured_world) as Hw
    by (intros [|[|n]] status v [= <- <-]; vm_compute; reflexivity).
  assert (wf_replies float_of_repr surrogate_world) as Hw'
    by (intros [|n] status v [= <- <-]; vm_compute; reflexivity).
  split.
  - destruct (main measured_world 5 (initial ∅)) as [st'|] eqn:Hrun;
      [|vm_compute in Hrun; discriminate Hrun].
    destruct (main_writes_the_backup_or_nothing _ _ _ _ _ Hw Hrun)
      as [[_ Hlog]|[(t & b & o & document & Hload & Hfiles & Hloads & _)
                   |(t & b & o & document & e & n & _ & _ & _ & _ & Hlog)]].
    + exfalso. apply Hlog. vm_compute in Hrun. injection Hrun as <-. reflexivity.
    + exists st', document. split; [reflexivity|].
      assert (o = "miro_board_backup.json") as ->
        by (vm_compute in Hload; by injection Hload as _ _ <-).
      split; [|exact Hloads]. rewrite Hfiles. apply lookup_insert_eq.
    + exfalso. apply Hlog. vm_compute in Hrun. injection Hrun as <-. reflexivity.
  - destruct (main surrogate_world 5 (initial ∅)) as [st'|] eqn:Hrun;
      [|vm_compute in Hrun; discriminate Hrun].
    assert (last (log st') = Some EnvironmentError) as Hlast
      by (vm_compute in Hrun; injection Hrun as <-; reflexivity).
    destruct (main_writes_the_backup_or_nothing _ _ _ _ _ Hw' Hrun)
      as [[Hsame _]|[(t & b & o & document & _ & _ & _ & Hlog)
                    |(t & b & o & document & e & n & Hload & _ & _ & Hfiles & _)]].
    + exfalso. assert (files st' !! "miro_board_backup.json" = None) as Hnone
        by (rewrite Hsame; reflexivity).
      vm_compute in Hrun. injection Hrun as <-. vm_compute in Hnone. discriminate Hnone.
    + exfalso. rewrite Hlast in Hlog. discriminate Hlog.
    + exists st', document, n. split; [reflexivity|].
      assert (o = "miro_board_backup.json") as ->
        by (vm_compute in Hload; by injection Hload as _ _ <-).
      split; [|exact Hlast]. rewrite Hfiles. apply lookup_insert_eq.
Defined.

End BackupRunsSpec.
